(** * Starry-sky: a 3D star field on a 2D canvas

    A shallow embedding of the simulation core of the repository
    (Star, Camera, Renderer, PerformanceMonitor, StarField, InputHandler,
    ConfigPanel, and the wiring of StarFieldApp around them) and proofs
    of its specified properties.

    Conventions of the embedding.
    - A JavaScript number that is known to be finite is a rational [Q]
      (exact arithmetic; rounding of doubles is not modelled).  Where the
      code can meet [NaN] (the configuration setters), the number is a
      [JS.number].  Infinities are not modelled.
    - Mutation of [this] is explicit state passing: a method takes the
      object and returns the updated object.
    - [performance.now()] is an explicit argument [now].
    - The host's [Math.cos], [Math.sin], [Math.tan] and [Math.random] are
      the fields of the class [Host]; the k-th call of [Math.random()]
      returns [Math_random k], and the counter of calls is threaded.
    - DOM effects (cursor style, canvas drawing calls, console output) are
      left out; what is kept is the state they are computed from. *)

From Stdlib Require Import String.
From Stdlib Require Import QArith Qround Qabs ZArith List Bool Lia Lqa.
From Stdlib Require Import Sorted Permutation Qpower.
Import ListNotations.
Open Scope Q_scope.

(* ================================================================== *)
(** * Part I: the model *)
(* ================================================================== *)

(** ** The [Math] object on finite numbers *)

Module Math.

(** [Math.PI] is the double nearest to pi: 884279719003555 / 2^48. *)
Definition PI : Q := 884279719003555 # 281474976710656.

Definition floor (q : Q) : Q := inject_Z (Qfloor q).

(** [Math.round] rounds half up (towards +infinity). *)
Definition round (q : Q) : Q := inject_Z (Qfloor (q + (1 # 2))).

Definition min (a b : Q) : Q := if Qle_bool a b then a else b.

Definition max (a b : Q) : Q := if Qle_bool b a then a else b.

Definition abs (q : Q) : Q := Qabs q.

(** Strict comparison [a < b] as a boolean. *)
Definition ltb (a b : Q) : bool := negb (Qle_bool b a).

(** The remainder operator [a % b]: the sign follows the dividend. *)
Definition rem (a b : Q) : Q :=
  a - b * inject_Z (Z.quot (Qnum (a / b)) (Zpos (Qden (a / b)))).

End Math.

(** The functions of the host that have no exact rational value. *)
Class Host : Type := {
  Math_cos : Q -> Q;
  Math_sin : Q -> Q;
  Math_tan : Q -> Q;
  Math_random : nat -> Q
}.

(** ** JavaScript numbers with [NaN] *)

Module JS.

Inductive number : Type :=
| NaN
| Num (q : Q).

Definition isNaN (n : number) : bool :=
  match n with NaN => true | Num _ => false end.

Definition lift2 (f : Q -> Q -> Q) (a b : number) : number :=
  match a, b with
  | Num p, Num q => Num (f p q)
  | _, _ => NaN
  end.

Definition add : number -> number -> number := lift2 Qplus.
Definition sub : number -> number -> number := lift2 Qminus.
Definition mul : number -> number -> number := lift2 Qmult.

(** Every comparison with [NaN] is false. *)
Definition lt (a b : number) : bool :=
  match a, b with
  | Num p, Num q => Math.ltb p q
  | _, _ => false
  end.

Definition gt (a b : number) : bool := lt b a.

(** [a === b] on numbers. *)
Definition strict_eq (a b : number) : bool :=
  match a, b with
  | Num p, Num q => Qeq_bool p q
  | _, _ => false
  end.

Definition Math_floor (n : number) : number :=
  match n with NaN => NaN | Num q => Num (Math.floor q) end.

Definition Math_min (a b : number) : number :=
  match a, b with
  | Num p, Num q => if Qle_bool p q then a else b
  | _, _ => NaN
  end.

Definition Math_max (a b : number) : number :=
  match a, b with
  | Num p, Num q => if Qle_bool q p then a else b
  | _, _ => NaN
  end.

(** The abstract operation ToIntegerOrInfinity: [NaN] becomes 0, a finite
    number is truncated towards zero. *)
Definition ToIntegerOrInfinity (n : number) : Z :=
  match n with
  | NaN => 0%Z
  | Num q => Z.quot (Qnum q) (Zpos (Qden q))
  end.

(** [arr.splice(start)] with one argument removes every element from the
    actual start index on; what is left of the array is returned here. *)
Definition splice {A : Type} (start : number) (arr : list A) : list A :=
  let len := Z.of_nat (length arr) in
  let relativeStart := ToIntegerOrInfinity start in
  let actualStart :=
    if (relativeStart <? 0)%Z then Z.max (len + relativeStart) 0
    else Z.min relativeStart len in
  firstn (Z.to_nat actualStart) arr.

(** [for (let i = a; i < b; i++) body]: [fuel] bounds the number of
    iterations; [trips a b] is the number of times the loop runs, so
    [for_loop] gives [for_lt] enough fuel (lemmas [for_lt_enough] and
    [for_lt_NaN]). *)
Fixpoint for_lt {S : Type} (fuel : nat) (i b : number) (body : S -> S) (s : S) : S :=
  match fuel with
  | O => s
  | Datatypes.S fuel' =>
      if lt i b then for_lt fuel' (add i (Num 1)) b body (body s) else s
  end.

Definition trips (a b : number) : nat :=
  match a, b with
  | Num p, Num q => Z.to_nat (Qceiling (q - p))
  | _, _ => O
  end.

Definition for_loop {S : Type} (a b : number) (body : S -> S) (s : S) : S :=
  for_lt (trips a b) a b body s.

End JS.

(** ** Camera (perspective projection) *)

Module Camera.

Record t : Type := mk {
  fov : Q;
  aspect : Q;
  near : Q;
  far : Q;
  rotationX : Q;
  rotationY : Q;
  canvasWidth : Q;
  canvasHeight : Q;
  focalLength : Q
}.

(** A point [{x, y, z}]. *)
Record Point : Type := mkPoint { px : Q; py : Q; pz : Q }.

Definition updateProjection `{Host} (c : t) : t :=
  mk (fov c) (aspect c) (near c) (far c) (rotationX c) (rotationY c)
     (canvasWidth c) (canvasHeight c)
     (canvasHeight c / (2 * Math_tan ((fov c * Math.PI / 180) / 2))).

(** [new Camera(fov, aspect, near, far)]. *)
Definition new `{Host} (fov0 aspect0 near0 far0 : Q) : t :=
  updateProjection
    (mk fov0 aspect0 near0 far0 0 0 800 600
        (600 / (2 * Math_tan ((fov0 * Math.PI / 180) / 2)))).

Definition applyRotation `{Host} (c : t) (x y z : Q) : Point :=
  let cosY := Math_cos (rotationY c) in
  let sinY := Math_sin (rotationY c) in
  let rotatedX := x * cosY - z * sinY in
  let rotatedZ := x * sinY + z * cosY in
  let cosX := Math_cos (rotationX c) in
  let sinX := Math_sin (rotationX c) in
  let finalY := y * cosX - rotatedZ * sinX in
  let finalZ := y * sinX + rotatedZ * cosX in
  mkPoint rotatedX finalY finalZ.

(** [None] is the [null] result. *)
Definition project3DTo2D `{Host} (c : t) (x y z : Q) : option Point :=
  if Qle_bool z 0 then None
  else
    let rotatedPoint := applyRotation c x y z in
    if Qle_bool (pz rotatedPoint) 0 then None
    else
      let projectedX := (px rotatedPoint * focalLength c) / pz rotatedPoint in
      let projectedY := (py rotatedPoint * focalLength c) / pz rotatedPoint in
      let screenX := projectedX + canvasWidth c / 2 in
      let screenY := projectedY + canvasHeight c / 2 in
      Some (mkPoint screenX screenY (pz rotatedPoint)).

Definition setRotation (rotX rotY : Q) (c : t) : t :=
  mk (fov c) (aspect c) (near c) (far c) rotX rotY
     (canvasWidth c) (canvasHeight c) (focalLength c).

Definition updateAspectRatio `{Host} (width height : Q) (c : t) : t :=
  updateProjection
    (mk (fov c) (width / height) (near c) (far c) (rotationX c) (rotationY c)
        width height (focalLength c)).

Definition isInViewFrustum `{Host} (c : t) (x y z : Q) : bool :=
  if Qle_bool z (near c) || Qle_bool (far c) z then false
  else
    let rotated := applyRotation c x y z in
    if Qle_bool (pz rotated) 0 then false
    else
      let halfHeight := Math_tan ((fov c * Math.PI / 180) / 2) * pz rotated in
      let halfWidth := halfHeight * aspect c in
      Qle_bool (Math.abs (px rotated)) halfWidth
      && Qle_bool (Math.abs (py rotated)) halfHeight.

Definition reset (c : t) : t := setRotation 0 0 c.

End Camera.

(** ** Star (one particle) *)

Module Star.

Record t : Type := mk {
  x : Q;
  y : Q;
  z : Q;
  prevX : Q;
  prevY : Q;
  speed : Q;
  maxDistance : Q;
  minDistance : Q
}.

(** [new Star(x, y, z)]: one call of [Math.random()], the k-th. *)
Definition new `{Host} (k : nat) (x0 y0 z0 : Q) : t * nat :=
  (mk x0 y0 z0 x0 y0 (Math_random k * (1 # 2) + (1 # 2)) 1000 1, S k).

(** [reset()]: three calls of [Math.random()]. *)
Definition reset `{Host} (k : nat) (s : t) : t * nat :=
  let range := 500 in
  let x' := (Math_random k - (1 # 2)) * range * 2 in
  let y' := (Math_random (S k) - (1 # 2)) * range * 2 in
  (mk x' y' (maxDistance s) x' y'
      (Math_random (S (S k)) * (1 # 2) + (1 # 2))
      (maxDistance s) (minDistance s),
   S (S (S k))).

(** [update(speed, deltaTime)]. *)
Definition update `{Host} (k : nat) (speed0 deltaTime : Q) (s : t) : t * nat :=
  let moved :=
    mk (x s) (y s) (z s - speed0 * speed s * deltaTime * 60)
       (x s) (y s) (speed s) (maxDistance s) (minDistance s) in
  if Qle_bool (z moved) (minDistance moved) then reset k moved
  else (moved, k).

Definition getScreenPosition `{Host} (s : t) (camera : option Camera.t)
  : option Camera.Point :=
  match camera with
  | None => None
  | Some c =>
      if Qle_bool (z s) 0 then None
      else Camera.project3DTo2D c (x s) (y s) (z s)
  end.

Definition getBrightness (s : t) : Q :=
  let normalizedDistance :=
    (z s - minDistance s) / (maxDistance s - minDistance s) in
  Math.max 0 (Math.min 1 (1 - normalizedDistance)).

Definition getSize (baseSize : Q) (s : t) : Q :=
  Math.max (1 # 2) (baseSize * getBrightness s).

Definition isVisible (s : t) : bool :=
  Qle_bool (minDistance s) (z s) && Qle_bool (z s) (maxDistance s).

End Star.

(** ** Renderer (colour schemes and scheme transitions) *)

Module Renderer.

(** An RGB colour [{r, g, b}]. *)
Record Color : Type := mkColor { r : Q; g : Q; b : Q }.

Record Config : Type := mkConfig {
  baseStarSize : Q;
  maxStarSize : Q;
  minStarSize : Q;
  trailLength : Q;
  glowRadius : Q;
  colorScheme : string;
  enableTrails : bool;
  enableGlow : bool;
  batchRendering : bool;
  maxBatchSize : Q
}.

(** [fromScheme] and [toScheme] are [null] ([None]) when no transition is
    recorded. *)
Record ColorTransition : Type := mkTransition {
  isTransitioning : bool;
  startTime : Q;
  duration : Q;
  fromScheme : option string;
  toScheme : option string;
  progress : Q
}.

Record t : Type := mk {
  config : Config;
  colorTransition : ColorTransition
}.

(** An entry of [this.colorSchemes]: fixed RGB constants, or a scheme
    computed per star ([dynamic: true]). *)
Inductive Scheme : Type :=
| Static (c : Color)
| Dynamic.

Definition colorSchemes : list (string * Scheme) :=
  [ ("white"%string, Static (mkColor 255 255 255));
    ("blue-white"%string, Static (mkColor 200 220 255));
    ("rainbow"%string, Dynamic);
    ("warm"%string, Static (mkColor 255 220 180));
    ("cool"%string, Static (mkColor 180 200 255));
    ("nebula"%string, Dynamic) ].

Fixpoint lookup (name : string) (table : list (string * Scheme)) : option Scheme :=
  match table with
  | [] => None
  | (key, s) :: rest => if String.eqb name key then Some s else lookup name rest
  end.

Definition hasOwnProperty (name : string) : bool :=
  match lookup name colorSchemes with Some _ => true | None => false end.

(** [new Renderer(canvas)]. *)
Definition new : t :=
  mk (mkConfig 2 8 (1 # 2) (3 # 10) 4 "white" true true true 100)
     (mkTransition false 0 1000 None None 0).

Definition hue2rgb (p q t0 : Q) : Q :=
  let t1 := if Math.ltb t0 0 then t0 + 1 else t0 in
  let t2 := if Math.ltb 1 t1 then t1 - 1 else t1 in
  if Math.ltb t2 (1 # 6) then p + (q - p) * 6 * t2
  else if Math.ltb t2 (1 # 2) then q
  else if Math.ltb t2 (2 # 3) then p + (q - p) * ((2 # 3) - t2) * 6
  else p.

Definition hslToRgb (h0 s0 l0 : Q) : Color :=
  let h := h0 / 360 in
  let s := s0 / 100 in
  let l := l0 / 100 in
  let q := if Math.ltb l (1 # 2) then l * (1 + s) else l + s - l * s in
  let p := 2 * l - q in
  mkColor (Math.round (hue2rgb p q (h + (1 # 3)) * 255))
          (Math.round (hue2rgb p q h * 255))
          (Math.round (hue2rgb p q (h - (1 # 3)) * 255)).

Definition getRainbowColor (star : Star.t) (currentTime : Q) : Color :=
  let hue :=
    Math.rem ((Star.x star + Star.y star) * (1 # 100) + currentTime * (1 # 1000)) 360 in
  hslToRgb hue 70 80.

Definition getNebulaColor `{Host} (star : Star.t) (currentTime : Q) : Color :=
  let baseHue := 270 in
  let hueVariation :=
    Math_sin ((Star.x star + Star.y star) * (5 # 1000) + currentTime * (5 # 10000)) * 60 in
  let hue := Math.rem (baseHue + hueVariation) 360 in
  let saturation := 60 + Math_sin ((Star.x star - Star.y star) * (3 # 1000)) * 20 in
  let lightness :=
    60 + Math_sin (Star.z star * (1 # 100) + currentTime * (3 # 10000)) * 15 in
  hslToRgb hue saturation lightness.

(** [this.colorSchemes[name] || this.colorSchemes.white], read as RGB,
    for a [name] that is an entry of [colorSchemes] itself or no
    property of the object at all.  The dynamic entries carry no RGB
    constants; both callers test for their names first, so the second
    case is never reached by them.  A name that the object only inherits
    from [Object.prototype] (such as [constructor]) is outside this
    definition: there the source reads a truthy value without [r], [g],
    [b], whose channels are no numbers.  [setColorScheme] stores entries
    of [colorSchemes] only ([hasOwnProperty]); every theorem that reads a
    colour through this definition assumes such a name. *)
Definition staticColor (name : string) : Color :=
  match lookup name colorSchemes with
  | Some (Static c) => c
  | Some Dynamic => mkColor 255 255 255
  | None => mkColor 255 255 255
  end.

Definition getSchemeColor `{Host} (schemeName : option string) (star : Star.t)
  (currentTime : Q) : Color :=
  match schemeName with
  | Some name =>
      if String.eqb name "rainbow" then getRainbowColor star currentTime
      else if String.eqb name "nebula" then getNebulaColor star currentTime
      else staticColor name
  | None => mkColor 255 255 255
  end.

Definition easeInOutCubic (t0 : Q) : Q :=
  if Math.ltb t0 (1 # 2) then 4 * t0 * t0 * t0
  else 1 - Qpower (-2 * t0 + 2) 3 / 2.

Definition blendColors (color1 color2 : Color) (progress0 : Q) : Color :=
  let easedProgress := easeInOutCubic progress0 in
  mkColor (Math.round (r color1 + (r color2 - r color1) * easedProgress))
          (Math.round (g color1 + (g color2 - g color1) * easedProgress))
          (Math.round (b color1 + (b color2 - b color1) * easedProgress)).

Definition applyBrightnessAndContrast (baseColor : Color) (brightness : Q) : Color :=
  let minBrightness := 30 in
  let r1 := Math.max minBrightness (Math.floor (r baseColor * brightness)) in
  let g1 := Math.max minBrightness (Math.floor (g baseColor * brightness)) in
  let b1 := Math.max minBrightness (Math.floor (b baseColor * brightness)) in
  if Math.ltb brightness (3 # 10) then
    let contrastBoost := 12 # 10 in
    mkColor (Math.min 255 (Math.floor (r1 * contrastBoost)))
            (Math.min 255 (Math.floor (g1 * contrastBoost)))
            (Math.min 255 (Math.floor (b1 * contrastBoost)))
  else mkColor r1 g1 b1.

Definition updateColorTransition (currentTime : Q) (rd : t) : t :=
  let ct := colorTransition rd in
  if negb (isTransitioning ct) then rd
  else
    let elapsed := currentTime - startTime ct in
    let progress1 := Math.min (elapsed / duration ct) 1 in
    if Qle_bool 1 progress1 then
      mk (config rd)
         (mkTransition false (startTime ct) (duration ct) None None progress1)
    else
      mk (config rd)
         (mkTransition (isTransitioning ct) (startTime ct) (duration ct)
                       (fromScheme ct) (toScheme ct) progress1).


(** [getStarColor(star, brightness, currentTime)]: the colour, and the
    renderer after the update of its transition. *)
Definition getStarColor `{Host} (star : Star.t) (brightness currentTime : Q) (rd : t)
  : Color * t :=
  let rd1 := updateColorTransition currentTime rd in
  let scheme := colorScheme (config rd1) in
  let baseColor :=
    if String.eqb scheme "rainbow" then getRainbowColor star currentTime
    else if String.eqb scheme "nebula" then getNebulaColor star currentTime
    else staticColor scheme in
  let baseColor1 :=
    if isTransitioning (colorTransition rd1) then
      blendColors
        (getSchemeColor (fromScheme (colorTransition rd1)) star currentTime)
        baseColor
        (progress (colorTransition rd1))
    else baseColor in
  (applyBrightnessAndContrast baseColor1 brightness, rd1).

Definition set_colorScheme (scheme : string) (c : Config) : Config :=
  mkConfig (baseStarSize c) (maxStarSize c) (minStarSize c) (trailLength c)
           (glowRadius c) scheme (enableTrails c) (enableGlow c)
           (batchRendering c) (maxBatchSize c).

(** [setColorScheme(scheme, smooth)], called at time [now]. *)
Definition setColorScheme (scheme : string) (smooth : bool) (now : Q) (rd : t) : t :=
  if negb (hasOwnProperty scheme) then rd
  else if String.eqb scheme (colorScheme (config rd)) then rd
  else
    let ct := colorTransition rd in
    let ct1 :=
      if smooth && negb (isTransitioning ct) then
        mkTransition true now (duration ct)
                     (Some (colorScheme (config rd))) (Some scheme) 0
      else ct in
    mk (set_colorScheme scheme (config rd)) ct1.

Definition setTrailsEnabled (enabled : bool) (rd : t) : t :=
  let c := config rd in
  mk (mkConfig (baseStarSize c) (maxStarSize c) (minStarSize c) (trailLength c)
               (glowRadius c) (colorScheme c) enabled (enableGlow c)
               (batchRendering c) (maxBatchSize c))
     (colorTransition rd).

Definition setGlowEnabled (enabled : bool) (rd : t) : t :=
  let c := config rd in
  mk (mkConfig (baseStarSize c) (maxStarSize c) (minStarSize c) (trailLength c)
               (glowRadius c) (colorScheme c) (enableTrails c) enabled
               (batchRendering c) (maxBatchSize c))
     (colorTransition rd).

Definition setBaseStarSize (size : Q) (rd : t) : t :=
  let c := config rd in
  mk (mkConfig (Math.max (1 # 2) (Math.min 5 size)) (maxStarSize c) (minStarSize c)
               (trailLength c) (glowRadius c) (colorScheme c) (enableTrails c)
               (enableGlow c) (batchRendering c) (maxBatchSize c))
     (colorTransition rd).

(** [getConfig()] returns a copy of the configuration. *)
Definition getConfig (rd : t) : Config := config rd.

Definition calculateStarSize (brightness baseSize : Q) (rd : t) : Q :=
  let scaledSize := baseSize * baseStarSize (config rd) in
  Math.max (minStarSize (config rd)) (Math.min (maxStarSize (config rd)) scaledSize).

(** An element of the array that [render] receives:
    [{star, screenPos, brightness, size}]. *)
Record StarData : Type := mkStarData {
  star : Star.t;
  screenPos : Camera.Point;
  brightness : Q;
  size : Q
}.

Definition getStarBatchType (starData : StarData) : string :=
  let brightnessGroup :=
    if Math.ltb (7 # 10) (brightness starData) then "bright"%string
    else if Math.ltb (3 # 10) (brightness starData) then "medium"%string
    else "dim"%string in
  let sizeGroup :=
    if Math.ltb 4 (size starData) then "large"%string
    else if Math.ltb 2 (size starData) then "medium"%string
    else "small"%string in
  (brightnessGroup ++ "-" ++ sizeGroup)%string.

(** A batch [{type, stars}]; [type] is [null] ([None]) only before the
    first star has been seen. *)
Record Batch : Type := mkBatch {
  type : option string;
  stars : list StarData
}.

(** The variables of the loop of [groupStarsForBatching]. *)
Record Grouping : Type := mkGrouping {
  batches : list Batch;
  currentBatch : list StarData;
  currentBatchType : option string
}.

(** [if (currentBatch.length > 0) batches.push({type, stars})]. *)
Definition pushCurrentBatch (gs : Grouping) : list Batch :=
  if (0 <? length (currentBatch gs))%nat
  then batches gs ++ [mkBatch (currentBatchType gs) (currentBatch gs)]
  else batches gs.

(** [this.config.maxBatchSize || 100]: 100 for a size of 0. *)
Definition batchLimit (rd : t) : Q :=
  if Qeq_bool (maxBatchSize (config rd)) 0 then 100 else maxBatchSize (config rd).

(** The body of the loop. *)
Definition groupStar (rd : t) (gs : Grouping) (starData : StarData) : Grouping :=
  let batchType := getStarBatchType starData in
  let limit := batchLimit rd in
  let typeChanged :=
    match currentBatchType gs with
    | None => true
    | Some current => negb (String.eqb current batchType)
    end in
  if typeChanged || Qle_bool limit (inject_Z (Z.of_nat (length (currentBatch gs)))) then
    mkGrouping (pushCurrentBatch gs) [starData] (Some batchType)
  else
    mkGrouping (batches gs) (currentBatch gs ++ [starData]) (currentBatchType gs).

Definition groupStarsForBatching (stars0 : list StarData) (rd : t) : list Batch :=
  pushCurrentBatch (fold_left (groupStar rd) stars0 (mkGrouping [] [] None)).

(** [sort] with the comparator [(a, b) => b.screenPos.z - a.screenPos.z]
    is stable: of two stars the deeper one comes first, and stars of
    equal depth keep their order.  Insertion from the right end of the
    array, each star placed before the first one that is not deeper,
    gives that order. *)
Fixpoint insertByDepth (starData : StarData) (sorted : list StarData) : list StarData :=
  match sorted with
  | [] => [starData]
  | other :: rest =>
      if Qle_bool (Camera.pz (screenPos other)) (Camera.pz (screenPos starData))
      then starData :: sorted
      else other :: insertByDepth starData rest
  end.

Definition sortStarsByDepth (visibleStars : list StarData) : list StarData :=
  fold_right insertByDepth [] visibleStars.

(** The argument of [updateConfig]: an object with some of the keys of
    the configuration; [None] is an absent key. *)
Record ConfigUpdate : Type := mkConfigUpdate {
  new_baseStarSize : option Q;
  new_maxStarSize : option Q;
  new_minStarSize : option Q;
  new_trailLength : option Q;
  new_glowRadius : option Q;
  new_colorScheme : option string;
  new_enableTrails : option bool;
  new_enableGlow : option bool;
  new_batchRendering : option bool;
  new_maxBatchSize : option Q
}.

Definition assign {A : Type} (update : option A) (current : A) : A :=
  match update with Some v => v | None => current end.

(** [updateConfig(newConfig)]: [Object.assign(this.config, newConfig)]. *)
Definition updateConfig (newConfig : ConfigUpdate) (rd : t) : t :=
  let c := config rd in
  mk (mkConfig (assign (new_baseStarSize newConfig) (baseStarSize c))
               (assign (new_maxStarSize newConfig) (maxStarSize c))
               (assign (new_minStarSize newConfig) (minStarSize c))
               (assign (new_trailLength newConfig) (trailLength c))
               (assign (new_glowRadius newConfig) (glowRadius c))
               (assign (new_colorScheme newConfig) (colorScheme c))
               (assign (new_enableTrails newConfig) (enableTrails c))
               (assign (new_enableGlow newConfig) (enableGlow c))
               (assign (new_batchRendering newConfig) (batchRendering c))
               (assign (new_maxBatchSize newConfig) (maxBatchSize c)))
     (colorTransition rd).

End Renderer.

(** ** PerformanceMonitor (frame timing and FPS history) *)

Module PerformanceMonitor.

Record t : Type := mk {
  frameCount : Z;
  fps : Z;
  lastFpsUpdate : Q;
  fpsHistory : list Z;
  maxFpsHistory : Z;
  lastFrameTime : Q;
  frameTime : Q;
  averageFrameTime : Q;
  lowFpsThreshold : Q;
  highFrameTimeThreshold : Q
}.

(** The object passed to a performance callback: [{fps, frameTime}]. *)
Record Data : Type := mkData { data_fps : Q; data_frameTime : Q }.

(** Which callback [checkPerformanceThresholds] invokes, with its
    argument: [onLowPerformance] ([type: 'low_fps']) or
    [onGoodPerformance] ([type: 'good_fps']). *)
Inductive Notification : Type :=
| LowPerformance (d : Data)
| GoodPerformance (d : Data).

Definition new : t :=
  mk 0 0 0 [] 60 0 0 (1667 # 100) 30 (3333 # 100).

Definition getAverageFPS (pm : t) : Q :=
  match fpsHistory pm with
  | [] => inject_Z (fps pm)
  | _ =>
      let sum := fold_left Z.add (fpsHistory pm) 0%Z in
      Math.round (inject_Z sum / inject_Z (Z.of_nat (length (fpsHistory pm))))
  end.

Definition checkPerformanceThresholds (pm : t) : option Notification :=
  let avgFps := getAverageFPS pm in
  if Math.ltb avgFps (lowFpsThreshold pm) then
    Some (LowPerformance (mkData avgFps (frameTime pm)))
  else if Math.ltb (lowFpsThreshold pm + 10) avgFps then
    Some (GoodPerformance (mkData avgFps (frameTime pm)))
  else None.

(** [fpsHistory.push(fps)], then [shift()] when the history is longer
    than [maxFpsHistory]. *)
Definition pushFps (fps0 : Z) (maxLen : Z) (history : list Z) : list Z :=
  let pushed := history ++ [fps0] in
  if (maxLen <? Z.of_nat (length pushed))%Z then tl pushed else pushed.

(** [update(currentTime)]: the monitor afterwards, and the callback it
    invoked, if any.  The memory telemetry of the host is not modelled. *)
Definition update (currentTime : Q) (pm : t) : t * option Notification :=
  let frameTime1 :=
    if Math.ltb 0 (lastFrameTime pm) then currentTime - lastFrameTime pm
    else frameTime pm in
  let frameCount1 := (frameCount pm + 1)%Z in
  if Qle_bool 1000 (currentTime - lastFpsUpdate pm) then
    let pm1 :=
      mk 0 frameCount1 currentTime
         (pushFps frameCount1 (maxFpsHistory pm) (fpsHistory pm))
         (maxFpsHistory pm) currentTime frameTime1 (averageFrameTime pm)
         (lowFpsThreshold pm) (highFrameTimeThreshold pm) in
    (pm1, checkPerformanceThresholds pm1)
  else
    (mk frameCount1 (fps pm) (lastFpsUpdate pm) (fpsHistory pm)
        (maxFpsHistory pm) currentTime frameTime1 (averageFrameTime pm)
        (lowFpsThreshold pm) (highFrameTimeThreshold pm),
     None).

Definition setLowFpsThreshold (threshold : Q) (pm : t) : t :=
  mk (frameCount pm) (fps pm) (lastFpsUpdate pm) (fpsHistory pm)
     (maxFpsHistory pm) (lastFrameTime pm) (frameTime pm) (averageFrameTime pm)
     (Math.max 1 (Math.min 60 threshold)) (highFrameTimeThreshold pm).

Definition reset (pm : t) : t :=
  mk 0 0 0 [] (maxFpsHistory pm) 0 0 (averageFrameTime pm)
     (lowFpsThreshold pm) (highFrameTimeThreshold pm).

(** A run of the monitor over the timestamps of successive frames. *)
Definition run (times : list Q) (pm : t) : t :=
  fold_left (fun m time => fst (update time m)) times pm.

End PerformanceMonitor.

(** ** StarField (the particle collection and adaptive quality control) *)

Module StarField.

Record PerformanceOptimizations : Type := mkPerf {
  autoOptimize : bool;
  minStarCount : Q;
  reductionStep : Q;
  recoveryDelay : Q;
  lastOptimization : Q;
  lastRecovery : Q
}.

Record RenderingOptimizations : Type := mkRend {
  frustumCulling : bool;
  batchRendering : bool;
  maxBatchSize : Q;
  skipFrames : Q;
  frameSkipCounter : Q
}.

(** [randomCalls] counts the calls of [Math.random()] made so far; it is
    the only field that is not a field of the source object.  The
    animation-loop fields, the legacy FPS counter and the memory
    management record are not modelled. *)
Record t : Type := mk {
  stars : list Star.t;
  starCount : JS.number;
  originalStarCount : JS.number;
  speed : JS.number;
  camera : Camera.t;
  renderer : Renderer.t;
  performanceMonitor : PerformanceMonitor.t;
  performanceOptimizations : PerformanceOptimizations;
  renderingOptimizations : RenderingOptimizations;
  canvasWidth : Q;
  canvasHeight : Q;
  randomCalls : nat
}.

Definition set_stars (l : list Star.t) (k : nat) (sf : t) : t :=
  mk l (starCount sf) (originalStarCount sf) (speed sf) (camera sf) (renderer sf)
     (performanceMonitor sf) (performanceOptimizations sf)
     (renderingOptimizations sf) (canvasWidth sf) (canvasHeight sf) k.

Definition set_starCount (n : JS.number) (sf : t) : t :=
  mk (stars sf) n (originalStarCount sf) (speed sf) (camera sf) (renderer sf)
     (performanceMonitor sf) (performanceOptimizations sf)
     (renderingOptimizations sf) (canvasWidth sf) (canvasHeight sf) (randomCalls sf).

Definition set_speed (v : JS.number) (sf : t) : t :=
  mk (stars sf) (starCount sf) (originalStarCount sf) v (camera sf) (renderer sf)
     (performanceMonitor sf) (performanceOptimizations sf)
     (renderingOptimizations sf) (canvasWidth sf) (canvasHeight sf) (randomCalls sf).

Definition set_renderer (rd : Renderer.t) (sf : t) : t :=
  mk (stars sf) (starCount sf) (originalStarCount sf) (speed sf) (camera sf) rd
     (performanceMonitor sf) (performanceOptimizations sf)
     (renderingOptimizations sf) (canvasWidth sf) (canvasHeight sf) (randomCalls sf).

Definition set_performanceMonitor (pm : PerformanceMonitor.t) (sf : t) : t :=
  mk (stars sf) (starCount sf) (originalStarCount sf) (speed sf) (camera sf)
     (renderer sf) pm (performanceOptimizations sf)
     (renderingOptimizations sf) (canvasWidth sf) (canvasHeight sf) (randomCalls sf).

Definition set_performanceOptimizations (po : PerformanceOptimizations) (sf : t) : t :=
  mk (stars sf) (starCount sf) (originalStarCount sf) (speed sf) (camera sf)
     (renderer sf) (performanceMonitor sf) po
     (renderingOptimizations sf) (canvasWidth sf) (canvasHeight sf) (randomCalls sf).

Definition set_renderingOptimizations (ro : RenderingOptimizations) (sf : t) : t :=
  mk (stars sf) (starCount sf) (originalStarCount sf) (speed sf) (camera sf)
     (renderer sf) (performanceMonitor sf) (performanceOptimizations sf)
     ro (canvasWidth sf) (canvasHeight sf) (randomCalls sf).

Definition set_skipFrames (n : Q) (sf : t) : t :=
  let ro := renderingOptimizations sf in
  set_renderingOptimizations
    (mkRend (frustumCulling ro) (batchRendering ro) (maxBatchSize ro) n
            (frameSkipCounter ro)) sf.

Definition set_lastOptimization (now : Q) (sf : t) : t :=
  let po := performanceOptimizations sf in
  set_performanceOptimizations
    (mkPerf (autoOptimize po) (minStarCount po) (reductionStep po)
            (recoveryDelay po) now (lastRecovery po)) sf.

Definition set_lastRecovery (now : Q) (sf : t) : t :=
  let po := performanceOptimizations sf in
  set_performanceOptimizations
    (mkPerf (autoOptimize po) (minStarCount po) (reductionStep po)
            (recoveryDelay po) (lastOptimization po) now) sf.

(** [createRandomStar()]: the k-th to (k+3)-th calls of [Math.random()]. *)
Definition createRandomStar `{Host} (k : nat) : Star.t * nat :=
  let range := 500 in
  let x := (Math_random k - (1 # 2)) * range * 2 in
  let y := (Math_random (S k) - (1 # 2)) * range * 2 in
  let z := Math_random (S (S k)) * 1000 in
  Star.new (S (S (S k))) x y z.

(** [this.stars.push(this.createRandomStar())]. *)
Definition pushRandomStar `{Host} (sf : t) : t :=
  let (star, k) := createRandomStar (randomCalls sf) in
  set_stars (stars sf ++ [star]) k sf.

Definition initialize `{Host} (sf : t) : t :=
  JS.for_loop (JS.Num 0) (starCount sf) pushRandomStar
              (set_stars [] (randomCalls sf) sf).

(** [new StarField(canvas, starCount)] for a canvas of the given size. *)
Definition new `{Host} (width height : Q) (starCount0 : JS.number) : t :=
  initialize
    (mk [] starCount0 starCount0 (JS.Num 1)
        (Camera.updateAspectRatio width height
           (Camera.new 75 (width / height) (1 # 10) 1000))
        Renderer.new
        PerformanceMonitor.new
        (mkPerf true 100 (1 # 4) 5000 0 0)
        (mkRend true true 100 0 0)
        width height O).

Definition getStarCount (sf : t) : JS.number := starCount sf.

Definition getSpeed (sf : t) : JS.number := speed sf.

Definition setStarCount `{Host} (count : JS.number) (sf : t) : t :=
  let newCount :=
    JS.Math_max (JS.Num 1) (JS.Math_min (JS.Num 5000) (JS.Math_floor count)) in
  if JS.strict_eq newCount (starCount sf) then sf
  else
    let oldCount := starCount sf in
    let sf1 := set_starCount newCount sf in
    if JS.gt newCount oldCount then
      JS.for_loop oldCount newCount pushRandomStar sf1
    else
      set_stars (JS.splice newCount (stars sf1)) (randomCalls sf1) sf1.

Definition setSpeed (speed0 : JS.number) (sf : t) : t :=
  set_speed (JS.Math_max (JS.Num (1 # 10)) (JS.Math_min (JS.Num 5) speed0)) sf.

Definition setGlowEnabled (enabled : bool) (sf : t) : t :=
  set_renderer (Renderer.setGlowEnabled enabled (renderer sf)) sf.

Definition setTrailsEnabled (enabled : bool) (sf : t) : t :=
  set_renderer (Renderer.setTrailsEnabled enabled (renderer sf)) sf.

(** [handleLowPerformance(data)], called at time [now]. *)
Definition handleLowPerformance `{Host} (data : PerformanceMonitor.Data) (now : Q)
  (sf : t) : t :=
  if Math.ltb (now - lastOptimization (performanceOptimizations sf)) 2000 then sf
  else
    let currentCount := getStarCount sf in
    let minCount := JS.Num (minStarCount (performanceOptimizations sf)) in
    let sf1 :=
      if JS.gt currentCount minCount then
        let reductionAmount :=
          JS.Math_max
            (JS.Math_floor
               (JS.mul currentCount
                       (JS.Num (reductionStep (performanceOptimizations sf)))))
            (JS.Num 1) in
        let newCount := JS.Math_max minCount (JS.sub currentCount reductionAmount) in
        setStarCount newCount sf
      else sf in
    let sf2 :=
      if Math.ltb (PerformanceMonitor.data_fps data) 20 then
        set_skipFrames 1 (setTrailsEnabled false (setGlowEnabled false sf1))
      else sf1 in
    set_lastOptimization now sf2.

(** [handleGoodPerformance(data)], called at time [now]. *)
Definition handleGoodPerformance `{Host} (data : PerformanceMonitor.Data) (now : Q)
  (sf : t) : t :=
  if Math.ltb (now - lastRecovery (performanceOptimizations sf))
              (recoveryDelay (performanceOptimizations sf)) then sf
  else
    let currentCount := getStarCount sf in
    let originalCount := originalStarCount sf in
    let sf2 :=
      if JS.lt currentCount originalCount
         && Math.ltb 50 (PerformanceMonitor.data_fps data) then
        let recoveryAmount :=
          JS.Math_min (JS.Math_floor (JS.mul originalCount (JS.Num (1 # 10))))
                      (JS.sub originalCount currentCount) in
        let sf1 :=
          if JS.gt recoveryAmount (JS.Num 0) then
            setStarCount (JS.add currentCount recoveryAmount) sf
          else sf in
        if negb (Renderer.enableGlow (Renderer.getConfig (renderer sf1))) then
          set_skipFrames 0 (setTrailsEnabled true (setGlowEnabled true sf1))
        else sf1
      else sf in
    set_lastRecovery now sf2.

(** The two callbacks installed by [setupPerformanceCallbacks()], applied
    to what the monitor reported. *)
Definition performanceCallback `{Host} (n : option PerformanceMonitor.Notification)
  (now : Q) (sf : t) : t :=
  match n with
  | Some (PerformanceMonitor.LowPerformance data) =>
      if autoOptimize (performanceOptimizations sf)
      then handleLowPerformance data now sf else sf
  | Some (PerformanceMonitor.GoodPerformance data) =>
      if autoOptimize (performanceOptimizations sf)
      then handleGoodPerformance data now sf else sf
  | None => sf
  end.

(** The step [this.performanceMonitor.update(currentTime)] of [update]:
    the monitor is updated and its callback, if it invokes one, runs at
    time [now]. *)
Definition updatePerformanceMonitor `{Host} (currentTime now : Q) (sf : t) : t :=
  let (pm, n) := PerformanceMonitor.update currentTime (performanceMonitor sf) in
  performanceCallback n now (set_performanceMonitor pm sf).

Definition shouldSkipFrame (sf : t) : bool * t :=
  let ro := renderingOptimizations sf in
  if Qle_bool (skipFrames ro) 0 then (false, sf)
  else
    let counter := frameSkipCounter ro + 1 in
    if Math.ltb (skipFrames ro) counter then
      (false,
       set_renderingOptimizations
         (mkRend (frustumCulling ro) (batchRendering ro) (maxBatchSize ro)
                 (skipFrames ro) 0) sf)
    else
      (true,
       set_renderingOptimizations
         (mkRend (frustumCulling ro) (batchRendering ro) (maxBatchSize ro)
                 (skipFrames ro) counter) sf).

Definition setAutoOptimization (enabled : bool) (sf : t) : t :=
  let po := performanceOptimizations sf in
  set_performanceOptimizations
    (mkPerf enabled (minStarCount po) (reductionStep po) (recoveryDelay po)
            (lastOptimization po) (lastRecovery po)) sf.

Definition set_camera (c : Camera.t) (sf : t) : t :=
  mk (stars sf) (starCount sf) (originalStarCount sf) (speed sf) c (renderer sf)
     (performanceMonitor sf) (performanceOptimizations sf)
     (renderingOptimizations sf) (canvasWidth sf) (canvasHeight sf) (randomCalls sf).

Definition setRotation (rotX rotY : Q) (sf : t) : t :=
  set_camera (Camera.setRotation rotX rotY (camera sf)) sf.

(** [setColorScheme(scheme)], called at time [now]; the renderer's
    [smooth] argument takes its default, [true]. *)
Definition setColorScheme (scheme : string) (now : Q) (sf : t) : t :=
  set_renderer (Renderer.setColorScheme scheme true now (renderer sf)) sf.

(** [for (i ...) this.stars[i].reset()], from the k-th call of
    [Math.random()] on. *)
Fixpoint resetEach `{Host} (k : nat) (l : list Star.t) : list Star.t * nat :=
  match l with
  | [] => ([], k)
  | star :: rest =>
      let (star1, k1) := Star.reset k star in
      let (rest1, k2) := resetEach k1 rest in
      (star1 :: rest1, k2)
  end.

Definition resetStars `{Host} (sf : t) : t :=
  let (l, k) := resetEach (randomCalls sf) (stars sf) in
  set_stars l k sf.

(** [for (i ...) this.stars[i].update(this.speed, deltaTime)]. *)
Fixpoint updateEach `{Host} (k : nat) (speed0 deltaTime : Q) (l : list Star.t)
  : list Star.t * nat :=
  match l with
  | [] => ([], k)
  | star :: rest =>
      let (star1, k1) := Star.update k speed0 deltaTime star in
      let (rest1, k2) := updateEach k1 speed0 deltaTime rest in
      (star1 :: rest1, k2)
  end.

(** The end of [update(currentTime)], after the performance monitor and
    the memory management: a skipped frame returns, any other frame
    updates every star.  [speed0] is the finite value of [this.speed]
    and [deltaTime] the frame's delta in seconds. *)
Definition updateStars `{Host} (speed0 deltaTime : Q) (sf : t) : t :=
  let (skip, sf1) := shouldSkipFrame sf in
  if skip then sf1
  else
    let (l, k) := updateEach (randomCalls sf1) speed0 deltaTime (stars sf1) in
    set_stars l k sf1.

Record FrustumBounds : Type := mkBounds {
  left : Q;
  right : Q;
  top : Q;
  bottom : Q;
  near : Q;
  far : Q
}.

Definition calculateFrustumBounds (sf : t) : FrustumBounds :=
  let halfWidth := canvasWidth sf / 2 in
  let halfHeight := canvasHeight sf / 2 in
  mkBounds (- halfWidth - 100) (halfWidth + 100)
           (- halfHeight - 100) (halfHeight + 100)
           (Camera.near (camera sf)) (Camera.far (camera sf)).

(** At [z = -1] the scale [1000 / (z + 1)] is infinite and the scaled
    coordinates are infinite or [NaN]: none of them is within finite
    bounds. *)
Definition isStarInFrustum (star : Star.t) (bounds : FrustumBounds) : bool :=
  if Math.ltb (Star.z star) (near bounds) || Math.ltb (far bounds) (Star.z star)
  then false
  else if Qeq_bool (Star.z star + 1) 0 then false
  else
    let scale := 1000 / (Star.z star + 1) in
    let scaledX := Star.x star * scale in
    let scaledY := Star.y star * scale in
    Qle_bool (left bounds) scaledX && Qle_bool scaledX (right bounds)
    && Qle_bool (top bounds) scaledY && Qle_bool scaledY (bottom bounds).

(** The body of the loop of [getVisibleStars]: the array after the
    star has been looked at. *)
Definition pushIfVisible `{Host} (sf : t) (visibleStars : list Renderer.StarData)
  (star : Star.t) : list Renderer.StarData :=
  let frustumCulling0 := frustumCulling (renderingOptimizations sf) in
  if negb (Star.isVisible star) then visibleStars
  else if frustumCulling0 && negb (isStarInFrustum star (calculateFrustumBounds sf))
  then visibleStars
  else
    match Star.getScreenPosition star (Some (camera sf)) with
    | Some screenPos =>
        if Qle_bool (-50) (Camera.px screenPos)
           && Qle_bool (Camera.px screenPos) (canvasWidth sf + 50)
           && Qle_bool (-50) (Camera.py screenPos)
           && Qle_bool (Camera.py screenPos) (canvasHeight sf + 50)
        then visibleStars
             ++ [Renderer.mkStarData star screenPos (Star.getBrightness star)
                                     (Star.getSize 2 star)]
        else visibleStars
    | None => visibleStars
    end.

Definition getVisibleStars `{Host} (sf : t) : list Renderer.StarData :=
  fold_left (pushIfVisible sf) (stars sf) [].

(** Successive frames of the monitored field: each frame is the
    timestamp given to [update] and the time at which a callback
    runs. *)
Definition frames `{Host} (fs : list (Q * Q)) (sf : t) : t :=
  fold_left (fun s f => updatePerformanceMonitor (fst f) (snd f) s) fs sf.

Definition set_frameSkipCounter (counter : Q) (sf : t) : t :=
  let ro := renderingOptimizations sf in
  set_renderingOptimizations
    (mkRend (frustumCulling ro) (batchRendering ro) (maxBatchSize ro)
            (skipFrames ro) counter) sf.

(** Consecutive calls of [shouldSkipFrame]: the answers, in order, and
    the field afterwards. *)
Fixpoint skipAnswers (calls : nat) (sf : t) : list bool * t :=
  match calls with
  | O => ([], sf)
  | S calls' =>
      let (skip, sf1) := shouldSkipFrame sf in
      let (rest, sf2) := skipAnswers calls' sf1 in
      (skip :: rest, sf2)
  end.

End StarField.

(** ** InputHandler (pointer drags to a bounded rotation target) *)

Module InputHandler.

(** The [options] argument of the constructor; [None] is an absent
    option. *)
Record Options : Type := mkOptions {
  opt_sensitivity : option Q;
  opt_smoothing : option Q;
  opt_maxRotation : option Q;
  opt_invertY : option bool;
  opt_touchSensitivity : option Q
}.

Record t : Type := mk {
  sensitivity : Q;
  smoothing : Q;
  maxRotation : Q;
  invertY : bool;
  touchSensitivity : Q;
  currentRotationX : Q;
  currentRotationY : Q;
  targetRotationX : Q;
  targetRotationY : Q;
  isMouseDown : bool;
  lastMouseX : Q;
  lastMouseY : Q;
  mouseX : Q;
  mouseY : Q;
  isTouchActive : bool;
  lastTouchX : Q;
  lastTouchY : Q;
  touchX : Q;
  touchY : Q;
  multiTouchActive : bool;
  isUpdating : bool
}.

(** [option || fallback] on a number: 0 is falsy. *)
Definition orDefault (o : option Q) (fallback : Q) : Q :=
  match o with
  | Some q => if Qeq_bool q 0 then fallback else q
  | None => fallback
  end.

Definition orFalse (o : option bool) : bool :=
  match o with Some v => v | None => false end.

(** [new InputHandler(canvas, rotationCallback, options)]. *)
Definition new (options : Options) : t :=
  mk (orDefault (opt_sensitivity options) (3 # 1000))
     (orDefault (opt_smoothing options) (1 # 10))
     (orDefault (opt_maxRotation options) (Math.PI / 2))
     (orFalse (opt_invertY options))
     (orDefault (opt_touchSensitivity options) (2 # 1000))
     0 0 0 0
     false 0 0 0 0
     false 0 0 0 0 false
     true.

Definition set_target (rx ry : Q) (h : t) : t :=
  mk (sensitivity h) (smoothing h) (maxRotation h) (invertY h) (touchSensitivity h)
     (currentRotationX h) (currentRotationY h) rx ry
     (isMouseDown h) (lastMouseX h) (lastMouseY h) (mouseX h) (mouseY h)
     (isTouchActive h) (lastTouchX h) (lastTouchY h) (touchX h) (touchY h)
     (multiTouchActive h) (isUpdating h).

Definition set_current (rx ry : Q) (h : t) : t :=
  mk (sensitivity h) (smoothing h) (maxRotation h) (invertY h) (touchSensitivity h)
     rx ry (targetRotationX h) (targetRotationY h)
     (isMouseDown h) (lastMouseX h) (lastMouseY h) (mouseX h) (mouseY h)
     (isTouchActive h) (lastTouchX h) (lastTouchY h) (touchX h) (touchY h)
     (multiTouchActive h) (isUpdating h).

Definition set_mouse (x y : Q) (h : t) : t :=
  mk (sensitivity h) (smoothing h) (maxRotation h) (invertY h) (touchSensitivity h)
     (currentRotationX h) (currentRotationY h) (targetRotationX h) (targetRotationY h)
     (isMouseDown h) (lastMouseX h) (lastMouseY h) x y
     (isTouchActive h) (lastTouchX h) (lastTouchY h) (touchX h) (touchY h)
     (multiTouchActive h) (isUpdating h).

Definition set_lastMouse (x y : Q) (h : t) : t :=
  mk (sensitivity h) (smoothing h) (maxRotation h) (invertY h) (touchSensitivity h)
     (currentRotationX h) (currentRotationY h) (targetRotationX h) (targetRotationY h)
     (isMouseDown h) x y (mouseX h) (mouseY h)
     (isTouchActive h) (lastTouchX h) (lastTouchY h) (touchX h) (touchY h)
     (multiTouchActive h) (isUpdating h).

Definition set_isMouseDown (down : bool) (h : t) : t :=
  mk (sensitivity h) (smoothing h) (maxRotation h) (invertY h) (touchSensitivity h)
     (currentRotationX h) (currentRotationY h) (targetRotationX h) (targetRotationY h)
     down (lastMouseX h) (lastMouseY h) (mouseX h) (mouseY h)
     (isTouchActive h) (lastTouchX h) (lastTouchY h) (touchX h) (touchY h)
     (multiTouchActive h) (isUpdating h).

Definition set_touch (x y : Q) (h : t) : t :=
  mk (sensitivity h) (smoothing h) (maxRotation h) (invertY h) (touchSensitivity h)
     (currentRotationX h) (currentRotationY h) (targetRotationX h) (targetRotationY h)
     (isMouseDown h) (lastMouseX h) (lastMouseY h) (mouseX h) (mouseY h)
     (isTouchActive h) (lastTouchX h) (lastTouchY h) x y
     (multiTouchActive h) (isUpdating h).

Definition set_lastTouch (x y : Q) (h : t) : t :=
  mk (sensitivity h) (smoothing h) (maxRotation h) (invertY h) (touchSensitivity h)
     (currentRotationX h) (currentRotationY h) (targetRotationX h) (targetRotationY h)
     (isMouseDown h) (lastMouseX h) (lastMouseY h) (mouseX h) (mouseY h)
     (isTouchActive h) x y (touchX h) (touchY h)
     (multiTouchActive h) (isUpdating h).

Definition set_touchFlags (active multi : bool) (h : t) : t :=
  mk (sensitivity h) (smoothing h) (maxRotation h) (invertY h) (touchSensitivity h)
     (currentRotationX h) (currentRotationY h) (targetRotationX h) (targetRotationY h)
     (isMouseDown h) (lastMouseX h) (lastMouseY h) (mouseX h) (mouseY h)
     active (lastTouchX h) (lastTouchY h) (touchX h) (touchY h)
     multi (isUpdating h).

(** [while (t > Math.PI) t -= 2 * Math.PI], at most [fuel] iterations. *)
Fixpoint wrapAbove (fuel : nat) (rot : Q) : Q :=
  match fuel with
  | O => rot
  | S fuel' =>
      if Math.ltb Math.PI rot then wrapAbove fuel' (rot - 2 * Math.PI) else rot
  end.

(** [while (t < -Math.PI) t += 2 * Math.PI], at most [fuel] iterations. *)
Fixpoint wrapBelow (fuel : nat) (rot : Q) : Q :=
  match fuel with
  | O => rot
  | S fuel' =>
      if Math.ltb rot (- Math.PI) then wrapBelow fuel' (rot + 2 * Math.PI) else rot
  end.

(** A number of iterations after which either loop has ended (see
    [wrapAbove_ends] and [wrapBelow_ends]). *)
Definition turns (rot : Q) : nat :=
  Z.to_nat (Qceiling (Qabs rot / (2 * Math.PI))).

Definition applyRotationBounds (h : t) : t :=
  let rx := Math.max (- maxRotation h) (Math.min (maxRotation h) (targetRotationX h)) in
  let ry1 := wrapAbove (turns (targetRotationY h)) (targetRotationY h) in
  let ry2 := wrapBelow (turns ry1) ry1 in
  set_target rx ry2 h.

(** A pointer position [{clientX, clientY}] and the canvas rectangle's
    corner [{left, top}] at the time of the event. *)
Record Pointer : Type := mkPointer { clientX : Q; clientY : Q }.

Record Rect : Type := mkRect { left : Q; top : Q }.

Definition handleMouseMove (event : Pointer) (rect : Rect) (h : t) : t :=
  let h1 := set_mouse (clientX event - left rect) (clientY event - top rect) h in
  let h2 :=
    if isMouseDown h1 then
      let deltaX := mouseX h1 - lastMouseX h1 in
      let deltaY := mouseY h1 - lastMouseY h1 in
      let rotationDeltaY := deltaX * sensitivity h1 in
      let rotationDeltaX :=
        deltaY * sensitivity h1 * (if invertY h1 then -1 else 1) in
      applyRotationBounds
        (set_target (targetRotationX h1 + rotationDeltaX)
                    (targetRotationY h1 + rotationDeltaY) h1)
    else h1 in
  set_lastMouse (mouseX h2) (mouseY h2) h2.

Definition handleMouseDown (h : t) : t := set_isMouseDown true h.

Definition handleMouseUp (h : t) : t := set_isMouseDown false h.

Definition handleMouseLeave (h : t) : t := set_isMouseDown false h.

Definition handleTouchStart (touches : list Pointer) (rect : Rect) (h : t) : t :=
  match touches with
  | [touch] =>
      let h1 := set_touchFlags true false h in
      let h2 := set_touch (clientX touch - left rect) (clientY touch - top rect) h1 in
      set_lastTouch (touchX h2) (touchY h2) h2
  | _ :: _ :: _ => set_touchFlags false true h
  | [] => h
  end.

Definition handleTouchMove (touches : list Pointer) (rect : Rect) (h : t) : t :=
  match touches with
  | [touch] =>
      if isTouchActive h && negb (multiTouchActive h) then
        let h1 := set_touch (clientX touch - left rect) (clientY touch - top rect) h in
        let deltaX := touchX h1 - lastTouchX h1 in
        let deltaY := touchY h1 - lastTouchY h1 in
        let rotationDeltaY := deltaX * touchSensitivity h1 in
        let rotationDeltaX :=
          deltaY * touchSensitivity h1 * (if invertY h1 then -1 else 1) in
        let h2 :=
          applyRotationBounds
            (set_target (targetRotationX h1 + rotationDeltaX)
                        (targetRotationY h1 + rotationDeltaY) h1) in
        set_lastTouch (touchX h2) (touchY h2) h2
      else h
  | _ => h
  end.

Definition handleTouchEnd (touches : list Pointer) (rect : Rect) (h : t) : t :=
  match touches with
  | [] => set_touchFlags false false h
  | [touch] =>
      if multiTouchActive h then
        let h1 := set_touchFlags true false h in
        let h2 := set_touch (clientX touch - left rect) (clientY touch - top rect) h1 in
        set_lastTouch (touchX h2) (touchY h2) h2
      else h
  | _ => h
  end.

Definition handleTouchCancel (h : t) : t := set_touchFlags false false h.

(** One step of the smoothing loop [update()]. *)
Definition update (h : t) : t :=
  if negb (isUpdating h) then h
  else
    let deltaX := targetRotationX h - currentRotationX h in
    let deltaY := targetRotationY h - currentRotationY h in
    set_current (currentRotationX h + deltaX * smoothing h)
                (currentRotationY h + deltaY * smoothing h) h.

Definition reset (h : t) : t := set_target 0 0 (set_current 0 0 h).

(** The pointer events the handler listens to, and the animation frame
    that drives [update]. *)
Inductive Event : Type :=
| MouseMove (event : Pointer) (rect : Rect)
| MouseDown
| MouseUp
| MouseLeave
| TouchStart (touches : list Pointer) (rect : Rect)
| TouchMove (touches : list Pointer) (rect : Rect)
| TouchEnd (touches : list Pointer) (rect : Rect)
| TouchCancel
| AnimationFrame.

Definition handle (h : t) (e : Event) : t :=
  match e with
  | MouseMove event rect => handleMouseMove event rect h
  | MouseDown => handleMouseDown h
  | MouseUp => handleMouseUp h
  | MouseLeave => handleMouseLeave h
  | TouchStart touches rect => handleTouchStart touches rect h
  | TouchMove touches rect => handleTouchMove touches rect h
  | TouchEnd touches rect => handleTouchEnd touches rect h
  | TouchCancel => handleTouchCancel h
  | AnimationFrame => update h
  end.

Definition run (events : list Event) (h : t) : t := fold_left handle events h.

Definition set_settings (sensitivity0 smoothing0 maxRotation0 : Q) (invertY0 : bool)
  (touchSensitivity0 : Q) (h : t) : t :=
  mk sensitivity0 smoothing0 maxRotation0 invertY0 touchSensitivity0
     (currentRotationX h) (currentRotationY h) (targetRotationX h) (targetRotationY h)
     (isMouseDown h) (lastMouseX h) (lastMouseY h) (mouseX h) (mouseY h)
     (isTouchActive h) (lastTouchX h) (lastTouchY h) (touchX h) (touchY h)
     (multiTouchActive h) (isUpdating h).

Definition setSensitivity (sensitivity0 : Q) (h : t) : t :=
  set_settings (Math.max (1 # 1000) (Math.min (1 # 100) sensitivity0))
               (smoothing h) (maxRotation h) (invertY h) (touchSensitivity h) h.

Definition setSmoothing (smoothing0 : Q) (h : t) : t :=
  set_settings (sensitivity h) (Math.max (1 # 100) (Math.min 1 smoothing0))
               (maxRotation h) (invertY h) (touchSensitivity h) h.

Definition setMaxRotation (maxRotation0 : Q) (h : t) : t :=
  set_settings (sensitivity h) (smoothing h)
               (Math.max 0 (Math.min Math.PI maxRotation0))
               (invertY h) (touchSensitivity h) h.

Definition setTouchSensitivity (sensitivity0 : Q) (h : t) : t :=
  set_settings (sensitivity h) (smoothing h) (maxRotation h) (invertY h)
               (Math.max (5 # 10000) (Math.min (5 # 1000) sensitivity0)) h.

Definition set_isUpdating (updating : bool) (h : t) : t :=
  mk (sensitivity h) (smoothing h) (maxRotation h) (invertY h) (touchSensitivity h)
     (currentRotationX h) (currentRotationY h) (targetRotationX h) (targetRotationY h)
     (isMouseDown h) (lastMouseX h) (lastMouseY h) (mouseX h) (mouseY h)
     (isTouchActive h) (lastTouchX h) (lastTouchY h) (touchX h) (touchY h)
     (multiTouchActive h) updating.

(** [stopUpdateLoop()]; the pending animation frame is cancelled, so
    no [update] follows. *)
Definition stopUpdateLoop (h : t) : t := set_isUpdating false h.

End InputHandler.

(** ** ConfigPanel (validation of the user's input) *)

Module ConfigPanel.

Record Config : Type := mkConfig {
  starCount : JS.number;
  speed : JS.number;
  colorScheme : string;
  mouseRotation : bool;
  trailEffect : bool
}.

(** The panel with the star field it controls. *)
Record t : Type := mk {
  starField : StarField.t;
  config : Config
}.

Definition validateStarCount (count : JS.number) (p : t) : JS.number :=
  let min := JS.Num 100 in
  let max := JS.Num 5000 in
  if JS.isNaN count then starCount (config p)
  else JS.Math_max min (JS.Math_min max (JS.Math_floor count)).

(** [parseFloat(speed.toFixed(1))]: the nearest multiple of one tenth,
    the larger magnitude on a tie, with the sign of [speed]. *)
Definition toFixed1 (q : Q) : Q :=
  if Math.ltb q 0 then - (inject_Z (Qfloor ((- q) * 10 + (1 # 2))) / 10)
  else inject_Z (Qfloor (q * 10 + (1 # 2))) / 10.

Definition validateSpeed (speed0 : JS.number) (p : t) : JS.number :=
  let min := JS.Num (1 # 10) in
  let max := JS.Num 5 in
  match speed0 with
  | JS.NaN => speed (config p)
  | JS.Num q => JS.Math_max min (JS.Math_min max (JS.Num (toFixed1 q)))
  end.

Definition handleStarCountChange `{Host} (count : JS.number) (p : t) : t :=
  let validCount := validateStarCount count p in
  if negb (JS.strict_eq validCount (starCount (config p))) then
    let c := config p in
    mk (StarField.setStarCount validCount (starField p))
       (mkConfig validCount (speed c) (colorScheme c) (mouseRotation c)
                 (trailEffect c))
  else p.

Definition handleSpeedChange (speed0 : JS.number) (p : t) : t :=
  let validSpeed := validateSpeed speed0 p in
  if negb (JS.strict_eq validSpeed (speed (config p))) then
    let c := config p in
    mk (StarField.setSpeed validSpeed (starField p))
       (mkConfig (starCount c) validSpeed (colorScheme c) (mouseRotation c)
                 (trailEffect c))
  else p.

(** [new ConfigPanel(starField, inputHandler)]. *)
Definition new (sf : StarField.t) : t :=
  mk sf (mkConfig (JS.Num 1000) (JS.Num 1) "white" true true).

Definition validSchemes : list string :=
  [ "white"%string; "blue-white"%string; "warm"%string; "cool"%string;
    "rainbow"%string; "nebula"%string ].

(** [validSchemes.includes(scheme)]. *)
Definition validateColorScheme (scheme : string) : bool :=
  existsb (String.eqb scheme) validSchemes.

(** [handleColorSchemeChange(scheme)], at time [now]. *)
Definition handleColorSchemeChange (scheme : string) (now : Q) (p : t) : t :=
  if validateColorScheme scheme then
    let c := config p in
    mk (StarField.setColorScheme scheme now (starField p))
       (mkConfig (starCount c) (speed c) scheme (mouseRotation c) (trailEffect c))
  else p.

End ConfigPanel.

(** ** StarFieldApp (the application around the star field) *)

Module StarFieldApp.

(** The application with its star field and its input handler.  The
    performance monitor is the star field's
    ([this.starField.getPerformanceMonitor()]). *)
Record t : Type := mk {
  starField : StarField.t;
  inputHandler : InputHandler.t;
  isMobile : bool
}.

(** The rotation callback given to the input handler:
    [(rotX, rotY) => this.starField.setRotation(rotX, rotY)]. *)
Definition rotationCallback (rotX rotY : Q) (app : t) : t :=
  mk (StarField.setRotation rotX rotY (starField app)) (inputHandler app) (isMobile app).

(** An event of the input handler, in the application: the handler
    takes it, and an animation frame on which the handler's [update]
    runs calls the rotation callback with the smoothed rotation. *)
Definition handle (app : t) (e : InputHandler.Event) : t :=
  let h := InputHandler.handle (inputHandler app) e in
  let app1 := mk (starField app) h (isMobile app) in
  match e with
  | InputHandler.AnimationFrame =>
      if InputHandler.isUpdating (inputHandler app)
      then rotationCallback (InputHandler.currentRotationX h)
                            (InputHandler.currentRotationY h) app1
      else app1
  | _ => app1
  end.

Definition run (events : list InputHandler.Event) (app : t) : t :=
  fold_left handle events app.

(** [this.inputHandler.startUpdateLoop()]: a stopped loop is marked as
    updating and runs [update] at once, which calls the rotation
    callback. *)
Definition startUpdateLoop (app : t) : t :=
  if negb (InputHandler.isUpdating (inputHandler app))
  then handle (mk (starField app)
                  (InputHandler.set_isUpdating true (inputHandler app))
                  (isMobile app))
              InputHandler.AnimationFrame
  else app.

(** [ConfigPanel.handleMouseRotationChange(enabled)]: [panel] is the
    panel's configuration; the input handler it starts or stops is the
    application's. *)
Definition handleMouseRotationChange (enabled : bool) (panel : ConfigPanel.Config)
  (app : t) : ConfigPanel.Config * t :=
  let panel1 :=
    ConfigPanel.mkConfig (ConfigPanel.starCount panel) (ConfigPanel.speed panel)
                         (ConfigPanel.colorScheme panel) enabled
                         (ConfigPanel.trailEffect panel) in
  if enabled then (panel1, startUpdateLoop app)
  else
    (panel1,
     mk (starField app)
        (InputHandler.stopUpdateLoop (InputHandler.reset (inputHandler app)))
        (isMobile app)).

(** The renderer settings of [handleLowPerformance] on a mobile
    device. *)
Definition mobileLowPerformanceConfig : Renderer.ConfigUpdate :=
  Renderer.mkConfigUpdate None None None (Some (1 # 2)) None None None
                          (Some false) (Some true) (Some 25).

(** [handleLowPerformance(data)], the callback that
    [setupEventListeners] gives to the monitor in place of the star
    field's own. *)
Definition handleLowPerformance `{Host} (data : PerformanceMonitor.Data) (app : t) : t :=
  let currentStarCount := StarField.getStarCount (starField app) in
  let newStarCount :=
    JS.Math_max (JS.Num 100)
                (JS.Math_floor (JS.mul currentStarCount (JS.Num (3 # 4)))) in
  let sf1 :=
    if JS.lt newStarCount currentStarCount
    then StarField.setStarCount newStarCount (starField app)
    else starField app in
  let sf2 :=
    if isMobile app then
      StarField.set_renderer
        (Renderer.updateConfig mobileLowPerformanceConfig (StarField.renderer sf1)) sf1
    else sf1 in
  mk sf2 (inputHandler app) (isMobile app).

End StarFieldApp.

(** ** Specification vocabulary *)

(** The stored star count is the integer [c], and the collection holds
    exactly [c] stars. *)
Definition consistent (sf : StarField.t) (c : Z) : Prop :=
  StarField.starCount sf = JS.Num (inject_Z c) /\
  length (StarField.stars sf) = Z.to_nat c /\
  (0 <= c)%Z.



(** The rotation target is within its bounds: the vertical target in
    [[-maxRotation, maxRotation]], the horizontal one in [[-pi, pi]]. *)
Definition bounded (h : InputHandler.t) : Prop :=
  - InputHandler.maxRotation h <= InputHandler.targetRotationX h /\
  InputHandler.targetRotationX h <= InputHandler.maxRotation h /\
  - Math.PI <= InputHandler.targetRotationY h /\
  InputHandler.targetRotationY h <= Math.PI.

(** The host's random numbers are in [[0, 1)], as [Math.random()]
    promises. *)
Definition unitRandom `{Host} : Prop :=
  forall k : nat, 0 <= Math_random k /\ Math_random k < 1.

(** A star as the star field creates and keeps it: [x] and [y] in
    [[-500, 500)], [z] in [[0, 1000]], the previous position equal to the
    position, the speed multiplier in [[0.5, 1]] (the source's own
    comment gives 0.5 to 1.0; the upper end is included because the sum
    [Math.random() * 0.5 + 0.5] of doubles can round up to 1), and the
    constructor's distance bounds 1 and 1000. *)
Definition placed (s : Star.t) : Prop :=
  (-500 <= Star.x s /\ Star.x s < 500) /\
  (-500 <= Star.y s /\ Star.y s < 500) /\
  (0 <= Star.z s /\ Star.z s <= 1000) /\
  (Star.prevX s = Star.x s /\ Star.prevY s = Star.y s) /\
  ((1 # 2) <= Star.speed s /\ Star.speed s <= 1) /\
  (Star.minDistance s = 1 /\ Star.maxDistance s = 1000).

(** A record that [getVisibleStars] may hand to the renderer: it is
    made from a star of the field that is visible, its screen position
    is the camera's projection of that star, in front of the camera and
    no more than 50 pixels outside the canvas, its brightness and size
    are the star's, and with frustum culling on the star has passed
    [isStarInFrustum]. *)
Definition shown `{Host} (sf : StarField.t) (sd : Renderer.StarData) : Prop :=
  let s := Renderer.star sd in
  let pos := Renderer.screenPos sd in
  In s (StarField.stars sf) /\
  Star.isVisible s = true /\
  Camera.project3DTo2D (StarField.camera sf) (Star.x s) (Star.y s) (Star.z s)
  = Some pos /\
  0 < Camera.pz pos /\
  (-50 <= Camera.px pos /\ Camera.px pos <= StarField.canvasWidth sf + 50) /\
  (-50 <= Camera.py pos /\ Camera.py pos <= StarField.canvasHeight sf + 50) /\
  Renderer.brightness sd = Star.getBrightness s /\
  Renderer.size sd = Star.getSize 2 s /\
  (StarField.frustumCulling (StarField.renderingOptimizations sf) = true ->
   StarField.isStarInFrustum s (StarField.calculateFrustumBounds sf) = true).

(** Every channel of the colour is an integer. *)
Definition integerColor (c : Renderer.Color) : Prop :=
  exists kr kg kb : Z,
    c = Renderer.mkColor (inject_Z kr) (inject_Z kg) (inject_Z kb).

(** Every channel of the colour is within [[lo, hi]]. *)
Definition channelsWithin (lo hi : Q) (c : Renderer.Color) : Prop :=
  (lo <= Renderer.r c /\ Renderer.r c <= hi) /\
  (lo <= Renderer.g c /\ Renderer.g c <= hi) /\
  (lo <= Renderer.b c /\ Renderer.b c <= hi).

(** The renderer's active scheme is an entry of [colorSchemes], and a
    transition that is under way runs between two entries of it. *)
Definition knownSchemes (rd : Renderer.t) : Prop :=
  Renderer.hasOwnProperty (Renderer.colorScheme (Renderer.config rd)) = true /\
  (Renderer.isTransitioning (Renderer.colorTransition rd) = true ->
   exists from to : string,
     Renderer.fromScheme (Renderer.colorTransition rd) = Some from /\
     Renderer.toScheme (Renderer.colorTransition rd) = Some to /\
     Renderer.hasOwnProperty from = true /\ Renderer.hasOwnProperty to = true).

(** A batch as [groupStarsForBatching] builds them: it is not empty,
    all its stars have the batch's type, and it holds one star or fewer
    than [limit + 1] stars. *)
Definition uniformBatch (rd : Renderer.t) (batch : Renderer.Batch) : Prop :=
  Renderer.stars batch <> [] /\
  (exists t : string,
     Renderer.type batch = Some t /\
     Forall (fun sd => Renderer.getStarBatchType sd = t) (Renderer.stars batch)) /\
  (length (Renderer.stars batch) = 1%nat \/
   inject_Z (Z.of_nat (length (Renderer.stars batch))) < Renderer.batchLimit rd + 1).

(** [a] is drawn before [b]: it is at least as deep. *)
Definition deeperFirst (a b : Renderer.StarData) : Prop :=
  Camera.pz (Renderer.screenPos b) <= Camera.pz (Renderer.screenPos a).

(** What auto-optimization keeps of a star field whose original count
    is [o]: the default settings ([minStarCount] 100, [reductionStep]
    0.25), [o] at most 5000, and a stored count that is the number of
    stars and lies between [min(100, o)] and [o]. *)
Definition adaptive (sf : StarField.t) (o : Z) : Prop :=
  StarField.minStarCount (StarField.performanceOptimizations sf) = 100 /\
  StarField.reductionStep (StarField.performanceOptimizations sf) = 1 # 4 /\
  StarField.originalStarCount sf = JS.Num (inject_Z o) /\
  (0 <= o <= 5000)%Z /\
  exists c : Z, consistent sf c /\ (Z.min 100 o <= c <= o)%Z.

(** The smoothed rotation, which the handler passes to the camera, is
    within the bounds of the target. *)
Definition steady (h : InputHandler.t) : Prop :=
  - InputHandler.maxRotation h <= InputHandler.currentRotationX h /\
  InputHandler.currentRotationX h <= InputHandler.maxRotation h /\
  - Math.PI <= InputHandler.currentRotationY h /\
  InputHandler.currentRotationY h <= Math.PI.

(** The events that put a pointer down: a mouse button, or touches. *)
Definition startsDrag (e : InputHandler.Event) : bool :=
  match e with
  | InputHandler.MouseDown => true
  | InputHandler.TouchStart _ _ => true
  | _ => false
  end.

(** No pointer is down, and no gesture of several touches is under
    way. *)
Definition released (h : InputHandler.t) : Prop :=
  InputHandler.isMouseDown h = false /\
  InputHandler.isTouchActive h = false /\
  InputHandler.multiTouchActive h = false.

(** The camera of the star field is turned within the handler's
    bounds. *)
Definition aimed (app : StarFieldApp.t) : Prop :=
  let c := StarField.camera (StarFieldApp.starField app) in
  let h := StarFieldApp.inputHandler app in
  (- InputHandler.maxRotation h <= Camera.rotationX c /\
   Camera.rotationX c <= InputHandler.maxRotation h) /\
  (- Math.PI <= Camera.rotationY c /\ Camera.rotationY c <= Math.PI).

(** ** Sample inputs *)

(** A host used to run the model on concrete inputs: second-order
    truncations of the cosine and sine series, and a random source that
    always returns one half. *)
Definition sampleHost : Host := {|
  Math_cos := fun a => 1 - a * a / 2;
  Math_sin := fun a => a;
  Math_tan := fun a => a;
  Math_random := fun _ => 1 # 2
|}.

Definition sampleCamera : Camera.t := Camera.new (H := sampleHost) 75 (4 # 3) (1 # 10) 1000.

Definition farStar : Star.t := Star.mk 10 20 1000 10 20 (1 # 2) 1000 1.

Definition nearStar : Star.t := Star.mk 10 20 (3 # 2) 10 20 1 1000 1.

Definition smallField : StarField.t :=
  StarField.new (H := sampleHost) 800 600 (JS.Num 3).

(** A monitor one frame before its thirtieth reading of 15 FPS. *)
Definition fifteenMonitor : PerformanceMonitor.t :=
  PerformanceMonitor.mk 14 15 29000 (repeat 15%Z 29) 60 29990 10
                        (1667 # 100) 30 (3333 # 100).

(** A field of 1000 stars watched by [fifteenMonitor]. *)
Definition fullField : StarField.t :=
  StarField.set_performanceMonitor fifteenMonitor
    (StarField.new (H := sampleHost) 800 600 (JS.Num 1000)).

(** [fullField] after the frame at 30 s: throttled to 750 stars. *)
Definition throttledField : StarField.t :=
  StarField.updatePerformanceMonitor (H := sampleHost) 30000 30000 fullField.

(** A monitor with a full history, the readings 1 to 60, six frames
    into the current second. *)
Definition countingMonitor : PerformanceMonitor.t :=
  PerformanceMonitor.mk 6 60 60000 (map Z.of_nat (seq 1 60)) 60 60990 10
                        (1667 # 100) 30 (3333 # 100).

(** No option given: every setting of the input handler is its default. *)
Definition defaultOptions : InputHandler.Options :=
  InputHandler.mkOptions None None None None None.

(** [{sensitivity: Math.PI}]: one pixel of drag turns the target by pi. *)
Definition sensitiveOptions : InputHandler.Options :=
  InputHandler.mkOptions (Some Math.PI) None None None None.

(** [{maxRotation: -1}]. *)
Definition negativeOptions : InputHandler.Options :=
  InputHandler.mkOptions None None (Some (-1)) None None.

(** A drag of 5000 pixels to the left, in two moves. *)
Definition dragLeft : list InputHandler.Event :=
  [ InputHandler.MouseMove (InputHandler.mkPointer 4000 300) (InputHandler.mkRect 0 0);
    InputHandler.MouseDown;
    InputHandler.MouseMove (InputHandler.mkPointer 1000 300) (InputHandler.mkRect 0 0);
    InputHandler.MouseMove (InputHandler.mkPointer (-1000) 320) (InputHandler.mkRect 0 0);
    InputHandler.MouseUp ].

(** A monitor one frame before its sixth reading of 55 FPS. *)
Definition fiftyFiveMonitor : PerformanceMonitor.t :=
  PerformanceMonitor.mk 54 55 35000 (repeat 55%Z 5) 60 35990 10
                        (1667 # 100) 30 (3333 # 100).

(** A monitor one frame before its sixth reading of 45 FPS. *)
Definition fortyFiveMonitor : PerformanceMonitor.t :=
  PerformanceMonitor.mk 44 45 35000 (repeat 45%Z 5) 60 35990 10
                        (1667 # 100) 30 (3333 # 100).

(** A field of 100 stars, the least count the optimizer leaves. *)
Definition sparseField : StarField.t :=
  StarField.new (H := sampleHost) 800 600 (JS.Num 100).

(** [sparseField] after [handleLowPerformance] at 15 FPS, at 30 s: glow
    and trails are off and every other frame is skipped; the 100 stars
    are all still there. *)
Definition dimmedField : StarField.t :=
  StarField.handleLowPerformance (H := sampleHost)
    (PerformanceMonitor.mkData 15 10) 30000 sparseField.

(** A panel opened on [throttledField]: the panel stores its default
    count of 1000 while the field holds 750 stars. *)
Definition stalePanel : ConfigPanel.t := ConfigPanel.new throttledField.

(* ================================================================== *)
(** * Part II: proofs *)
(* ================================================================== *)

(** ** Camera *)

Section CameraProofs.

Context `{Host}.
Hypothesis cos_zero : Math_cos 0 == 1.
Hypothesis sin_zero : Math_sin 0 == 0.

Lemma applyRotation_identity (c : Camera.t) (x y z : Q) :
  Camera.rotationX c = 0 -> Camera.rotationY c = 0 ->
  Camera.px (Camera.applyRotation c x y z) == x /\
  Camera.py (Camera.applyRotation c x y z) == y /\
  Camera.pz (Camera.applyRotation c x y z) == z.
Proof.
  intros HX HY. unfold Camera.applyRotation. cbn [Camera.px Camera.py Camera.pz].
  rewrite HX, HY, cos_zero, sin_zero. repeat split; ring.
Qed.

(** C1. Projection null-safety and exactness: [project3DTo2D] is null
    whenever [z <= 0], and whenever the rotated depth is [<= 0]; with both
    rotation angles 0 and [z > 0] the result is
    [(x*focalLength/z + width/2, y*focalLength/z + height/2)] with the
    depth [z] passed through. *)
Theorem project3DTo2D_null_safety_and_exactness (c : Camera.t) (x y z : Q) :
  (z <= 0 -> Camera.project3DTo2D c x y z = None) /\
  (Camera.pz (Camera.applyRotation c x y z) <= 0 ->
   Camera.project3DTo2D c x y z = None) /\
  (Camera.rotationX c = 0 -> Camera.rotationY c = 0 -> 0 < z ->
   exists p, Camera.project3DTo2D c x y z = Some p /\
     Camera.px p == x * Camera.focalLength c / z + Camera.canvasWidth c / 2 /\
     Camera.py p == y * Camera.focalLength c / z + Camera.canvasHeight c / 2 /\
     Camera.pz p == z).
Proof.
  split; [| split].
  - intros Hz. unfold Camera.project3DTo2D.
    apply Qle_bool_iff in Hz. now rewrite Hz.
  - intros Hr. unfold Camera.project3DTo2D.
    destruct (Qle_bool z 0); [reflexivity |].
    apply Qle_bool_iff in Hr. now rewrite Hr.
  - intros HX HY Hz.
    destruct (applyRotation_identity c x y z HX HY) as (Ex & Ey & Ez).
    unfold Camera.project3DTo2D.
    destruct (Qle_bool z 0) eqn:E1.
    { apply Qle_bool_iff in E1. lra. }
    destruct (Qle_bool (Camera.pz (Camera.applyRotation c x y z)) 0) eqn:E2.
    { apply Qle_bool_iff in E2. rewrite Ez in E2. lra. }
    eexists. split; [reflexivity |]. cbn [Camera.px Camera.py Camera.pz].
    rewrite Ex, Ey, Ez. repeat split; reflexivity.
Qed.

End CameraProofs.

(** The projection theorem at [sampleCamera]: a point behind the lens,
    and a point in front of it. *)
Lemma project3DTo2D_sample :
  Math_cos (Host := sampleHost) 0 == 1 /\
  Math_sin (Host := sampleHost) 0 == 0 /\
  Camera.project3DTo2D (H := sampleHost) sampleCamera 4 2 (-1) = None /\
  exists p, Camera.project3DTo2D (H := sampleHost) sampleCamera 50 (-20) 100 = Some p /\
    Camera.px p == 50 * Camera.focalLength sampleCamera / 100 + 400 /\
    Camera.pz p == 100.
Proof.
  assert (C0 : Math_cos (Host := sampleHost) 0 == 1) by reflexivity.
  assert (S0 : Math_sin (Host := sampleHost) 0 == 0) by reflexivity.
  split; [exact C0 | split; [exact S0 |]].
  split.
  - apply (proj1 (project3DTo2D_null_safety_and_exactness C0 S0 sampleCamera 4 2 (-1))).
    discriminate.
  - destruct (project3DTo2D_null_safety_and_exactness C0 S0 sampleCamera 50 (-20) 100)
      as (_ & _ & Hex).
    destruct (Hex eq_refl eq_refl eq_refl) as (p & Hp & Hx & _ & Hz).
    exists p. split; [exact Hp | split; [| exact Hz]].
    rewrite Hx. vm_compute. reflexivity.
Defined.

Section StarProofs.

Context `{Host}.

Lemma reset_z (k : nat) (s : Star.t) :
  Star.z (fst (Star.reset k s)) = Star.maxDistance s /\
  Star.prevX (fst (Star.reset k s)) = Star.x (fst (Star.reset k s)) /\
  Star.prevY (fst (Star.reset k s)) = Star.y (fst (Star.reset k s)) /\
  Star.maxDistance (fst (Star.reset k s)) = Star.maxDistance s /\
  Star.minDistance (fst (Star.reset k s)) = Star.minDistance s.
Proof. repeat split. Qed.

(** C2 (as amended). For a live particle and a step that does not move
    the particle away from the viewer (the decrement
    [speed * speedMultiplier * deltaTime * 60] is non-negative): if the
    decremented [z] is [<= minDistance], the particle is reset, its [z] is
    [maxDistance] and its previous position is its new position; in every
    case [minDistance < z <= maxDistance] afterwards. *)
Theorem update_reset_invariant (k : nat) (speed deltaTime : Q) (s : Star.t) :
  Star.minDistance s < Star.maxDistance s ->
  Star.isVisible s = true ->
  0 <= speed * Star.speed s * deltaTime * 60 ->
  let s' := fst (Star.update k speed deltaTime s) in
  (Star.z s - speed * Star.speed s * deltaTime * 60 <= Star.minDistance s ->
   Star.z s' = Star.maxDistance s /\
   Star.prevX s' = Star.x s' /\ Star.prevY s' = Star.y s') /\
  Star.minDistance s' < Star.z s' /\ Star.z s' <= Star.maxDistance s' /\
  Star.isVisible s' = true.
Proof.
  intros Hmm Hlive Hdec.
  unfold Star.isVisible in Hlive. apply andb_true_iff in Hlive.
  destruct Hlive as [Hlo Hhi]. apply Qle_bool_iff in Hlo, Hhi.
  unfold Star.update. cbn [Star.z Star.minDistance].
  destruct (Qle_bool (Star.z s - speed * Star.speed s * deltaTime * 60)
                     (Star.minDistance s)) eqn:E; cbn zeta.
  - split; [intros _; repeat split |].
    cbn. repeat split; try lra.
    unfold Star.isVisible. cbn. apply andb_true_iff.
    split; apply Qle_bool_iff; lra.
  - assert (Hgt : ~ Star.z s - speed * Star.speed s * deltaTime * 60
                    <= Star.minDistance s).
    { rewrite <- Qle_bool_iff, E. discriminate. }
    cbn. split; [intros Hc; contradiction |].
    repeat split; try lra.
    unfold Star.isVisible. cbn. apply andb_true_iff.
    split; apply Qle_bool_iff; lra.
Qed.

End StarProofs.

(** The reset invariant at [nearStar], which one step at full speed
    carries past [minDistance]. *)
Lemma update_reset_invariant_sample :
  Star.z (fst (Star.update (H := sampleHost) 0 5 (1 # 60) nearStar)) = 1000 /\
  Star.isVisible (fst (Star.update (H := sampleHost) 0 5 (1 # 60) nearStar)) = true.
Proof.
  assert (H1 : Star.minDistance nearStar < Star.maxDistance nearStar) by reflexivity.
  assert (H2 : Star.isVisible nearStar = true) by reflexivity.
  assert (H3 : 0 <= 5 * Star.speed nearStar * (1 # 60) * 60) by discriminate.
  destruct (update_reset_invariant (H := sampleHost) 0 5 (1 # 60) nearStar H1 H2 H3)
    as (Hreset & _ & _ & Hvis).
  split; [| exact Hvis].
  apply Hreset. discriminate.
Defined.

(** C2 as first stated fails: a negative speed moves a live particle
    beyond [maxDistance], and [update] leaves it there. *)
Lemma update_negative_speed_escapes :
  Star.isVisible farStar = true /\
  Star.z (fst (Star.update (H := sampleHost) 0 (-1) 1 farStar)) == 1030 /\
  ~ (Star.z (fst (Star.update (H := sampleHost) 0 (-1) 1 farStar))
     <= Star.maxDistance (fst (Star.update (H := sampleHost) 0 (-1) 1 farStar))).
Proof.
  split; [reflexivity | split; [reflexivity |]].
  intros Hle. vm_compute in Hle. apply Hle. reflexivity.
Qed.

(** ** Numbers that are integers *)

Lemma Qle_bool_inject_Z (a b : Z) :
  Qle_bool (inject_Z a) (inject_Z b) = (a <=? b)%Z.
Proof. unfold Qle_bool, inject_Z; cbn. now rewrite !Z.mul_1_r. Qed.

Lemma ltb_inject_Z (a b : Z) :
  Math.ltb (inject_Z a) (inject_Z b) = (a <? b)%Z.
Proof.
  unfold Math.ltb. rewrite Qle_bool_inject_Z.
  now rewrite Z.ltb_antisym.
Qed.

Lemma Qeq_bool_inject_Z (a b : Z) :
  Qeq_bool (inject_Z a) (inject_Z b) = (a =? b)%Z.
Proof. unfold Qeq_bool, inject_Z; cbn. now rewrite !Z.mul_1_r. Qed.

Lemma ltb_true_iff (a b : Q) : Math.ltb a b = true <-> a < b.
Proof.
  unfold Math.ltb. rewrite negb_true_iff. split.
  - intros E. apply Qnot_le_lt. intros Hle.
    apply Qle_bool_iff in Hle. congruence.
  - intros Hlt. destruct (Qle_bool b a) eqn:E; [| reflexivity].
    apply Qle_bool_iff in E. lra.
Qed.

Lemma ltb_false_iff (a b : Q) : Math.ltb a b = false <-> b <= a.
Proof.
  unfold Math.ltb. rewrite negb_false_iff. apply Qle_bool_iff.
Qed.

Lemma Math_max_inject_Z (a b : Z) :
  JS.Math_max (JS.Num (inject_Z a)) (JS.Num (inject_Z b))
  = JS.Num (inject_Z (Z.max a b)).
Proof.
  unfold JS.Math_max. rewrite Qle_bool_inject_Z.
  destruct (Z.leb_spec b a).
  - now rewrite Z.max_l.
  - now rewrite Z.max_r by lia.
Qed.

Lemma Math_min_inject_Z (a b : Z) :
  JS.Math_min (JS.Num (inject_Z a)) (JS.Num (inject_Z b))
  = JS.Num (inject_Z (Z.min a b)).
Proof.
  unfold JS.Math_min. rewrite Qle_bool_inject_Z.
  destruct (Z.leb_spec a b).
  - now rewrite Z.min_l.
  - now rewrite Z.min_r by lia.
Qed.

Lemma ToIntegerOrInfinity_inject_Z (n : Z) :
  JS.ToIntegerOrInfinity (JS.Num (inject_Z n)) = n.
Proof. cbn. apply Z.quot_1_r. Qed.

Lemma splice_inject_Z {A : Type} (n : Z) (arr : list A) :
  (0 <= n)%Z -> (n <= Z.of_nat (length arr))%Z ->
  JS.splice (JS.Num (inject_Z n)) arr = firstn (Z.to_nat n) arr.
Proof.
  intros H0 Hn. unfold JS.splice. rewrite ToIntegerOrInfinity_inject_Z.
  destruct (Z.ltb_spec n 0); [lia |].
  now rewrite Z.min_l.
Qed.

Lemma trips_inject_Z (a b : Z) :
  JS.trips (JS.Num (inject_Z a)) (JS.Num (inject_Z b)) = Z.to_nat (b - a).
Proof.
  unfold JS.trips. f_equal.
  assert (E : inject_Z b - inject_Z a == inject_Z (b - a)).
  { unfold Z.sub. rewrite inject_Z_plus, inject_Z_opp. ring. }
  rewrite E. apply Qceiling_Z.
Qed.

Lemma Qfloor_unique (z : Q) (n : Z) :
  inject_Z n <= z -> z < inject_Z (n + 1) -> Qfloor z = n.
Proof.
  intros Hlo Hhi.
  pose proof (Qfloor_le z) as H1. pose proof (Qlt_floor z) as H2.
  assert (A : inject_Z n < inject_Z (Qfloor z + 1)) by lra.
  assert (B : inject_Z (Qfloor z) < inject_Z (n + 1)) by lra.
  rewrite <- Zlt_Qlt in A, B. lia.
Qed.

Lemma Qceiling_pred (x : Q) : Qceiling (x - 1) = (Qceiling x - 1)%Z.
Proof.
  unfold Qceiling.
  assert (E : Qfloor (- (x - 1)) = (Qfloor (- x) + 1)%Z).
  { apply Qfloor_unique.
    - pose proof (Qfloor_le (- x)). rewrite inject_Z_plus.
      change (inject_Z 1) with 1. lra.
    - pose proof (Qlt_floor (- x)). rewrite !inject_Z_plus in *.
      change (inject_Z 1) with 1 in *. lra. }
  rewrite E. lia.
Qed.

Lemma Qceiling_pos (x : Q) : 0 < x -> (1 <= Qceiling x)%Z.
Proof.
  intros Hx. pose proof (Qle_ceiling x) as Hc.
  assert (A : inject_Z 0 < inject_Z (Qceiling x))
    by (change (inject_Z 0) with 0; lra).
  rewrite <- Zlt_Qlt in A. lia.
Qed.

Lemma Qceiling_nonpos (x : Q) : x <= 0 -> (Qceiling x <= 0)%Z.
Proof.
  intros Hx. change 0%Z with (Qceiling 0). now apply Qceiling_resp_le.
Qed.

(** The loop [for (i = a; i < b; i++)] runs its body [trips a b] times
    and then leaves by its condition: fuel beyond that changes
    nothing. *)
Lemma for_lt_enough {S : Type} (body : S -> S) (b : Q) :
  forall (fuel : nat) (a : Q) (s : S),
    (JS.trips (JS.Num a) (JS.Num b) <= fuel)%nat ->
    JS.for_lt fuel (JS.Num a) (JS.Num b) body s
    = Nat.iter (JS.trips (JS.Num a) (JS.Num b)) body s.
Proof.
  unfold JS.trips.
  induction fuel as [| fuel IH]; intros a s Hfuel.
  - cbn [JS.for_lt]. replace (Z.to_nat (Qceiling (b - a))) with O by lia.
    reflexivity.
  - cbn [JS.for_lt JS.lt JS.add JS.lift2].
    destruct (Math.ltb a b) eqn:E.
    + apply ltb_true_iff in E.
      assert (Hpos : (1 <= Qceiling (b - a))%Z) by (apply Qceiling_pos; lra).
      assert (Hstep : Qceiling (b - (a + 1)) = (Qceiling (b - a) - 1)%Z).
      { rewrite <- Qceiling_pred. apply Qceiling_comp. ring. }
      rewrite IH by lia. rewrite Hstep.
      replace (Z.to_nat (Qceiling (b - a)))
        with (Datatypes.S (Z.to_nat (Qceiling (b - a) - 1))) by lia.
      now rewrite Nat.iter_succ_r.
    + apply ltb_false_iff in E.
      assert (Hneg : (Qceiling (b - a) <= 0)%Z) by (apply Qceiling_nonpos; lra).
      replace (Z.to_nat (Qceiling (b - a))) with O by lia. reflexivity.
Qed.

(** With [NaN] as a bound the condition is false at once. *)
Lemma for_lt_NaN {S : Type} (body : S -> S) (fuel : nat) (a b : JS.number) (s : S) :
  JS.isNaN a || JS.isNaN b = true ->
  JS.for_lt fuel a b body s = s.
Proof.
  intros Hnan. destruct fuel as [| fuel]; [reflexivity |].
  cbn [JS.for_lt]. destruct a, b; cbn in Hnan; try discriminate; reflexivity.
Qed.

Lemma for_loop_inject_Z {S : Type} (body : S -> S) (a b : Z) (s : S) :
  JS.for_loop (JS.Num (inject_Z a)) (JS.Num (inject_Z b)) body s
  = Nat.iter (Z.to_nat (b - a)) body s.
Proof.
  unfold JS.for_loop. rewrite for_lt_enough by lia.
  now rewrite trips_inject_Z.
Qed.

Section StarFieldProofs.

Context `{Host}.

Lemma set_stars_eta (sf : StarField.t) :
  StarField.set_stars (StarField.stars sf) (StarField.randomCalls sf) sf = sf.
Proof. now destruct sf. Qed.

Lemma set_starCount_eta (sf : StarField.t) :
  StarField.set_stars (StarField.stars sf) (StarField.randomCalls sf)
    (StarField.set_starCount (StarField.starCount sf) sf) = sf.
Proof. now destruct sf. Qed.

Lemma pushRandomStar_iter (n : nat) (sf : StarField.t) :
  exists (added : list Star.t) (k : nat),
    Nat.iter n StarField.pushRandomStar sf
    = StarField.set_stars (StarField.stars sf ++ added) k sf
    /\ length added = n.
Proof.
  induction n as [| n IH].
  - exists [], (StarField.randomCalls sf). cbn.
    rewrite app_nil_r. now rewrite set_stars_eta.
  - destruct IH as (added & k & E & L).
    rewrite Nat.iter_succ, E. unfold StarField.pushRandomStar at 1.
    destruct (StarField.createRandomStar
                (StarField.randomCalls
                   (StarField.set_stars (StarField.stars sf ++ added) k sf)))
      as [star k'].
    exists (added ++ [star]), k'. split.
    + cbn. now rewrite <- app_assoc.
    + rewrite length_app. cbn. lia.
Qed.

Lemma setStarCount_result (sf : StarField.t) (c : Z) (q : Q) :
  consistent sf c ->
  let k := Z.max 1 (Z.min 5000 (Qfloor q)) in
  exists (l : list Star.t) (rc : nat),
    StarField.setStarCount (JS.Num q) sf
    = StarField.set_stars l rc (StarField.set_starCount (JS.Num (inject_Z k)) sf)
    /\ length l = Z.to_nat k
    /\ ((c <= k)%Z -> exists added, l = StarField.stars sf ++ added)
    /\ ((k <= c)%Z -> l = firstn (Z.to_nat k) (StarField.stars sf)).
Proof.
  intros (Hc & Hlen & Hpos) k.
  unfold StarField.setStarCount.
  cbn [JS.Math_floor]. unfold Math.floor.
  change (JS.Num 5000) with (JS.Num (inject_Z 5000)).
  change (JS.Num 1) with (JS.Num (inject_Z 1)).
  rewrite Math_min_inject_Z, Math_max_inject_Z. fold k.
  rewrite Hc. cbn [JS.strict_eq JS.gt JS.lt].
  rewrite Qeq_bool_inject_Z, ltb_inject_Z.
  destruct (Z.eqb_spec k c) as [E | NE].
  - exists (StarField.stars sf), (StarField.randomCalls sf).
    rewrite E, <- Hc. split; [| split; [| split]].
    + destruct sf; reflexivity.
    + exact Hlen.
    + intros _. exists []. now rewrite app_nil_r.
    + intros _. rewrite <- Hlen. now rewrite firstn_all.
  - destruct (Z.ltb_spec c k) as [Hlt | Hge].
    + rewrite for_loop_inject_Z.
      destruct (pushRandomStar_iter (Z.to_nat (k - c))
                  (StarField.set_starCount (JS.Num (inject_Z k)) sf))
        as (added & rc & E & L).
      rewrite E. exists (StarField.stars sf ++ added), rc.
      split; [reflexivity | split; [| split]].
      * rewrite length_app, Hlen, L. lia.
      * intros _. now exists added.
      * intros Hle. lia.
    + rewrite splice_inject_Z.
      * eexists _, _. split; [reflexivity | split; [| split]].
        -- cbn. rewrite length_firstn, Hlen. lia.
        -- intros Hle. lia.
        -- intros _. reflexivity.
      * unfold k. lia.
      * cbn. rewrite Hlen. lia.
Qed.

Lemma setStarCount_consistent (sf : StarField.t) (c : Z) (q : Q) :
  consistent sf c ->
  consistent (StarField.setStarCount (JS.Num q) sf)
             (Z.max 1 (Z.min 5000 (Qfloor q))).
Proof.
  intros Hcons.
  destruct (setStarCount_result sf c q Hcons) as (l & rc & E & L & _).
  rewrite E. repeat split; [exact L | lia].
Qed.

(** C3. Star-count clamping: after [setStarCount(n)] the stored count is
    [clamp(floor(n), 1, 5000)] and the collection has exactly that many
    stars; it grew by appending stars, or shrank by dropping stars from
    its end.  ([n] is any finite number, an integer in particular; the
    star field is one whose count and collection agreed before the
    call.) *)
Theorem setStarCount_clamps (sf : StarField.t) (c : Z) (n : Q) :
  consistent sf c ->
  let sf' := StarField.setStarCount (JS.Num n) sf in
  let k := Z.max 1 (Z.min 5000 (Qfloor n)) in
  StarField.getStarCount sf' = JS.Num (inject_Z k) /\
  length (StarField.stars sf') = Z.to_nat k /\
  ((c <= k)%Z -> exists added, StarField.stars sf' = StarField.stars sf ++ added) /\
  ((k <= c)%Z -> StarField.stars sf' = firstn (Z.to_nat k) (StarField.stars sf)).
Proof.
  intros Hcons sf' k.
  destruct (setStarCount_result sf c n Hcons) as (l & rc & E & L & Hgrow & Hshrink).
  subst sf'. rewrite E. cbn. repeat split; assumption.
Qed.

Lemma initialize_result (sf : StarField.t) (n : Z) :
  StarField.starCount sf = JS.Num (inject_Z n) ->
  exists (l : list Star.t) (rc : nat),
    StarField.initialize sf = StarField.set_stars l rc sf
    /\ length l = Z.to_nat n.
Proof.
  intros Hn. unfold StarField.initialize. rewrite Hn.
  change (JS.Num 0) with (JS.Num (inject_Z 0)).
  rewrite for_loop_inject_Z.
  destruct (pushRandomStar_iter (Z.to_nat (n - 0))
              (StarField.set_stars [] (StarField.randomCalls sf) sf))
    as (added & rc & E & L).
  rewrite E. exists added, rc. split; [reflexivity |].
  rewrite L. f_equal. lia.
Qed.

(** C10. The constructor does not clamp: for a non-negative integer [n],
    [new StarField(canvas, n)] holds exactly [n] stars and
    [getStarCount()] is [n]; when [n] is outside [1, 5000] the stored
    count is therefore not the clamped value that [setStarCount] would
    store. *)
Theorem constructor_count_unclamped (width height : Q) (n : Z) :
  (0 <= n)%Z ->
  let sf := StarField.new width height (JS.Num (inject_Z n)) in
  length (StarField.stars sf) = Z.to_nat n /\
  StarField.getStarCount sf = JS.Num (inject_Z n) /\
  StarField.originalStarCount sf = JS.Num (inject_Z n) /\
  ((n < 1 \/ 5000 < n)%Z ->
   StarField.getStarCount sf <> JS.Num (inject_Z (Z.max 1 (Z.min 5000 n))) /\
   StarField.getStarCount (StarField.setStarCount (JS.Num (inject_Z n)) sf)
   = JS.Num (inject_Z (Z.max 1 (Z.min 5000 n)))).
Proof.
  intros Hn sf.
  destruct (initialize_result
              (StarField.mk [] (JS.Num (inject_Z n)) (JS.Num (inject_Z n)) (JS.Num 1)
                 (Camera.updateAspectRatio width height
                    (Camera.new 75 (width / height) (1 # 10) 1000))
                 Renderer.new PerformanceMonitor.new
                 (StarField.mkPerf true 100 (1 # 4) 5000 0 0)
                 (StarField.mkRend true true 100 0 0) width height O) n eq_refl)
    as (l & rc & E & L).
  assert (Hcons : consistent sf n).
  { subst sf. unfold StarField.new. rewrite E. repeat split; assumption. }
  destruct (setStarCount_result _ n (inject_Z n) Hcons) as (l2 & rc2 & E2 & _).
  assert (Hk : StarField.getStarCount (StarField.setStarCount (JS.Num (inject_Z n)) sf)
               = JS.Num (inject_Z (Z.max 1 (Z.min 5000 n)))).
  { rewrite E2, Qfloor_Z. reflexivity. }
  subst sf. unfold StarField.new in *. rewrite E in *. cbn.
  split; [exact L | split; [reflexivity | split; [reflexivity |]]].
  intros Hout. split; [| exact Hk].
  intros Heq. injection Heq as Heq. lia.
Qed.

End StarFieldProofs.

(** The clamp at a field of three stars: 10000 is stored as 5000, and
    -7 as 1. *)
Lemma setStarCount_clamps_sample :
  consistent smallField 3 /\
  StarField.getStarCount
    (StarField.setStarCount (H := sampleHost) (JS.Num 10000) smallField)
  = JS.Num 5000 /\
  StarField.getStarCount
    (StarField.setStarCount (H := sampleHost) (JS.Num (-7)) smallField)
  = JS.Num 1 /\
  length (StarField.stars
            (StarField.setStarCount (H := sampleHost) (JS.Num (-7)) smallField))
  = 1%nat.
Proof.
  assert (Hc : consistent smallField 3).
  { split; [reflexivity | split; [reflexivity | discriminate]]. }
  split; [exact Hc |].
  destruct (setStarCount_clamps (H := sampleHost) smallField 3 10000 Hc) as (A & _).
  destruct (setStarCount_clamps (H := sampleHost) smallField 3 (-7) Hc) as (B & L & _).
  split; [exact A | split; [exact B | exact L]].
Defined.

(** A field constructed with 5001 stars holds 5001 stars. *)
Lemma constructor_count_unclamped_sample :
  (0 <= 5001)%Z /\
  length (StarField.stars (StarField.new (H := sampleHost) 800 600 (JS.Num (inject_Z 5001))))
  = Z.to_nat 5001 /\
  StarField.getStarCount (StarField.new (H := sampleHost) 800 600 (JS.Num (inject_Z 5001)))
  = JS.Num (inject_Z 5001).
Proof.
  assert (H0 : (0 <= 5001)%Z) by discriminate.
  split; [exact H0 |].
  destruct (constructor_count_unclamped (H := sampleHost) 800 600 5001 H0)
    as (L & C & _).
  split; [exact L | exact C].
Defined.

Section AdaptiveQualityProofs.

Context `{Host}.

Lemma Math_max_Num (p q : Q) :
  JS.Math_max (JS.Num p) (JS.Num q) = JS.Num (Math.max p q).
Proof. unfold JS.Math_max, Math.max. now destruct (Qle_bool q p). Qed.

Lemma Math_min_Num (p q : Q) :
  JS.Math_min (JS.Num p) (JS.Num q) = JS.Num (Math.min p q).
Proof. unfold JS.Math_min, Math.min. now destruct (Qle_bool p q). Qed.

Lemma max_integer (a b : Z) (x : Q) :
  x == inject_Z b -> Math.max (inject_Z a) x == inject_Z (Z.max a b).
Proof.
  intros Hx. unfold Math.max. destruct (Qle_bool x (inject_Z a)) eqn:E.
  - apply Qle_bool_iff in E. rewrite Hx, <- Zle_Qle in E.
    now rewrite Z.max_l.
  - assert (Hlt : inject_Z a < x) by (apply ltb_true_iff; unfold Math.ltb; now rewrite E).
    rewrite Hx, <- Zlt_Qlt in Hlt. rewrite Z.max_r by lia. exact Hx.
Qed.

Lemma min_integer (a b : Z) (x : Q) :
  x == inject_Z b -> Math.min (inject_Z a) x == inject_Z (Z.min a b).
Proof.
  intros Hx. unfold Math.min. destruct (Qle_bool (inject_Z a) x) eqn:E.
  - apply Qle_bool_iff in E. rewrite Hx, <- Zle_Qle in E.
    now rewrite Z.min_l.
  - assert (Hlt : x < inject_Z a) by (apply ltb_true_iff; unfold Math.ltb; now rewrite E).
    rewrite Hx, <- Zlt_Qlt in Hlt. rewrite Z.min_r by lia. exact Hx.
Qed.

Lemma Qfloor_integer (x : Q) (b : Z) : x == inject_Z b -> Qfloor x = b.
Proof. intros Hx. rewrite Hx. apply Qfloor_Z. Qed.

Lemma Qfloor_fraction (c : Z) (d : positive) :
  Qfloor (inject_Z c * (1 # d)) = (c / Zpos d)%Z.
Proof. unfold Qfloor, inject_Z, Qmult; cbn. now rewrite Z.mul_1_r. Qed.

Lemma sub_integer (a b : Z) : inject_Z a - inject_Z b == inject_Z (a - b).
Proof. unfold Z.sub. rewrite inject_Z_plus, inject_Z_opp. ring. Qed.

(** C4. Low-performance response.  When [handleLowPerformance] runs at
    least 2 seconds after the last optimization, on a star field with the
    default settings ([minStarCount] 100, [reductionStep] 0.25) and a
    count [c] of at most 5000: a count above 100 shrinks by
    [max(floor(c * 0.25), 1)] but not below 100, and a count of at most
    100 stays; if the reported FPS is below 20, glow and trails are
    disabled and [skipFrames] becomes 1.  In particular from 1000 stars
    and an FPS of 15 the count is 750 and glow and trails are off. *)
Theorem handleLowPerformance_shrinks (sf : StarField.t) (c : Z)
  (data : PerformanceMonitor.Data) (now : Q) :
  consistent sf c ->
  (c <= 5000)%Z ->
  StarField.minStarCount (StarField.performanceOptimizations sf) = 100 ->
  StarField.reductionStep (StarField.performanceOptimizations sf) = (1 # 4) ->
  2000 <= now - StarField.lastOptimization (StarField.performanceOptimizations sf) ->
  let sf' := StarField.handleLowPerformance data now sf in
  let fps := PerformanceMonitor.data_fps data in
  ((100 < c)%Z -> consistent sf' (Z.max 100 (c - Z.max (c / 4) 1))) /\
  ((c <= 100)%Z -> consistent sf' c /\ StarField.stars sf' = StarField.stars sf) /\
  (fps < 20 ->
   Renderer.enableGlow (Renderer.config (StarField.renderer sf')) = false /\
   Renderer.enableTrails (Renderer.config (StarField.renderer sf')) = false /\
   StarField.skipFrames (StarField.renderingOptimizations sf') = 1) /\
  (20 <= fps ->
   StarField.renderer sf' = StarField.renderer sf /\
   StarField.renderingOptimizations sf' = StarField.renderingOptimizations sf) /\
  StarField.lastOptimization (StarField.performanceOptimizations sf') = now /\
  (c = 1000%Z -> fps == 15 ->
   StarField.getStarCount sf' = JS.Num 750 /\
   length (StarField.stars sf') = 750%nat /\
   Renderer.enableGlow (Renderer.config (StarField.renderer sf')) = false /\
   Renderer.enableTrails (Renderer.config (StarField.renderer sf')) = false).
Proof.
  intros Hcons H5000 Hmin Hstep Hnow sf' fps.
  assert (Hcount : StarField.starCount sf = JS.Num (inject_Z c)) by apply Hcons.
  (* what the count-reduction step leaves *)
  assert (Hstars : exists (l : list Star.t) (rc : nat) (k : Z),
    sf' = StarField.set_lastOptimization now
            ((if Math.ltb fps 20
              then fun s => StarField.set_skipFrames 1
                              (StarField.setTrailsEnabled false
                                 (StarField.setGlowEnabled false s))
              else fun s => s)
               (StarField.set_stars l rc
                  (StarField.set_starCount (JS.Num (inject_Z k)) sf)))
    /\ length l = Z.to_nat k
    /\ ((100 < c)%Z -> k = Z.max 100 (c - Z.max (c / 4) 1))
    /\ ((c <= 100)%Z -> k = c /\ l = StarField.stars sf)).
  { subst sf' fps. unfold StarField.handleLowPerformance.
    apply ltb_false_iff in Hnow. rewrite Hnow.
    unfold StarField.getStarCount. rewrite Hcount, Hmin, Hstep.
    change (JS.Num 100) with (JS.Num (inject_Z 100)).
    cbn [JS.gt JS.lt]. rewrite ltb_inject_Z.
    destruct (Z.ltb_spec 100 c) as [Hbig | Hsmall].
    - cbn [JS.mul JS.lift2 JS.Math_floor]. unfold Math.floor.
      rewrite Qfloor_fraction.
      change (JS.Num 1) with (JS.Num (inject_Z 1)).
      rewrite Math_max_inject_Z. cbn [JS.sub JS.lift2]. rewrite Math_max_Num.
      pose proof (max_integer 100 (c - Z.max (c / 4) 1) _
                    (sub_integer c (Z.max (c / 4) 1))) as Hm.
      destruct (setStarCount_result sf c
                  (Math.max (inject_Z 100) (inject_Z c - inject_Z (Z.max (c / 4) 1)))
                  Hcons) as (l & rc & E & L & _).
      rewrite (Qfloor_integer _ _ Hm) in E, L.
      assert (Hk : Z.max 1 (Z.min 5000 (Z.max 100 (c - Z.max (c / 4) 1)))
                   = Z.max 100 (c - Z.max (c / 4) 1)).
      { assert (0 <= c / 4)%Z by (apply Z.div_pos; lia). lia. }
      rewrite Hk in E, L. rewrite E.
      exists l, rc, (Z.max 100 (c - Z.max (c / 4) 1)).
      split; [destruct (Math.ltb (PerformanceMonitor.data_fps data) 20); reflexivity |].
      split; [exact L | split; [reflexivity | lia]].
    - exists (StarField.stars sf), (StarField.randomCalls sf), c.
      rewrite <- Hcount, set_starCount_eta.
      split; [destruct (Math.ltb (PerformanceMonitor.data_fps data) 20);
              reflexivity |].
      split; [apply Hcons | split; [lia | intros _; split; reflexivity]]. }
  destruct Hstars as (l & rc & k & E & L & Hbig & Hsmall).
  assert (Hk0 : (0 <= k)%Z).
  { destruct Hcons as (_ & _ & Hc0).
    destruct (Z.ltb_spec 100 c) as [Hb | Hs]; [rewrite (Hbig Hb) | rewrite (proj1 (Hsmall Hs))]; lia. }
  assert (Hcons' : consistent sf' k).
  { rewrite E. destruct (Math.ltb fps 20); repeat split; assumption. }
  assert (Hlow : fps < 20 ->
    Renderer.enableGlow (Renderer.config (StarField.renderer sf')) = false /\
    Renderer.enableTrails (Renderer.config (StarField.renderer sf')) = false /\
    StarField.skipFrames (StarField.renderingOptimizations sf') = 1).
  { intros Hfps. apply ltb_true_iff in Hfps. rewrite E, Hfps. repeat split. }
  split; [intros Hb; rewrite <- (Hbig Hb); exact Hcons' |].
  split.
  { intros Hs. destruct (Hsmall Hs) as (Ek & El). rewrite <- Ek. split; [exact Hcons' |].
    rewrite E, El. now destruct (Math.ltb fps 20). }
  split; [exact Hlow |].
  split.
  { intros Hfps. apply ltb_false_iff in Hfps. rewrite E, Hfps. split; reflexivity. }
  split; [rewrite E; now destruct (Math.ltb fps 20) |].
  intros Ec Efps.
  assert (Ek : k = 750%Z) by (rewrite Hbig; subst c; [reflexivity | lia]).
  destruct Hcons' as (Hc' & Hl' & _). rewrite Ek in Hc', Hl'.
  assert (Hfps : fps < 20) by (rewrite Efps; reflexivity).
  destruct (Hlow Hfps) as (Hg & Ht & _).
  unfold StarField.getStarCount. repeat split; assumption.
Qed.

(** C5 (as amended). Recovery response.  When [handleGoodPerformance]
    runs after the recovery delay, on a star field whose count [c] is
    below the original count [o] (itself at most 5000), with an FPS above
    50: the count grows by [min(floor(o * 0.1), o - c)] and does not
    exceed [o]; and in that same case, if glow was disabled, glow and
    trails are enabled again and [skipFrames] becomes 0.  In particular
    from 750 stars of 1000 the count becomes 850. *)
Theorem handleGoodPerformance_recovers (sf : StarField.t) (c o : Z)
  (data : PerformanceMonitor.Data) (now : Q) :
  consistent sf c ->
  StarField.originalStarCount sf = JS.Num (inject_Z o) ->
  (o <= 5000)%Z ->
  StarField.recoveryDelay (StarField.performanceOptimizations sf)
  <= now - StarField.lastRecovery (StarField.performanceOptimizations sf) ->
  (c < o)%Z ->
  50 < PerformanceMonitor.data_fps data ->
  let sf' := StarField.handleGoodPerformance data now sf in
  let grown := (c + Z.min (o / 10) (o - c))%Z in
  consistent sf' grown /\
  (grown <= o)%Z /\
  (Renderer.enableGlow (Renderer.config (StarField.renderer sf)) = false ->
   Renderer.enableGlow (Renderer.config (StarField.renderer sf')) = true /\
   Renderer.enableTrails (Renderer.config (StarField.renderer sf')) = true /\
   StarField.skipFrames (StarField.renderingOptimizations sf') = 0) /\
  (Renderer.enableGlow (Renderer.config (StarField.renderer sf)) = true ->
   StarField.renderer sf' = StarField.renderer sf /\
   StarField.renderingOptimizations sf' = StarField.renderingOptimizations sf) /\
  StarField.lastRecovery (StarField.performanceOptimizations sf') = now /\
  (c = 750%Z -> o = 1000%Z -> StarField.getStarCount sf' = JS.Num 850).
Proof.
  intros Hcons Horig H5000 Hdelay Hlt Hfps sf' grown.
  assert (Hcount : StarField.starCount sf = JS.Num (inject_Z c)) by apply Hcons.
  assert (Hc0 : (0 <= c)%Z) by apply Hcons.
  assert (Hdiv : (0 <= o / 10)%Z) by (apply Z.div_pos; lia).
  assert (Hstars : exists (l : list Star.t) (rc : nat),
    sf' = StarField.set_lastRecovery now
            ((if negb (Renderer.enableGlow (Renderer.config (StarField.renderer sf)))
              then fun s => StarField.set_skipFrames 0
                              (StarField.setTrailsEnabled true
                                 (StarField.setGlowEnabled true s))
              else fun s => s)
               (StarField.set_stars l rc
                  (StarField.set_starCount (JS.Num (inject_Z grown)) sf)))
    /\ length l = Z.to_nat grown).
  { subst sf'. unfold StarField.handleGoodPerformance.
    apply ltb_false_iff in Hdelay. rewrite Hdelay.
    unfold StarField.getStarCount. rewrite Hcount, Horig.
    cbn [JS.lt]. rewrite ltb_inject_Z.
    destruct (Z.ltb_spec c o) as [_ | Hge]; [| lia].
    apply ltb_true_iff in Hfps. rewrite Hfps. cbn [andb].
    cbn [JS.mul JS.lift2 JS.Math_floor JS.sub]. unfold Math.floor.
    rewrite Qfloor_fraction, Math_min_Num.
    pose proof (min_integer (o / 10) (o - c) _ (sub_integer o c)) as Hm.
    set (amount := Math.min (inject_Z (o / 10)) (inject_Z o - inject_Z c)) in *.
    cbn [JS.gt JS.lt JS.add JS.lift2].
    destruct (Math.ltb 0 amount) eqn:Epos.
    - assert (Hsum : inject_Z c + amount == inject_Z grown).
      { rewrite Hm. subst grown. now rewrite inject_Z_plus. }
      destruct (setStarCount_result sf c (inject_Z c + amount) Hcons)
        as (l & rc & E & L & _).
      rewrite (Qfloor_integer _ _ Hsum) in E, L.
      apply ltb_true_iff in Epos. rewrite Hm in Epos.
      change 0 with (inject_Z 0) in Epos. rewrite <- Zlt_Qlt in Epos.
      assert (Hk : Z.max 1 (Z.min 5000 grown) = grown) by (subst grown; lia).
      rewrite Hk in E, L. rewrite E. exists l, rc.
      split; [| exact L]. unfold Renderer.getConfig.
      cbn [StarField.renderer StarField.set_stars StarField.set_starCount].
      now destruct (Renderer.enableGlow (Renderer.config (StarField.renderer sf))).
    - apply ltb_false_iff in Epos. rewrite Hm in Epos.
      change 0 with (inject_Z 0) in Epos. rewrite <- Zle_Qle in Epos.
      assert (Hk : grown = c) by (subst grown; lia).
      exists (StarField.stars sf), (StarField.randomCalls sf).
      rewrite Hk, <- Hcount, set_starCount_eta. split; [| apply Hcons].
      unfold Renderer.getConfig.
      now destruct (Renderer.enableGlow (Renderer.config (StarField.renderer sf))). }
  destruct Hstars as (l & rc & E & L).
  assert (Hcons' : consistent sf' grown).
  { rewrite E.
    destruct (negb (Renderer.enableGlow (Renderer.config (StarField.renderer sf))));
      repeat split; try assumption; subst grown; lia. }
  split; [exact Hcons' |].
  split; [subst grown; lia |].
  split.
  { intros Hg. rewrite E, Hg. repeat split. }
  split.
  { intros Hg. rewrite E, Hg. split; reflexivity. }
  split.
  { rewrite E.
    now destruct (negb (Renderer.enableGlow (Renderer.config (StarField.renderer sf)))). }
  intros Ec Eo. destruct Hcons' as (Hc' & _).
  unfold StarField.getStarCount. rewrite Hc'. subst grown c o. reflexivity.
Qed.

End AdaptiveQualityProofs.

(** The degraded scenario: on the monitor's thirtieth reading of 15 FPS
    the low-performance callback runs, and 1000 stars become 750 with
    glow and trails off. *)
Lemma handleLowPerformance_shrinks_sample :
  let data := PerformanceMonitor.mkData 15 10 in
  let sf := StarField.set_performanceMonitor
              (fst (PerformanceMonitor.update 30000 fifteenMonitor)) fullField in
  snd (PerformanceMonitor.update 30000 fifteenMonitor)
  = Some (PerformanceMonitor.LowPerformance data) /\
  StarField.updatePerformanceMonitor (H := sampleHost) 30000 30000 fullField
  = StarField.handleLowPerformance (H := sampleHost) data 30000 sf /\
  StarField.getStarCount (StarField.handleLowPerformance (H := sampleHost) data 30000 sf)
  = JS.Num 750 /\
  length (StarField.stars (StarField.handleLowPerformance (H := sampleHost) data 30000 sf))
  = 750%nat /\
  Renderer.enableGlow
    (Renderer.config
       (StarField.renderer (StarField.handleLowPerformance (H := sampleHost) data 30000 sf)))
  = false /\
  Renderer.enableTrails
    (Renderer.config
       (StarField.renderer (StarField.handleLowPerformance (H := sampleHost) data 30000 sf)))
  = false.
Proof.
  intros data sf.
  split; [vm_compute; reflexivity |].
  split; [vm_compute; reflexivity |].
  assert (Hcons : consistent sf 1000).
  { split; [vm_compute; reflexivity | split; [vm_compute; reflexivity | discriminate]]. }
  assert (H5000 : (1000 <= 5000)%Z) by discriminate.
  assert (Hnow : 2000 <= 30000 - StarField.lastOptimization
                                   (StarField.performanceOptimizations sf))
    by (vm_compute; discriminate).
  destruct (handleLowPerformance_shrinks (H := sampleHost) sf 1000 data 30000
              Hcons H5000 eq_refl eq_refl Hnow) as (_ & _ & _ & _ & _ & Hscenario).
  apply Hscenario; reflexivity.
Defined.

(** The recovery scenario: on a reading of 55 FPS the good-performance
    callback runs on the throttled field, 750 stars become 850, and the
    effects are back. *)
Lemma handleGoodPerformance_recovers_sample :
  let data := PerformanceMonitor.mkData 55 10 in
  let sf := StarField.set_performanceMonitor
              (fst (PerformanceMonitor.update 36000 fiftyFiveMonitor)) throttledField in
  snd (PerformanceMonitor.update 36000 fiftyFiveMonitor)
  = Some (PerformanceMonitor.GoodPerformance data) /\
  StarField.updatePerformanceMonitor (H := sampleHost) 36000 36000
    (StarField.set_performanceMonitor fiftyFiveMonitor throttledField)
  = StarField.handleGoodPerformance (H := sampleHost) data 36000 sf /\
  StarField.getStarCount (StarField.handleGoodPerformance (H := sampleHost) data 36000 sf)
  = JS.Num 850 /\
  Renderer.enableGlow
    (Renderer.config
       (StarField.renderer (StarField.handleGoodPerformance (H := sampleHost) data 36000 sf)))
  = true /\
  Renderer.enableTrails
    (Renderer.config
       (StarField.renderer (StarField.handleGoodPerformance (H := sampleHost) data 36000 sf)))
  = true /\
  StarField.skipFrames
    (StarField.renderingOptimizations
       (StarField.handleGoodPerformance (H := sampleHost) data 36000 sf))
  = 0.
Proof.
  intros data sf.
  split; [vm_compute; reflexivity |].
  split; [vm_compute; reflexivity |].
  assert (Hcons : consistent sf 750).
  { split; [vm_compute; reflexivity | split; [vm_compute; reflexivity | discriminate]]. }
  assert (Horig : StarField.originalStarCount sf = JS.Num (inject_Z 1000))
    by (vm_compute; reflexivity).
  assert (H5000 : (1000 <= 5000)%Z) by discriminate.
  assert (Hdelay : StarField.recoveryDelay (StarField.performanceOptimizations sf)
                   <= 36000 - StarField.lastRecovery
                                (StarField.performanceOptimizations sf))
    by (vm_compute; discriminate).
  assert (Hlt : (750 < 1000)%Z) by reflexivity.
  assert (Hfps : 50 < PerformanceMonitor.data_fps data) by reflexivity.
  assert (Hglow : Renderer.enableGlow (Renderer.config (StarField.renderer sf)) = false)
    by (vm_compute; reflexivity).
  destruct (handleGoodPerformance_recovers (H := sampleHost) sf 750 1000 data 36000
              Hcons Horig H5000 Hdelay Hlt Hfps)
    as (_ & _ & Heffects & _ & _ & Hscenario).
  destruct (Heffects Hglow) as (Hg & Ht & Hs).
  split; [apply Hscenario; reflexivity |].
  split; [exact Hg | split; [exact Ht | exact Hs]].
Defined.

(** C5 as first stated fails: the effects are re-enabled only inside the
    branch that grows the count.  On the throttled field (750 stars of
    1000, glow off) a reading of 45 FPS invokes the good-performance
    callback after the recovery delay, and glow and trails stay off and
    the frame skipping stays; and on a field that holds its original 100
    stars with the effects disabled, 55 FPS leaves them disabled too. *)
Lemma recovery_leaves_effects_off :
  let data := PerformanceMonitor.mkData 45 10 in
  let sf := StarField.set_performanceMonitor
              (fst (PerformanceMonitor.update 36000 fortyFiveMonitor)) throttledField in
  let sf' := StarField.handleGoodPerformance (H := sampleHost) data 36000 sf in
  let full := StarField.handleGoodPerformance (H := sampleHost)
                (PerformanceMonitor.mkData 55 10) 40000 dimmedField in
  (snd (PerformanceMonitor.update 36000 fortyFiveMonitor)
   = Some (PerformanceMonitor.GoodPerformance data) /\
   StarField.updatePerformanceMonitor (H := sampleHost) 36000 36000
     (StarField.set_performanceMonitor fortyFiveMonitor throttledField) = sf' /\
   StarField.recoveryDelay (StarField.performanceOptimizations sf)
   <= 36000 - StarField.lastRecovery (StarField.performanceOptimizations sf) /\
   StarField.getStarCount sf = JS.Num 750 /\
   StarField.originalStarCount sf = JS.Num 1000 /\
   Renderer.enableGlow (Renderer.config (StarField.renderer sf)) = false /\
   Renderer.enableTrails (Renderer.config (StarField.renderer sf)) = false /\
   StarField.skipFrames (StarField.renderingOptimizations sf) = 1 /\
   StarField.getStarCount sf' = JS.Num 750 /\
   Renderer.enableGlow (Renderer.config (StarField.renderer sf')) = false /\
   Renderer.enableTrails (Renderer.config (StarField.renderer sf')) = false /\
   StarField.skipFrames (StarField.renderingOptimizations sf') = 1) /\
  (StarField.recoveryDelay (StarField.performanceOptimizations dimmedField)
   <= 40000 - StarField.lastRecovery (StarField.performanceOptimizations dimmedField) /\
   StarField.getStarCount dimmedField = JS.Num 100 /\
   StarField.originalStarCount dimmedField = JS.Num 100 /\
   Renderer.enableGlow (Renderer.config (StarField.renderer dimmedField)) = false /\
   Renderer.enableTrails (Renderer.config (StarField.renderer dimmedField)) = false /\
   StarField.skipFrames (StarField.renderingOptimizations dimmedField) = 1 /\
   StarField.getStarCount full = JS.Num 100 /\
   Renderer.enableGlow (Renderer.config (StarField.renderer full)) = false /\
   Renderer.enableTrails (Renderer.config (StarField.renderer full)) = false /\
   StarField.skipFrames (StarField.renderingOptimizations full) = 1).
Proof.
  intros data sf sf' full.
  split; repeat (split; [vm_compute; first [reflexivity | discriminate] |]);
    vm_compute; reflexivity.
Qed.

(** ** The FPS history of the performance monitor *)

Lemma pushFps_length (x maxLen : Z) (history : list Z) :
  (Z.of_nat (length history) <= maxLen)%Z ->
  (Z.of_nat (length (PerformanceMonitor.pushFps x maxLen history)) <= maxLen)%Z.
Proof.
  intros Hlen. unfold PerformanceMonitor.pushFps.
  destruct (Z.ltb_spec maxLen (Z.of_nat (length (history ++ [x])))) as [Hfull | Hroom].
  - destruct history as [| y rest]; cbn [app tl] in *.
    + cbn in *. lia.
    + rewrite length_app in *. cbn [length] in *. lia.
  - exact Hroom.
Qed.

Lemma pushFps_full (x : Z) (history : list Z) :
  length history = 60%nat ->
  PerformanceMonitor.pushFps x 60 history = tl history ++ [x].
Proof.
  intros Hlen. unfold PerformanceMonitor.pushFps.
  rewrite length_app, Hlen. cbn.
  destruct history; [discriminate | reflexivity].
Qed.

Lemma pushFps_room (x : Z) (history : list Z) :
  (length history < 60)%nat ->
  PerformanceMonitor.pushFps x 60 history = history ++ [x].
Proof.
  intros Hlen. unfold PerformanceMonitor.pushFps.
  destruct (Z.ltb_spec 60 (Z.of_nat (length (history ++ [x])))) as [Hfull | Hroom].
  - rewrite length_app in Hfull. cbn in Hfull. lia.
  - reflexivity.
Qed.

Lemma update_keeps_bound (currentTime : Q) (pm : PerformanceMonitor.t) :
  (Z.of_nat (length (PerformanceMonitor.fpsHistory pm))
   <= PerformanceMonitor.maxFpsHistory pm)%Z ->
  PerformanceMonitor.maxFpsHistory (fst (PerformanceMonitor.update currentTime pm))
  = PerformanceMonitor.maxFpsHistory pm /\
  (Z.of_nat (length (PerformanceMonitor.fpsHistory
                       (fst (PerformanceMonitor.update currentTime pm))))
   <= PerformanceMonitor.maxFpsHistory pm)%Z.
Proof.
  intros Hlen. unfold PerformanceMonitor.update.
  destruct (Qle_bool 1000 (currentTime - PerformanceMonitor.lastFpsUpdate pm)); cbn.
  - split; [reflexivity | now apply pushFps_length].
  - split; [reflexivity | exact Hlen].
Qed.

Lemma run_keeps_bound (times : list Q) :
  forall pm : PerformanceMonitor.t,
    (Z.of_nat (length (PerformanceMonitor.fpsHistory pm))
     <= PerformanceMonitor.maxFpsHistory pm)%Z ->
    PerformanceMonitor.maxFpsHistory (PerformanceMonitor.run times pm)
    = PerformanceMonitor.maxFpsHistory pm /\
    (Z.of_nat (length (PerformanceMonitor.fpsHistory (PerformanceMonitor.run times pm)))
     <= PerformanceMonitor.maxFpsHistory pm)%Z.
Proof.
  induction times as [| time times IH]; intros pm Hlen.
  - split; [reflexivity | exact Hlen].
  - cbn [PerformanceMonitor.run fold_left].
    destruct (update_keeps_bound time pm Hlen) as (Hmax & Hlen').
    rewrite <- Hmax in Hlen'.
    destruct (IH _ Hlen') as (Hmax2 & Hlen2).
    unfold PerformanceMonitor.run in *. rewrite Hmax2, Hmax in *.
    split; [reflexivity | exact Hlen2].
Qed.

(** C9. FPS history bound and eviction: after every sequence of
    [update] calls on a new monitor the history holds at most 60
    readings; a reading pushed into a full history evicts the oldest one
    and keeps the order of the others (first in, first out); into a
    history with room it is appended; and a frame within the current
    second leaves the history as it is. *)
Theorem fpsHistory_bounded_fifo :
  (forall times : list Q,
     (length (PerformanceMonitor.fpsHistory
                (PerformanceMonitor.run times PerformanceMonitor.new)) <= 60)%nat) /\
  (forall (pm : PerformanceMonitor.t) (currentTime : Q),
     PerformanceMonitor.maxFpsHistory pm = 60%Z ->
     1000 <= currentTime - PerformanceMonitor.lastFpsUpdate pm ->
     let pushed := PerformanceMonitor.fpsHistory
                     (fst (PerformanceMonitor.update currentTime pm)) in
     let reading := (PerformanceMonitor.frameCount pm + 1)%Z in
     (length (PerformanceMonitor.fpsHistory pm) = 60%nat ->
      pushed = tl (PerformanceMonitor.fpsHistory pm) ++ [reading]) /\
     ((length (PerformanceMonitor.fpsHistory pm) < 60)%nat ->
      pushed = PerformanceMonitor.fpsHistory pm ++ [reading])) /\
  (forall (pm : PerformanceMonitor.t) (currentTime : Q),
     ~ 1000 <= currentTime - PerformanceMonitor.lastFpsUpdate pm ->
     PerformanceMonitor.fpsHistory (fst (PerformanceMonitor.update currentTime pm))
     = PerformanceMonitor.fpsHistory pm).
Proof.
  split; [| split].
  - intros times.
    destruct (run_keeps_bound times PerformanceMonitor.new) as (_ & Hlen).
    + cbn. lia.
    + cbn in Hlen. lia.
  - intros pm currentTime Hmax Hsecond pushed reading.
    subst pushed reading. unfold PerformanceMonitor.update.
    apply Qle_bool_iff in Hsecond. rewrite Hsecond, Hmax. cbn.
    split; [apply pushFps_full | apply pushFps_room].
  - intros pm currentTime Hsecond. unfold PerformanceMonitor.update.
    destruct (Qle_bool 1000 (currentTime - PerformanceMonitor.lastFpsUpdate pm)) eqn:E.
    + apply Qle_bool_iff in E. contradiction.
    + reflexivity.
Qed.

(** A reading pushed into the full history 1..60 evicts the 1. *)
Lemma fpsHistory_bounded_fifo_sample :
  length (PerformanceMonitor.fpsHistory countingMonitor) = 60%nat /\
  PerformanceMonitor.fpsHistory (fst (PerformanceMonitor.update 61000 countingMonitor))
  = map Z.of_nat (seq 2 59) ++ [7%Z].
Proof.
  split; [reflexivity |].
  destruct fpsHistory_bounded_fifo as (_ & Hpush & _).
  destruct (Hpush countingMonitor 61000 eq_refl) as (Hfull & _).
  - discriminate.
  - exact (Hfull eq_refl).
Defined.

(** ** Colour-scheme transitions of the renderer *)

Lemma min_cases (a b : Q) :
  (a <= b /\ Math.min a b = a) \/ (b < a /\ Math.min a b = b).
Proof.
  unfold Math.min. destruct (Qle_bool a b) eqn:E.
  - left. split; [now apply Qle_bool_iff | reflexivity].
  - right. split; [| reflexivity].
    apply ltb_true_iff. unfold Math.ltb. now rewrite E.
Qed.

Lemma div_le_mono (a b d : Q) : 0 < d -> a <= b -> a / d <= b / d.
Proof.
  intros Hd Hab. unfold Qdiv. apply Qmult_le_compat_r; [exact Hab |].
  apply Qlt_le_weak. now apply Qinv_lt_0_compat.
Qed.


Lemma div_nonneg (a d : Q) : 0 < d -> 0 <= a -> 0 <= a / d.
Proof.
  intros Hd Ha. apply Qle_shift_div_l; [exact Hd |]. now rewrite Qmult_0_l.
Qed.






Section RendererProofs.

Context `{Host}.


End RendererProofs.


(** ** The rotation target of the input handler *)

Lemma PI_pos : 0 < Math.PI.
Proof. reflexivity. Qed.

Lemma inject_nat_succ (n : nat) :
  inject_Z (Z.of_nat (S n)) == inject_Z (Z.of_nat n) + 1.
Proof. rewrite Nat2Z.inj_succ. unfold Z.succ. now rewrite inject_Z_plus. Qed.

(** With enough fuel the first loop ends because its condition fails:
    the result is at most pi; it is the argument itself when the body
    never ran, and above -pi when it ran. *)
Lemma wrapAbove_ends (fuel : nat) :
  forall rot : Q,
    rot <= Math.PI + inject_Z (Z.of_nat fuel) * (2 * Math.PI) ->
    InputHandler.wrapAbove fuel rot <= Math.PI /\
    (InputHandler.wrapAbove fuel rot = rot \/ - Math.PI < InputHandler.wrapAbove fuel rot).
Proof.
  pose proof PI_pos as Hpi.
  induction fuel as [| fuel IH]; intros rot Hrot.
  - change (inject_Z (Z.of_nat 0)) with 0 in Hrot. cbn [InputHandler.wrapAbove].
    split; [lra | now left].
  - cbn [InputHandler.wrapAbove].
    destruct (Math.ltb Math.PI rot) eqn:E.
    + apply ltb_true_iff in E. rewrite inject_nat_succ in Hrot.
      destruct (IH (rot - 2 * Math.PI)) as (Hle & [Heq | Hgt]); [lra | |].
      * rewrite Heq in Hle |- *. split; [lra | right; lra].
      * split; [exact Hle | now right].
    + apply ltb_false_iff in E. split; [exact E | now left].
Qed.

Lemma wrapBelow_ends (fuel : nat) :
  forall rot : Q,
    - Math.PI - inject_Z (Z.of_nat fuel) * (2 * Math.PI) <= rot ->
    - Math.PI <= InputHandler.wrapBelow fuel rot /\
    (InputHandler.wrapBelow fuel rot = rot \/ InputHandler.wrapBelow fuel rot < Math.PI).
Proof.
  pose proof PI_pos as Hpi.
  induction fuel as [| fuel IH]; intros rot Hrot.
  - change (inject_Z (Z.of_nat 0)) with 0 in Hrot. cbn [InputHandler.wrapBelow].
    split; [lra | now left].
  - cbn [InputHandler.wrapBelow].
    destruct (Math.ltb rot (- Math.PI)) eqn:E.
    + apply ltb_true_iff in E. rewrite inject_nat_succ in Hrot.
      destruct (IH (rot + 2 * Math.PI)) as (Hle & [Heq | Hlt]); [lra | |].
      * rewrite Heq in Hle |- *. split; [lra | right; lra].
      * split; [exact Hle | now right].
    + apply ltb_false_iff in E. split; [exact E | now left].
Qed.

(** More fuel than the loop needs changes nothing. *)
Lemma wrapAbove_fuel (fuel extra : nat) :
  forall rot : Q,
    rot <= Math.PI + inject_Z (Z.of_nat fuel) * (2 * Math.PI) ->
    InputHandler.wrapAbove (fuel + extra) rot = InputHandler.wrapAbove fuel rot.
Proof.
  pose proof PI_pos as Hpi.
  induction fuel as [| fuel IH]; intros rot Hrot.
  - change (inject_Z (Z.of_nat 0)) with 0 in Hrot.
    destruct extra as [| extra]; [reflexivity |].
    cbn [Nat.add InputHandler.wrapAbove].
    assert (E : Math.ltb Math.PI rot = false) by (apply ltb_false_iff; lra).
    now rewrite E.
  - cbn [Nat.add InputHandler.wrapAbove].
    destruct (Math.ltb Math.PI rot) eqn:E; [| reflexivity].
    rewrite inject_nat_succ in Hrot. apply IH. lra.
Qed.

Lemma wrapBelow_fuel (fuel extra : nat) :
  forall rot : Q,
    - Math.PI - inject_Z (Z.of_nat fuel) * (2 * Math.PI) <= rot ->
    InputHandler.wrapBelow (fuel + extra) rot = InputHandler.wrapBelow fuel rot.
Proof.
  pose proof PI_pos as Hpi.
  induction fuel as [| fuel IH]; intros rot Hrot.
  - change (inject_Z (Z.of_nat 0)) with 0 in Hrot.
    destruct extra as [| extra]; [reflexivity |].
    cbn [Nat.add InputHandler.wrapBelow].
    assert (E : Math.ltb rot (- Math.PI) = false) by (apply ltb_false_iff; lra).
    now rewrite E.
  - cbn [Nat.add InputHandler.wrapBelow].
    destruct (Math.ltb rot (- Math.PI)) eqn:E; [| reflexivity].
    rewrite inject_nat_succ in Hrot. apply IH. lra.
Qed.

Lemma turns_enough (rot : Q) :
  Qabs rot <= inject_Z (Z.of_nat (InputHandler.turns rot)) * (2 * Math.PI).
Proof.
  pose proof PI_pos as Hpi. unfold InputHandler.turns.
  set (x := Qabs rot / (2 * Math.PI)).
  assert (Hx0 : 0 <= x).
  { apply div_nonneg; [lra | apply Qabs_nonneg]. }
  assert (Hc0 : (0 <= Qceiling x)%Z).
  { change 0%Z with (Qceiling 0). now apply Qceiling_resp_le. }
  rewrite Z2Nat.id by exact Hc0.
  pose proof (Qle_ceiling x) as Hceil.
  assert (Hrot : Qabs rot == x * (2 * Math.PI)).
  { unfold x. field. lra. }
  rewrite Hrot. apply Qmult_le_compat_r; [exact Hceil | lra].
Qed.

Lemma turns_above (rot : Q) :
  rot <= Math.PI + inject_Z (Z.of_nat (InputHandler.turns rot)) * (2 * Math.PI).
Proof.
  pose proof PI_pos. pose proof (turns_enough rot). pose proof (Qle_Qabs rot). lra.
Qed.

Lemma turns_below (rot : Q) :
  - Math.PI - inject_Z (Z.of_nat (InputHandler.turns rot)) * (2 * Math.PI) <= rot.
Proof.
  pose proof PI_pos. pose proof (turns_enough rot).
  pose proof (Qle_Qabs (- rot)) as Hneg. rewrite Qabs_opp in Hneg. lra.
Qed.

Lemma max_cases (a b : Q) :
  (b <= a /\ Math.max a b = a) \/ (a < b /\ Math.max a b = b).
Proof.
  unfold Math.max. destruct (Qle_bool b a) eqn:E.
  - left. split; [now apply Qle_bool_iff | reflexivity].
  - right. split; [| reflexivity].
    apply ltb_true_iff. unfold Math.ltb. now rewrite E.
Qed.

Lemma clamp_bounds (m x : Q) :
  0 <= m ->
  - m <= Math.max (- m) (Math.min m x) /\ Math.max (- m) (Math.min m x) <= m.
Proof.
  intros Hm.
  destruct (min_cases m x) as [(H1 & ->) | (H1 & ->)];
    destruct (max_cases (- m) m) as [(H2 & E2) | (H2 & E2)];
    destruct (max_cases (- m) x) as [(H3 & E3) | (H3 & E3)];
    rewrite ?E2, ?E3; lra.
Qed.

Lemma applyRotationBounds_bounded (h : InputHandler.t) :
  0 <= InputHandler.maxRotation h ->
  bounded (InputHandler.applyRotationBounds h) /\
  InputHandler.maxRotation (InputHandler.applyRotationBounds h)
  = InputHandler.maxRotation h.
Proof.
  intros Hm. unfold InputHandler.applyRotationBounds, bounded. cbn.
  split; [| reflexivity].
  destruct (clamp_bounds _ (InputHandler.targetRotationX h) Hm) as (Hlo & Hhi).
  split; [exact Hlo | split; [exact Hhi |]].
  set (ry1 := InputHandler.wrapAbove _ _).
  destruct (wrapAbove_ends _ _ (turns_above (InputHandler.targetRotationY h)))
    as (Hup & _). fold ry1 in Hup.
  destruct (wrapBelow_ends _ _ (turns_below ry1)) as (Hdown & [Heq | Hlt]).
  - split; [exact Hdown |]. rewrite Heq. exact Hup.
  - split; [exact Hdown | lra].
Qed.

Lemma handle_bounded (h : InputHandler.t) (e : InputHandler.Event) :
  0 <= InputHandler.maxRotation h ->
  bounded h ->
  bounded (InputHandler.handle h e) /\
  InputHandler.maxRotation (InputHandler.handle h e) = InputHandler.maxRotation h.
Proof.
  intros Hm Hb.
  destruct e as [event rect | | | | touches rect | touches rect | touches rect | |];
    cbn [InputHandler.handle].
  - unfold InputHandler.handleMouseMove.
    cbn [InputHandler.set_mouse InputHandler.isMouseDown].
    destruct (InputHandler.isMouseDown h); [| split; [exact Hb | reflexivity]].
    match goal with
    | |- context [InputHandler.applyRotationBounds ?arg] =>
        destruct (applyRotationBounds_bounded arg Hm) as (Hb' & Hm')
    end.
    split; [exact Hb' | exact Hm'].
  - split; [exact Hb | reflexivity].
  - split; [exact Hb | reflexivity].
  - split; [exact Hb | reflexivity].
  - unfold InputHandler.handleTouchStart.
    destruct touches as [| t1 [| t2 rest]]; split; solve [exact Hb | reflexivity].
  - unfold InputHandler.handleTouchMove.
    destruct touches as [| t1 [| t2 rest]]; try (split; [exact Hb | reflexivity]).
    destruct (InputHandler.isTouchActive h && negb (InputHandler.multiTouchActive h));
      [| split; [exact Hb | reflexivity]].
    match goal with
    | |- context [InputHandler.applyRotationBounds ?arg] =>
        destruct (applyRotationBounds_bounded arg Hm) as (Hb' & Hm')
    end.
    split; [exact Hb' | exact Hm'].
  - unfold InputHandler.handleTouchEnd.
    destruct touches as [| t1 [| t2 rest]]; try (split; [exact Hb | reflexivity]).
    destruct (InputHandler.multiTouchActive h); split; solve [exact Hb | reflexivity].
  - split; [exact Hb | reflexivity].
  - unfold InputHandler.update.
    destruct (negb (InputHandler.isUpdating h)); split; solve [exact Hb | reflexivity].
Qed.

Lemma run_bounded (events : list InputHandler.Event) :
  forall h : InputHandler.t,
    0 <= InputHandler.maxRotation h ->
    bounded h ->
    bounded (InputHandler.run events h) /\
    InputHandler.maxRotation (InputHandler.run events h) = InputHandler.maxRotation h.
Proof.
  induction events as [| e events IH]; intros h Hm Hb.
  - split; [exact Hb | reflexivity].
  - cbn [InputHandler.run fold_left].
    destruct (handle_bounded h e Hm Hb) as (Hb' & Hm').
    assert (Hm2 : 0 <= InputHandler.maxRotation (InputHandler.handle h e))
      by now rewrite Hm'.
    destruct (IH _ Hm2 Hb') as (Hb2 & Hm3).
    unfold InputHandler.run in *. rewrite Hm3, Hm'.
    split; [exact Hb2 | reflexivity].
Qed.

(** C6 (as amended). Rotation bounding: after every sequence of pointer
    events processed by an input handler constructed with a
    non-negative [maxRotation], the vertical target lies in
    [[-maxRotation, maxRotation]] and the horizontal target lies in the
    closed interval [[-pi, pi]] (pi being [Math.PI]). *)
Theorem target_rotation_bounded (options : InputHandler.Options)
  (events : list InputHandler.Event) :
  0 <= InputHandler.maxRotation (InputHandler.new options) ->
  let h := InputHandler.run events (InputHandler.new options) in
  - InputHandler.maxRotation h <= InputHandler.targetRotationX h /\
  InputHandler.targetRotationX h <= InputHandler.maxRotation h /\
  - Math.PI <= InputHandler.targetRotationY h /\
  InputHandler.targetRotationY h <= Math.PI.
Proof.
  intros Hm h.
  assert (Hb0 : bounded (InputHandler.new options)).
  { pose proof PI_pos. unfold bounded. cbn in *. repeat split; lra. }
  destruct (run_bounded events _ Hm Hb0) as (Hb & Hm').
  fold h in Hb, Hm'. unfold bounded in Hb. rewrite Hm' in *. exact Hb.
Qed.

(** The bounds after [dragLeft] on a handler with its default options. *)
Lemma target_rotation_bounded_sample :
  let h := InputHandler.run dragLeft (InputHandler.new defaultOptions) in
  0 <= InputHandler.maxRotation (InputHandler.new defaultOptions) /\
  - Math.PI <= InputHandler.targetRotationY h /\
  InputHandler.targetRotationY h <= Math.PI.
Proof.
  intros h.
  assert (Hm : 0 <= InputHandler.maxRotation (InputHandler.new defaultOptions))
    by discriminate.
  split; [exact Hm |].
  destruct (target_rotation_bounded defaultOptions dragLeft Hm) as (_ & _ & Hlo & Hhi).
  split; [exact Hlo | exact Hhi].
Defined.

(** C6 as first stated fails at the lower end of the interval: a drag
    that turns the target by exactly [-Math.PI] leaves it there, since
    neither loop of [applyRotationBounds] runs at [-Math.PI].  And a
    handler constructed with a negative [maxRotation] clamps the
    vertical target to [-maxRotation], which is above [maxRotation]. *)
Lemma target_rotation_reaches_minus_PI :
  let drag :=
    [InputHandler.MouseDown;
     InputHandler.MouseMove (InputHandler.mkPointer (-1) 0) (InputHandler.mkRect 0 0)] in
  let h := InputHandler.run drag (InputHandler.new sensitiveOptions) in
  let h' := InputHandler.run drag (InputHandler.new negativeOptions) in
  (InputHandler.targetRotationY h == - Math.PI /\
   ~ (- Math.PI < InputHandler.targetRotationY h)) /\
  (InputHandler.targetRotationX h' == 1 /\
   InputHandler.maxRotation h' == -1 /\
   ~ (InputHandler.targetRotationX h' <= InputHandler.maxRotation h')).
Proof.
  split; split.
  - vm_compute. reflexivity.
  - intros Hlt. vm_compute in Hlt. discriminate Hlt.
  - vm_compute. reflexivity.
  - split; [vm_compute; reflexivity |].
    intros Hle. vm_compute in Hle. apply Hle. reflexivity.
Qed.

(** ** Invalid configuration input *)

Lemma clamp_range (lo hi x : Q) :
  lo <= hi ->
  lo <= Math.max lo (Math.min hi x) /\ Math.max lo (Math.min hi x) <= hi /\
  (lo <= x -> x <= hi -> Math.max lo (Math.min hi x) == x).
Proof.
  intros Hlh.
  destruct (min_cases hi x) as [(H1 & ->) | (H1 & ->)];
    [destruct (max_cases lo hi) as [(H2 & ->) | (H2 & ->)]
    | destruct (max_cases lo x) as [(H2 & ->) | (H2 & ->)]];
    repeat split; try lra; intros; lra.
Qed.

Section ConfigurationProofs.

Context `{Host}.

(** C7. Invalid configuration input, at the input [NaN] of the star
    field's own setters: [setStarCount(NaN)] stores [NaN] as the count
    and removes every star, and [setSpeed(NaN)] stores [NaN] as the
    speed; neither keeps the prior value, whatever the star field. *)
Theorem setters_store_NaN (sf : StarField.t) :
  StarField.getStarCount (StarField.setStarCount JS.NaN sf) = JS.NaN /\
  StarField.stars (StarField.setStarCount JS.NaN sf) = [] /\
  StarField.getSpeed (StarField.setSpeed JS.NaN sf) = JS.NaN.
Proof.
  unfold StarField.setStarCount, StarField.setSpeed.
  cbn [JS.Math_floor JS.Math_min JS.Math_max JS.strict_eq JS.gt].
  assert (Hgt : JS.gt JS.NaN (StarField.starCount sf) = false)
    by (unfold JS.gt; now destruct (StarField.starCount sf)).
  rewrite Hgt. split; [reflexivity | split; [| reflexivity]].
  cbn [StarField.stars StarField.set_stars StarField.set_starCount].
  unfold JS.splice. cbn [JS.ToIntegerOrInfinity Z.ltb Z.compare].
  rewrite Z.min_l by lia. reflexivity.
Qed.

(** [toFixed(1)] gives a whole number [n] of tenths: none above zero
    for a negative number, and otherwise the [n] with
    [n <= 10 q + 1/2 < n + 1]. *)
Lemma toFixed1_tenths (q : Q) :
  exists n : Z,
    ConfigPanel.toFixed1 q * 10 == inject_Z n /\
    (q < 0 -> ConfigPanel.toFixed1 q <= 0) /\
    (0 <= q -> inject_Z n <= q * 10 + (1 # 2) /\ q * 10 + (1 # 2) < inject_Z n + 1).
Proof.
  unfold ConfigPanel.toFixed1. destruct (Math.ltb q 0) eqn:E.
  - apply ltb_true_iff in E.
    pose proof (Qlt_floor ((- q) * 10 + (1 # 2))) as Hup.
    rewrite inject_Z_plus in Hup. change (inject_Z 1) with 1 in Hup.
    set (m := Qfloor ((- q) * 10 + (1 # 2))) in *.
    assert (Hm : 0 <= inject_Z m).
    { change 0 with (inject_Z 0). rewrite <- Zle_Qle.
      assert (Hlt : inject_Z (-1) < inject_Z m)
        by (change (inject_Z (-1)) with (-1); lra).
      rewrite <- Zlt_Qlt in Hlt. lia. }
    exists (- m)%Z. rewrite inject_Z_opp. clearbody m.
    split; [field | split; [intros _ | intros; lra]].
    unfold Qdiv. change (/ 10) with (1 # 10). lra.
  - apply ltb_false_iff in E.
    pose proof (Qfloor_le (q * 10 + (1 # 2))) as Hlow.
    pose proof (Qlt_floor (q * 10 + (1 # 2))) as Hup.
    rewrite inject_Z_plus in Hup. change (inject_Z 1) with 1 in Hup.
    exists (Qfloor (q * 10 + (1 # 2))).
    split; [field | split; [intros; lra | intros _; split; assumption]].
Qed.

(** The validators of the configuration panel: [NaN] gives back the
    stored value; a finite star count is floored and clamped to
    [100, 5000]; a finite speed becomes a whole number of tenths from
    0.1 to 5: 0.1 for a speed of at most 0.1, 5 for a speed of at least
    5, and in between the tenth nearest to the speed, the larger one
    when two are equally near. *)
Theorem validators_clamp_or_retain (p : ConfigPanel.t) :
  ConfigPanel.validateStarCount JS.NaN p = ConfigPanel.starCount (ConfigPanel.config p) /\
  ConfigPanel.validateSpeed JS.NaN p = ConfigPanel.speed (ConfigPanel.config p) /\
  (forall q : Q,
     ConfigPanel.validateStarCount (JS.Num q) p
     = JS.Num (inject_Z (Z.max 100 (Z.min 5000 (Qfloor q))))) /\
  (forall q : Q,
     exists (v : Q) (k : Z),
       ConfigPanel.validateSpeed (JS.Num q) p = JS.Num v /\
       v * 10 == inject_Z k /\ (1 <= k <= 50)%Z /\
       (q <= (1 # 10) -> v == (1 # 10)) /\
       (5 <= q -> v == 5) /\
       ((1 # 10) <= q -> q <= 5 -> q - (1 # 20) < v /\ v <= q + (1 # 20))).
Proof.
  split; [reflexivity | split; [reflexivity | split]].
  - intros q. unfold ConfigPanel.validateStarCount.
    cbn [JS.isNaN JS.Math_floor]. unfold Math.floor.
    change (JS.Num 5000) with (JS.Num (inject_Z 5000)).
    change (JS.Num 100) with (JS.Num (inject_Z 100)).
    now rewrite Math_min_inject_Z, Math_max_inject_Z.
  - intros q. unfold ConfigPanel.validateSpeed.
    rewrite Math_min_Num, Math_max_Num.
    destruct (toFixed1_tenths q) as (n & Hn & Hneg & Hpos).
    set (t := ConfigPanel.toFixed1 q) in *. clearbody t.
    assert (Hq : q < 0 \/ 0 <= q)
      by (destruct (Qlt_le_dec q 0); [left | right]; assumption).
    destruct (min_cases 5 t) as [(H1 & ->) | (H1 & ->)].
    + (* 5 <= t: the result is 5 *)
      destruct (max_cases (1 # 10) 5) as [(H2 & E2) | (H2 & E2)]; [exfalso; lra |].
      rewrite E2. exists 5, 50%Z.
      split; [reflexivity | split; [reflexivity | split; [lia |]]].
      destruct Hq as [Hq | Hq]; [specialize (Hneg Hq); exfalso; lra |].
      destruct (Hpos Hq) as (Ha & Hb).
      split; [intros; lra | split; [intros; lra | intros; split; lra]].
    + destruct (max_cases (1 # 10) t) as [(H3 & E3) | (H3 & E3)]; rewrite E3.
      * (* t <= 0.1: the result is 0.1 *)
        exists (1 # 10), 1%Z.
        split; [reflexivity | split; [reflexivity | split; [lia |]]].
        split; [intros; lra |].
        destruct Hq as [Hq | Hq]; [split; intros; exfalso; lra |].
        destruct (Hpos Hq) as (Ha & Hb).
        split; [intros; exfalso; lra | intros; split; lra].
      * (* 0.1 < t < 5: the result is t *)
        exists t, n.
        assert (Hlo : (2 <= n)%Z).
        { assert (Hlt : inject_Z 1 < inject_Z n) by (change (inject_Z 1) with 1; lra).
          rewrite <- Zlt_Qlt in Hlt. lia. }
        assert (Hhi : (n <= 49)%Z).
        { assert (Hlt : inject_Z n < inject_Z 50) by (change (inject_Z 50) with 50; lra).
          rewrite <- Zlt_Qlt in Hlt. lia. }
        split; [reflexivity | split; [exact Hn | split; [lia |]]].
        assert (Hlo' : 2 <= inject_Z n)
          by (change 2 with (inject_Z 2); rewrite <- Zle_Qle; exact Hlo).
        assert (Hhi' : inject_Z n <= 49)
          by (change 49 with (inject_Z 49); rewrite <- Zle_Qle; exact Hhi).
        destruct Hq as [Hq | Hq]; [specialize (Hneg Hq); exfalso; lra |].
        destruct (Hpos Hq) as (Ha & Hb).
        split; [intros; exfalso; lra | split; [intros; exfalso; lra | intros; split; lra]].
Qed.

(** A [NaN] typed into the panel changes nothing: neither the panel's
    configuration nor the star field. *)
Theorem handlers_ignore_NaN (p : ConfigPanel.t) :
  JS.isNaN (ConfigPanel.starCount (ConfigPanel.config p)) = false ->
  JS.isNaN (ConfigPanel.speed (ConfigPanel.config p)) = false ->
  ConfigPanel.handleStarCountChange JS.NaN p = p /\
  ConfigPanel.handleSpeedChange JS.NaN p = p.
Proof.
  intros Hcount Hspeed.
  unfold ConfigPanel.handleStarCountChange, ConfigPanel.handleSpeedChange.
  cbn [ConfigPanel.validateStarCount ConfigPanel.validateSpeed JS.isNaN].
  destruct (ConfigPanel.starCount (ConfigPanel.config p)) as [| c]; [discriminate |].
  destruct (ConfigPanel.speed (ConfigPanel.config p)) as [| v]; [discriminate |].
  cbn [JS.strict_eq].
  assert (Ec : Qeq_bool c c = true) by (apply Qeq_bool_iff; reflexivity).
  assert (Ev : Qeq_bool v v = true) by (apply Qeq_bool_iff; reflexivity).
  rewrite Ec, Ev. split; reflexivity.
Qed.

(** [setSpeed] on a finite number clamps it to [0.1, 5]. *)
Theorem setSpeed_clamps (sf : StarField.t) (q : Q) :
  exists v : Q,
    StarField.getSpeed (StarField.setSpeed (JS.Num q) sf) = JS.Num v /\
    (1 # 10) <= v /\ v <= 5 /\
    ((1 # 10) <= q -> q <= 5 -> v == q).
Proof.
  unfold StarField.setSpeed, StarField.getSpeed. cbn [StarField.speed StarField.set_speed].
  rewrite Math_min_Num, Math_max_Num. eexists. split; [reflexivity |].
  apply clamp_range. discriminate.
Qed.

End ConfigurationProofs.

(** A new panel ignores a [NaN] star count and a [NaN] speed. *)
Lemma handlers_ignore_NaN_sample :
  ConfigPanel.handleStarCountChange (H := sampleHost) JS.NaN (ConfigPanel.new smallField)
  = ConfigPanel.new smallField /\
  ConfigPanel.handleSpeedChange JS.NaN (ConfigPanel.new smallField)
  = ConfigPanel.new smallField.
Proof.
  exact (handlers_ignore_NaN (H := sampleHost) (ConfigPanel.new smallField) eq_refl eq_refl).
Defined.

(** ** Brightness of a star *)

Lemma clamp01_cases (v : Q) :
  (v <= 0 /\ Math.max 0 (Math.min 1 v) == 0) \/
  (0 <= v /\ v <= 1 /\ Math.max 0 (Math.min 1 v) == v) \/
  (1 <= v /\ Math.max 0 (Math.min 1 v) == 1).
Proof.
  destruct (min_cases 1 v) as [(H1 & ->) | (H1 & ->)].
  - right. right. split; [exact H1 |].
    destruct (max_cases 0 1) as [(H2 & ->) | (H2 & ->)]; lra.
  - destruct (max_cases 0 v) as [(H2 & ->) | (H2 & ->)].
    + left. split; [exact H2 | reflexivity].
    + right. left. repeat split; lra.
Qed.

(** Brightness falls with distance: of two stars with the same distance
    bounds the nearer one is at least as bright; the brightness is 1 at
    [minDistance] and 0 at [maxDistance], and always within [0, 1]. *)
Theorem getBrightness_monotone (s1 s2 : Star.t) :
  Star.minDistance s1 < Star.maxDistance s1 ->
  Star.minDistance s2 = Star.minDistance s1 ->
  Star.maxDistance s2 = Star.maxDistance s1 ->
  (Star.z s1 <= Star.z s2 -> Star.getBrightness s2 <= Star.getBrightness s1) /\
  (Star.z s1 == Star.minDistance s1 -> Star.getBrightness s1 == 1) /\
  (Star.z s1 == Star.maxDistance s1 -> Star.getBrightness s1 == 0) /\
  0 <= Star.getBrightness s1 /\ Star.getBrightness s1 <= 1.
Proof.
  intros Hmm Emin Emax. unfold Star.getBrightness. rewrite Emin, Emax.
  set (a := Star.minDistance s1) in *. set (b := Star.maxDistance s1) in *.
  assert (Hd : 0 < b - a) by lra.
  set (u1 := (Star.z s1 - a) / (b - a)).
  set (u2 := (Star.z s2 - a) / (b - a)).
  pose proof (clamp01_cases (1 - u1)) as C1.
  pose proof (clamp01_cases (1 - u2)) as C2.
  split; [| split; [| split]].
  - intros Hz.
    assert (Hu : u1 <= u2) by (apply div_le_mono; [exact Hd | lra]).
    destruct C1 as [(A1 & E1) | [(A1 & A1' & E1) | (A1 & E1)]];
      destruct C2 as [(A2 & E2) | [(A2 & A2' & E2) | (A2 & E2)]];
      rewrite E1, E2; lra.
  - intros Hz.
    assert (Hu : u1 == 0) by (unfold u1; rewrite Hz; field; lra).
    destruct C1 as [(A1 & E1) | [(A1 & A1' & E1) | (A1 & E1)]]; rewrite E1; lra.
  - intros Hz.
    assert (Hu : u1 == 1) by (unfold u1; rewrite Hz; field; lra).
    destruct C1 as [(A1 & E1) | [(A1 & A1' & E1) | (A1 & E1)]]; rewrite E1; lra.
  - destruct C1 as [(A1 & E1) | [(A1 & A1' & E1) | (A1 & E1)]]; rewrite E1; lra.
Qed.

(** [nearStar] is at least as bright as [farStar], which is dark. *)
Lemma getBrightness_monotone_sample :
  Star.getBrightness farStar <= Star.getBrightness nearStar /\
  Star.getBrightness farStar == 0.
Proof.
  destruct (getBrightness_monotone nearStar farStar) as (Hmono & _);
    [reflexivity | reflexivity | reflexivity |].
  destruct (getBrightness_monotone farStar farStar) as (_ & _ & Hzero & _);
    [reflexivity | reflexivity | reflexivity |].
  split; [apply Hmono; discriminate | apply Hzero; reflexivity].
Defined.

(** ** Where the stars are *)

Lemma for_lt_invariant {S : Type} (P : S -> Prop) (body : S -> S) :
  (forall s, P s -> P (body s)) ->
  forall (fuel : nat) (i b : JS.number) (s : S),
    P s -> P (JS.for_lt fuel i b body s).
Proof.
  intros Hbody. induction fuel as [| fuel IH]; intros i b s Hs; cbn; [exact Hs |].
  destruct (JS.lt i b); [apply IH, Hbody, Hs | exact Hs].
Qed.

Lemma Forall_firstn {A : Type} (P : A -> Prop) (n : nat) (l : list A) :
  Forall P l -> Forall P (firstn n l).
Proof.
  revert l. induction n as [| n IH]; intros l Hl; [constructor |].
  destruct Hl as [| a l Ha Hl]; cbn; constructor; [exact Ha | now apply IH].
Qed.

Section PlacementProofs.

Context `{Host}.
Hypothesis random_unit : unitRandom.

Lemma random_coordinate (k : nat) :
  -500 <= (Math_random k - (1 # 2)) * 500 * 2 /\
  (Math_random k - (1 # 2)) * 500 * 2 < 500.
Proof. destruct (random_unit k). split; lra. Qed.

Lemma random_speed (k : nat) :
  (1 # 2) <= Math_random k * (1 # 2) + (1 # 2) /\
  Math_random k * (1 # 2) + (1 # 2) <= 1.
Proof. destruct (random_unit k). split; lra. Qed.

Lemma createRandomStar_placed (k : nat) :
  placed (fst (StarField.createRandomStar k)) /\
  Star.z (fst (StarField.createRandomStar k)) < 1000.
Proof.
  unfold placed. cbn.
  pose proof (random_coordinate k). pose proof (random_coordinate (S k)).
  pose proof (random_speed (S (S (S k)))). destruct (random_unit (S (S k))).
  repeat split; try tauto; lra.
Qed.

Lemma reset_placed (k : nat) (s : Star.t) :
  Star.minDistance s = 1 -> Star.maxDistance s = 1000 ->
  placed (fst (Star.reset k s)) /\ Star.z (fst (Star.reset k s)) = 1000.
Proof.
  intros Hmin Hmax. unfold placed. cbn. rewrite Hmin, Hmax.
  pose proof (random_coordinate k). pose proof (random_coordinate (S k)).
  pose proof (random_speed (S (S k))).
  repeat split; try tauto; lra.
Qed.

Lemma decrement_nonneg (speed0 deltaTime : Q) (s : Star.t) :
  placed s -> 0 <= speed0 -> 0 <= deltaTime ->
  0 <= speed0 * Star.speed s * deltaTime * 60.
Proof.
  intros (_ & _ & _ & _ & (Hs & _) & _) Hv Hdt.
  apply Qmult_le_0_compat; [| lra].
  apply Qmult_le_0_compat; [| exact Hdt].
  apply Qmult_le_0_compat; [exact Hv | lra].
Qed.

Lemma update_placed (k : nat) (speed0 deltaTime : Q) (s : Star.t) :
  placed s -> 0 <= speed0 -> 0 <= deltaTime ->
  placed (fst (Star.update k speed0 deltaTime s)) /\
  1 < Star.z (fst (Star.update k speed0 deltaTime s)).
Proof.
  intros Hs Hv Hdt. pose proof (decrement_nonneg speed0 deltaTime s Hs Hv Hdt) as Hd.
  destruct Hs as (Hx & Hy & Hz & Hprev & Hspeed & (Hmin & Hmax)).
  unfold Star.update. cbn [Star.z Star.minDistance].
  destruct (Qle_bool _ _) eqn:E.
  - destruct (reset_placed k
                (Star.mk (Star.x s) (Star.y s)
                         (Star.z s - speed0 * Star.speed s * deltaTime * 60)
                         (Star.x s) (Star.y s) (Star.speed s)
                         (Star.maxDistance s) (Star.minDistance s)))
      as (Hp & Hz'); [exact Hmin | exact Hmax |].
    split; [exact Hp | rewrite Hz'; reflexivity].
  - assert (Hlt : Star.minDistance s < Star.z s - speed0 * Star.speed s * deltaTime * 60)
      by (apply ltb_true_iff; unfold Math.ltb; now rewrite E).
    rewrite Hmin in Hlt. unfold placed. cbn.
    repeat split; try tauto; lra.
Qed.

Lemma resetEach_placed (l : list Star.t) :
  forall k : nat,
    Forall placed l ->
    Forall (fun s => placed s /\ Star.z s = 1000) (fst (StarField.resetEach k l)) /\
    length (fst (StarField.resetEach k l)) = length l.
Proof.
  induction l as [| s l IH]; intros k Hl; cbn [StarField.resetEach];
    [split; [constructor | reflexivity] |].
  inversion Hl as [| s' l' Hs Hl']; subst.
  destruct (Star.reset k s) as [s1 k1] eqn:Es.
  specialize (IH k1 Hl'). destruct (StarField.resetEach k1 l) as [l1 k2].
  cbn [fst length] in *.
  destruct IH as (IH1 & IH2). split; [| now rewrite IH2].
  constructor; [| exact IH1].
  destruct Hs as (_ & _ & _ & _ & _ & (Hmin & Hmax)).
  pose proof (reset_placed k s Hmin Hmax) as Hr. rewrite Es in Hr. exact Hr.
Qed.

Lemma updateEach_placed (speed0 deltaTime : Q) (l : list Star.t) :
  0 <= speed0 -> 0 <= deltaTime ->
  forall k : nat,
    Forall placed l ->
    Forall (fun s => placed s /\ 1 < Star.z s)
           (fst (StarField.updateEach k speed0 deltaTime l)) /\
    length (fst (StarField.updateEach k speed0 deltaTime l)) = length l.
Proof.
  intros Hv Hdt.
  induction l as [| s l IH]; intros k Hl; cbn [StarField.updateEach];
    [split; [constructor | reflexivity] |].
  inversion Hl as [| s' l' Hs Hl']; subst.
  destruct (Star.update k speed0 deltaTime s) as [s1 k1] eqn:Es.
  specialize (IH k1 Hl').
  destruct (StarField.updateEach k1 speed0 deltaTime l) as [l1 k2].
  cbn [fst length] in *.
  destruct IH as (IH1 & IH2). split; [| now rewrite IH2].
  constructor; [| exact IH1].
  pose proof (update_placed k speed0 deltaTime s Hs Hv Hdt) as Hr.
  rewrite Es in Hr. exact Hr.
Qed.

Lemma pushRandomStar_placed (sf : StarField.t) :
  Forall placed (StarField.stars sf) ->
  Forall placed (StarField.stars (StarField.pushRandomStar sf)).
Proof.
  intros Hsf. unfold StarField.pushRandomStar.
  pose proof (createRandomStar_placed (StarField.randomCalls sf)) as (Hp & _).
  destruct (StarField.createRandomStar (StarField.randomCalls sf)) as [star k].
  cbn in *. apply Forall_app. split; [exact Hsf | constructor; [exact Hp | constructor]].
Qed.

Lemma setStarCount_placed (count : JS.number) (sf : StarField.t) :
  Forall placed (StarField.stars sf) ->
  Forall placed (StarField.stars (StarField.setStarCount count sf)).
Proof.
  intros Hsf. unfold StarField.setStarCount.
  destruct (JS.strict_eq _ _); [exact Hsf |].
  destruct (JS.gt _ _).
  - unfold JS.for_loop.
    apply (for_lt_invariant (fun s => Forall placed (StarField.stars s)));
      [exact pushRandomStar_placed | exact Hsf].
  - cbn. unfold JS.splice. now apply Forall_firstn.
Qed.

Lemma new_placed (width height : Q) (n : JS.number) :
  Forall placed (StarField.stars (StarField.new width height n)).
Proof.
  unfold StarField.new, StarField.initialize, JS.for_loop.
  apply (for_lt_invariant (fun s => Forall placed (StarField.stars s)));
    [exact pushRandomStar_placed | constructor].
Qed.

End PlacementProofs.

Lemma sampleHost_unitRandom : unitRandom (H := sampleHost).
Proof. intros k. cbn. split; lra. Qed.

(** What holds of the collection of stars and is kept by
    [setStarCount] is kept by the performance handlers and by the
    monitored frames: they change the collection through [setStarCount]
    only. *)
Section HandlersAndStars.

Context `{Host}.
Variable P : list Star.t -> Prop.
Hypothesis setStarCount_keeps :
  forall (count : JS.number) (sf : StarField.t),
    P (StarField.stars sf) -> P (StarField.stars (StarField.setStarCount count sf)).

Ltac settle_stars :=
  cbn [StarField.stars StarField.set_lastOptimization StarField.set_lastRecovery
       StarField.set_performanceOptimizations StarField.set_skipFrames
       StarField.set_renderingOptimizations StarField.setTrailsEnabled
       StarField.setGlowEnabled StarField.set_renderer
       StarField.set_performanceMonitor];
  try apply setStarCount_keeps; try assumption.

Lemma handleLowPerformance_stars (data : PerformanceMonitor.Data) (now : Q)
  (sf : StarField.t) :
  P (StarField.stars sf) ->
  P (StarField.stars (StarField.handleLowPerformance data now sf)).
Proof.
  intros Hsf. unfold StarField.handleLowPerformance.
  destruct (Math.ltb _ 2000); [exact Hsf |]. cbv zeta.
  destruct (JS.gt _ _); destruct (Math.ltb _ 20); settle_stars.
Qed.

Lemma handleGoodPerformance_stars (data : PerformanceMonitor.Data) (now : Q)
  (sf : StarField.t) :
  P (StarField.stars sf) ->
  P (StarField.stars (StarField.handleGoodPerformance data now sf)).
Proof.
  intros Hsf. unfold StarField.handleGoodPerformance.
  destruct (Math.ltb _ _); [exact Hsf |]. cbv zeta.
  destruct (JS.lt _ _ && Math.ltb _ _); [| settle_stars].
  destruct (JS.gt _ _); destruct (negb _); settle_stars.
Qed.

Lemma updatePerformanceMonitor_stars (currentTime now : Q) (sf : StarField.t) :
  P (StarField.stars sf) ->
  P (StarField.stars (StarField.updatePerformanceMonitor currentTime now sf)).
Proof.
  intros Hsf. unfold StarField.updatePerformanceMonitor.
  destruct (PerformanceMonitor.update _ _) as [pm n].
  unfold StarField.performanceCallback.
  destruct n as [[data | data] |];
    [destruct (StarField.autoOptimize _);
       [apply handleLowPerformance_stars |]
    | destruct (StarField.autoOptimize _);
       [apply handleGoodPerformance_stars |]
    |]; exact Hsf.
Qed.

Lemma frames_stars (fs : list (Q * Q)) :
  forall sf : StarField.t,
    P (StarField.stars sf) -> P (StarField.stars (StarField.frames fs sf)).
Proof.
  unfold StarField.frames.
  induction fs as [| f fs IH]; intros sf Hsf; cbn [fold_left]; [exact Hsf |].
  apply IH, updatePerformanceMonitor_stars, Hsf.
Qed.

End HandlersAndStars.

Section PlacementTheorems.

Context `{Host}.
Hypothesis random_unit : unitRandom.

(** The random positions.  With the host's random numbers in [0, 1), a
    star made by [createRandomStar] has [x] and [y] in [-500, 500), [z]
    in [0, 1000) and a speed multiplier in [0.5, 1]; [reset] gives a star
    new [x] and [y] in [-500, 500) and a new multiplier in [0.5, 1], puts
    it at its [maxDistance] and keeps its distance bounds.  In both the
    previous position is the position. *)
Theorem random_star_ranges (k : nat) (s : Star.t) :
  let created := fst (StarField.createRandomStar k) in
  let again := fst (Star.reset k s) in
  (placed created /\ Star.z created < 1000) /\
  (-500 <= Star.x again /\ Star.x again < 500) /\
  (-500 <= Star.y again /\ Star.y again < 500) /\
  ((1 # 2) <= Star.speed again /\ Star.speed again <= 1) /\
  Star.z again = Star.maxDistance s /\
  (Star.prevX again = Star.x again /\ Star.prevY again = Star.y again) /\
  (Star.minDistance again = Star.minDistance s /\
   Star.maxDistance again = Star.maxDistance s).
Proof.
  cbv zeta. split; [apply createRandomStar_placed, random_unit |].
  cbn.
  pose proof (random_coordinate random_unit k).
  pose proof (random_coordinate random_unit (S k)).
  pose proof (random_speed random_unit (S (S k))).
  repeat split; tauto.
Qed.

(** The stars stay where the star field puts them.  With the host's
    random numbers in [0, 1), every star of a constructed field is
    [placed], and [setStarCount], [resetStars], a frame's [updateStars]
    (at the field's speed, for a non-negative speed and delta) and the
    monitored frames with
    their performance handlers keep every star [placed]: [x] and [y] in
    [-500, 500), [z] in [0, 1000], the multiplier in [0.5, 1], and the
    previous position always equal to the position. *)
Theorem stars_stay_placed (width height : Q) (n : JS.number) (sf : StarField.t) :
  Forall placed (StarField.stars (StarField.new width height n)) /\
  (Forall placed (StarField.stars sf) ->
   (forall count : JS.number,
      Forall placed (StarField.stars (StarField.setStarCount count sf))) /\
   Forall placed (StarField.stars (StarField.resetStars sf)) /\
   (forall speed0 deltaTime : Q,
      StarField.speed sf = JS.Num speed0 -> 0 <= speed0 -> 0 <= deltaTime ->
      Forall placed (StarField.stars (StarField.updateStars speed0 deltaTime sf))) /\
   (forall fs : list (Q * Q),
      Forall placed (StarField.stars (StarField.frames fs sf)))).
Proof.
  split.
  - apply new_placed, random_unit.
  - intros Hsf. split; [| split; [| split]].
    + intros count. now apply setStarCount_placed.
    + unfold StarField.resetStars.
      destruct (resetEach_placed random_unit (StarField.stars sf)
                                 (StarField.randomCalls sf) Hsf) as (Hall & _).
      destruct (StarField.resetEach _ _) as [l k]. cbn in *.
      eapply Forall_impl; [| exact Hall]. intros s Hs. exact (proj1 Hs).
    + intros speed0 deltaTime _ Hv Hdt. unfold StarField.updateStars.
      destruct (StarField.shouldSkipFrame sf) as [skip sf1] eqn:Eskip.
      assert (Hsame : StarField.stars sf1 = StarField.stars sf).
      { unfold StarField.shouldSkipFrame in Eskip.
        destruct (Qle_bool _ 0); [| destruct (Math.ltb _ _)];
          inversion Eskip; reflexivity. }
      destruct skip; [rewrite Hsame; exact Hsf |].
      rewrite <- Hsame in Hsf.
      destruct (updateEach_placed random_unit speed0 deltaTime (StarField.stars sf1)
                                  Hv Hdt (StarField.randomCalls sf1) Hsf)
        as (Hall & _).
      destruct (StarField.updateEach _ _ _ _) as [l k]. cbn in *.
      eapply Forall_impl; [| exact Hall]. intros s Hs. exact (proj1 Hs).
    + intros fs.
      apply (frames_stars (Forall placed)); [| exact Hsf].
      intros count sf' Hsf'. now apply setStarCount_placed.
Qed.

(** A frame brings every star to life.  On a field of [placed] stars
    whose speed is a non-negative number, for a non-negative delta,
    [updateStars] at that speed keeps the number of stars; on a frame
    that is not skipped every star is afterwards
    visible with [1 < z <= 1000] (a star created nearer than
    [minDistance] is sent to the far plane), and a skipped frame leaves
    the stars as they are. *)
Theorem updateStars_brings_to_life (speed0 deltaTime : Q) (sf : StarField.t) :
  Forall placed (StarField.stars sf) ->
  StarField.speed sf = JS.Num speed0 ->
  0 <= speed0 -> 0 <= deltaTime ->
  let sf' := StarField.updateStars speed0 deltaTime sf in
  length (StarField.stars sf') = length (StarField.stars sf) /\
  (fst (StarField.shouldSkipFrame sf) = false ->
   Forall (fun s => Star.isVisible s = true /\ 1 < Star.z s /\ Star.z s <= 1000)
          (StarField.stars sf')) /\
  (fst (StarField.shouldSkipFrame sf) = true ->
   StarField.stars sf' = StarField.stars sf).
Proof.
  intros Hsf _ Hv Hdt. cbv zeta. unfold StarField.updateStars.
  destruct (StarField.shouldSkipFrame sf) as [skip sf1] eqn:Eskip.
  assert (Hsame : StarField.stars sf1 = StarField.stars sf).
  { unfold StarField.shouldSkipFrame in Eskip.
    destruct (Qle_bool _ 0); [| destruct (Math.ltb _ _)];
      inversion Eskip; reflexivity. }
  cbn [fst]. destruct skip.
  - split; [now rewrite Hsame | split; [discriminate | intros _; exact Hsame]].
  - rewrite <- Hsame in Hsf |- *.
    destruct (updateEach_placed random_unit speed0 deltaTime (StarField.stars sf1)
                                Hv Hdt (StarField.randomCalls sf1) Hsf)
      as (Hall & Hlen).
    destruct (StarField.updateEach _ _ _ _) as [l k]. cbn in *.
    split; [exact Hlen | split; [intros _ | discriminate]].
    eapply Forall_impl; [| exact Hall].
    intros s ((_ & _ & (_ & Hz) & _ & _ & (Hmin & Hmax)) & Hlive).
    split; [| split; [exact Hlive | exact Hz]].
    unfold Star.isVisible. rewrite Hmin, Hmax.
    apply andb_true_iff. split; apply Qle_bool_iff; lra.
Qed.

End PlacementTheorems.

(** On the sample host, whose random source always returns one half:
    the first star is at the centre, [z = 500], with multiplier 0.75. *)
Lemma random_star_ranges_sample :
  placed (fst (StarField.createRandomStar (H := sampleHost) 0)) /\
  Star.z (fst (StarField.createRandomStar (H := sampleHost) 0)) < 1000.
Proof.
  exact (proj1 (random_star_ranges (H := sampleHost) sampleHost_unitRandom 0 farStar)).
Defined.

(** The three stars of [smallField] are placed, and stay so when the
    count is set to five. *)
Lemma stars_stay_placed_sample :
  Forall placed (StarField.stars smallField) /\
  Forall placed (StarField.stars
                   (StarField.setStarCount (H := sampleHost) (JS.Num 5) smallField)).
Proof.
  destruct (stars_stay_placed (H := sampleHost) sampleHost_unitRandom
              800 600 (JS.Num 3) smallField)
    as (Hnew & Hkeep).
  split; [exact Hnew |].
  destruct (Hkeep Hnew) as (Hset & _). exact (Hset (JS.Num 5)).
Defined.

(** One frame of a quarter second at speed 1 on [smallField]: its
    three stars are all visible afterwards. *)
Lemma updateStars_brings_to_life_sample :
  Forall (fun s => Star.isVisible s = true /\ 1 < Star.z s /\ Star.z s <= 1000)
         (StarField.stars
            (StarField.updateStars (H := sampleHost) 1 (1 # 4) smallField)).
Proof.
  assert (Hplaced : Forall placed (StarField.stars smallField))
    by exact (new_placed (H := sampleHost) sampleHost_unitRandom 800 600 (JS.Num 3)).
  destruct (updateStars_brings_to_life (H := sampleHost) sampleHost_unitRandom
              1 (1 # 4) smallField Hplaced) as (_ & Hlive & _);
    [vm_compute; reflexivity | discriminate | discriminate |].
  apply Hlive. vm_compute. reflexivity.
Defined.

(** ** Skipped frames *)

Lemma set_frameSkipCounter_eta (sf : StarField.t) :
  StarField.set_frameSkipCounter
    (StarField.frameSkipCounter (StarField.renderingOptimizations sf)) sf = sf.
Proof. destruct sf as [? ? ? ? ? ? ? ? [? ? ? ? ?] ? ? ?]. reflexivity. Qed.

(** [calls] consecutive answers from the counter value [j], while
    [j + calls] does not exceed [skipFrames]: every frame is skipped and
    the counter advances by one each time. *)
Lemma skipAnswers_skipping (n : Z) (calls : nat) :
  forall (j : Z) (sf : StarField.t),
    StarField.skipFrames (StarField.renderingOptimizations sf) == inject_Z n ->
    StarField.frameSkipCounter (StarField.renderingOptimizations sf) == inject_Z j ->
    (0 <= j)%Z -> (j + Z.of_nat calls <= n)%Z ->
    exists counter : Q,
      counter == inject_Z (j + Z.of_nat calls) /\
      StarField.skipAnswers calls sf
      = (repeat true calls, StarField.set_frameSkipCounter counter sf).
Proof.
  induction calls as [| calls IH]; intros j sf Hn Hj Hj0 Hle.
  - exists (StarField.frameSkipCounter (StarField.renderingOptimizations sf)).
    split; [rewrite Hj, Z.add_0_r; reflexivity |].
    cbn [StarField.skipAnswers repeat]. now rewrite set_frameSkipCounter_eta.
  - cbn [StarField.skipAnswers]. unfold StarField.shouldSkipFrame.
    set (ro := StarField.renderingOptimizations sf) in *.
    assert (Hpos : ~ StarField.skipFrames ro <= 0).
    { rewrite Hn. change 0 with (inject_Z 0). rewrite <- Zle_Qle. lia. }
    destruct (Qle_bool (StarField.skipFrames ro) 0) eqn:E0;
      [apply Qle_bool_iff in E0; contradiction |].
    assert (Hcounter : StarField.frameSkipCounter ro + 1 == inject_Z (j + 1)).
    { rewrite Hj, inject_Z_plus. reflexivity. }
    assert (Hnot : Math.ltb (StarField.skipFrames ro) (StarField.frameSkipCounter ro + 1)
                   = false).
    { apply ltb_false_iff. rewrite Hn, Hcounter, <- Zle_Qle. lia. }
    rewrite Hnot.
    set (sf1 := StarField.set_renderingOptimizations _ sf).
    destruct (IH (j + 1)%Z sf1) as (counter & Hc & Hrun);
      [exact Hn | exact Hcounter | lia | lia |].
    rewrite Hrun. exists counter. split.
    + rewrite Hc. apply inject_Z_injective. lia.
    + reflexivity.
Qed.

(** The rhythm of skipped frames.  With [skipFrames] a positive integer
    [n] and the counter at 0, [n + 1] consecutive calls of
    [shouldSkipFrame] answer [true] [n] times and then [false], and
    leave the counter at 0 again: of every [n + 1] frames exactly one
    updates the stars.  With [skipFrames] at most 0 no frame is skipped
    and nothing is counted. *)
Theorem shouldSkipFrame_rhythm (n : nat) (sf : StarField.t) :
  let ro := StarField.renderingOptimizations sf in
  (StarField.skipFrames ro <= 0 -> StarField.shouldSkipFrame sf = (false, sf)) /\
  ((1 <= n)%nat ->
   StarField.skipFrames ro == inject_Z (Z.of_nat n) ->
   StarField.frameSkipCounter ro == 0 ->
   StarField.skipAnswers (S n) sf
   = (repeat true n ++ [false], StarField.set_frameSkipCounter 0 sf)).
Proof.
  cbv zeta. split.
  - intros Hle. unfold StarField.shouldSkipFrame.
    apply Qle_bool_iff in Hle. now rewrite Hle.
  - intros Hn Hskip Hzero.
    assert (Hlast : forall (calls : nat) (s : StarField.t),
               StarField.skipAnswers (calls + 1) s
               = (fst (StarField.skipAnswers calls s)
                    ++ [fst (StarField.shouldSkipFrame
                               (snd (StarField.skipAnswers calls s)))],
                  snd (StarField.shouldSkipFrame
                         (snd (StarField.skipAnswers calls s))))).
    { induction calls as [| calls IH]; intros s;
        cbn [StarField.skipAnswers Nat.add fst snd app].
      - destruct (StarField.shouldSkipFrame s) as [skip s1]. reflexivity.
      - destruct (StarField.shouldSkipFrame s) as [skip s1]. rewrite IH.
        destruct (StarField.skipAnswers calls s1) as [rest s2]. reflexivity. }
    replace (S n) with (n + 1)%nat by lia. rewrite Hlast.
    destruct (skipAnswers_skipping (Z.of_nat n) n 0%Z sf) as (counter & Hc & Hrun);
      [exact Hskip | exact Hzero | lia | lia |].
    rewrite Hrun. cbn [fst snd]. unfold StarField.shouldSkipFrame.
    cbn [StarField.renderingOptimizations StarField.set_frameSkipCounter
         StarField.set_renderingOptimizations StarField.skipFrames
         StarField.frameSkipCounter StarField.frustumCulling
         StarField.batchRendering StarField.maxBatchSize].
    set (ro := StarField.renderingOptimizations sf) in *.
    assert (Hpos : ~ StarField.skipFrames ro <= 0).
    { rewrite Hskip. change 0 with (inject_Z 0). rewrite <- Zle_Qle. lia. }
    destruct (Qle_bool (StarField.skipFrames ro) 0) eqn:E0;
      [apply Qle_bool_iff in E0; contradiction |].
    assert (Hover : Math.ltb (StarField.skipFrames ro) (counter + 1) = true).
    { apply ltb_true_iff. rewrite Hskip, Hc. rewrite Z.add_0_l.
      change 1 with (inject_Z 1). rewrite <- inject_Z_plus, <- Zlt_Qlt. lia. }
    rewrite Hover. cbn [fst snd]. reflexivity.
Qed.

(** After the low-performance handler has set [skipFrames] to 1, the
    frames alternate: skipped, then not. *)
Lemma shouldSkipFrame_rhythm_sample :
  StarField.skipAnswers 2 (StarField.set_skipFrames 1 smallField)
  = ([true; false],
     StarField.set_frameSkipCounter 0 (StarField.set_skipFrames 1 smallField)).
Proof.
  exact (proj2 (shouldSkipFrame_rhythm 1 (StarField.set_skipFrames 1 smallField))
               (le_n 1) (Qeq_refl _) (Qeq_refl _)).
Defined.

(** ** What is shown *)

Section VisibilityProofs.

Context `{Host}.

Lemma project3DTo2D_depth (c : Camera.t) (x y z : Q) (p : Camera.Point) :
  Camera.project3DTo2D c x y z = Some p ->
  0 < z /\ 0 < Camera.pz p /\ Camera.pz p = Camera.pz (Camera.applyRotation c x y z).
Proof.
  unfold Camera.project3DTo2D.
  destruct (Qle_bool z 0) eqn:E1; [discriminate |].
  destruct (Qle_bool (Camera.pz (Camera.applyRotation c x y z)) 0) eqn:E2;
    [discriminate |].
  assert (Hz : 0 < z) by (apply ltb_true_iff; unfold Math.ltb; now rewrite E1).
  assert (Hd : 0 < Camera.pz (Camera.applyRotation c x y z))
    by (apply ltb_true_iff; unfold Math.ltb; now rewrite E2).
  intros [= <-]. split; [exact Hz | split; [exact Hd | reflexivity]].
Qed.

(** The frustum test accepts only what the projection can draw.  For a
    camera with a non-negative near plane, a point that
    [isInViewFrustum] accepts lies strictly between the near and the far
    plane, and [project3DTo2D] gives it a screen position (never [null])
    whose depth is positive. *)
Theorem isInViewFrustum_projects (c : Camera.t) (x y z : Q) :
  0 <= Camera.near c ->
  Camera.isInViewFrustum c x y z = true ->
  Camera.near c < z /\ z < Camera.far c /\
  exists p : Camera.Point,
    Camera.project3DTo2D c x y z = Some p /\ 0 < Camera.pz p.
Proof.
  intros Hnear. unfold Camera.isInViewFrustum.
  destruct (Qle_bool z (Camera.near c)) eqn:E1; [discriminate |].
  destruct (Qle_bool (Camera.far c) z) eqn:E2; [discriminate |].
  cbn [orb].
  destruct (Qle_bool (Camera.pz (Camera.applyRotation c x y z)) 0) eqn:E3;
    [discriminate |].
  intros _.
  assert (H1 : Camera.near c < z)
    by (apply ltb_true_iff; unfold Math.ltb; now rewrite E1).
  assert (H2 : z < Camera.far c)
    by (apply ltb_true_iff; unfold Math.ltb; now rewrite E2).
  split; [exact H1 | split; [exact H2 |]].
  unfold Camera.project3DTo2D.
  assert (E0 : Qle_bool z 0 = false).
  { destruct (Qle_bool z 0) eqn:E0; [| reflexivity].
    apply Qle_bool_iff in E0. lra. }
  assert (Hd : 0 < Camera.pz (Camera.applyRotation c x y z))
    by (apply ltb_true_iff; unfold Math.ltb; now rewrite E3).
  rewrite E0. cbv zeta. rewrite E3. eexists. split; [reflexivity | exact Hd].
Qed.

Lemma pushIfVisible_shown (sf : StarField.t) (acc : list Renderer.StarData)
  (s : Star.t) :
  In s (StarField.stars sf) ->
  Forall (shown sf) acc ->
  Forall (shown sf) (StarField.pushIfVisible sf acc s) /\
  (length (StarField.pushIfVisible sf acc s) <= S (length acc))%nat.
Proof.
  intros Hin Hacc. unfold StarField.pushIfVisible.
  destruct (Star.isVisible s) eqn:Evis; cbn [negb]; [| split; [exact Hacc | lia]].
  destruct (StarField.frustumCulling (StarField.renderingOptimizations sf)
            && negb (StarField.isStarInFrustum s (StarField.calculateFrustumBounds sf)))
    eqn:Ecull; [split; [exact Hacc | lia] |].
  destruct (Star.getScreenPosition s (Some (StarField.camera sf))) as [pos |] eqn:Epos;
    [| split; [exact Hacc | lia]].
  destruct (Qle_bool (-50) (Camera.px pos)
            && Qle_bool (Camera.px pos) (StarField.canvasWidth sf + 50)
            && Qle_bool (-50) (Camera.py pos)
            && Qle_bool (Camera.py pos) (StarField.canvasHeight sf + 50)) eqn:Ebox;
    [| split; [exact Hacc | lia]].
  split; [| rewrite length_app; cbn; lia].
  apply Forall_app. split; [exact Hacc |]. constructor; [| constructor].
  unfold Star.getScreenPosition in Epos.
  destruct (Qle_bool (Star.z s) 0); [discriminate |].
  destruct (project3DTo2D_depth _ _ _ _ _ Epos) as (_ & Hdepth & _).
  repeat rewrite andb_true_iff in Ebox.
  destruct Ebox as (((B1 & B2) & B3) & B4).
  apply Qle_bool_iff in B1, B2, B3, B4.
  unfold shown. cbn [Renderer.star Renderer.screenPos Renderer.brightness Renderer.size].
  repeat split; try assumption.
  intros Hcull. rewrite Hcull in Ecull. cbn [andb] in Ecull.
  now apply negb_false_iff in Ecull.
Qed.

Lemma fold_pushIfVisible_shown (sf : StarField.t) (l : list Star.t) :
  forall acc : list Renderer.StarData,
    incl l (StarField.stars sf) ->
    Forall (shown sf) acc ->
    Forall (shown sf) (fold_left (StarField.pushIfVisible sf) l acc) /\
    (length (fold_left (StarField.pushIfVisible sf) l acc) <= length acc + length l)%nat.
Proof.
  induction l as [| s l IH]; intros acc Hincl Hacc; cbn [fold_left length].
  - split; [exact Hacc | lia].
  - destruct (pushIfVisible_shown sf acc s) as (Hshown & Hlen);
      [apply Hincl; now left | exact Hacc |].
    destruct (IH (StarField.pushIfVisible sf acc s)) as (IH1 & IH2);
      [intros a Ha; apply Hincl; now right | exact Hshown |].
    split; [exact IH1 | lia].
Qed.

(** What [getVisibleStars] hands to the renderer.  Every record is
    [shown]: it is made from a visible star of the field, positioned by
    the camera's projection, in front of the camera and within 50 pixels
    of the canvas, with the star's own brightness and size; and there
    are at most as many records as stars. *)
Theorem getVisibleStars_shown (sf : StarField.t) :
  Forall (shown sf) (StarField.getVisibleStars sf) /\
  (length (StarField.getVisibleStars sf) <= length (StarField.stars sf))%nat.
Proof.
  unfold StarField.getVisibleStars.
  destruct (fold_pushIfVisible_shown sf (StarField.stars sf) [])
    as (Hshown & Hlen); [apply incl_refl | constructor |].
  split; [exact Hshown | exact Hlen].
Qed.

End VisibilityProofs.

(** The sample camera accepts the point 100 units straight ahead, and
    projects it. *)
Lemma isInViewFrustum_projects_sample :
  exists p : Camera.Point,
    Camera.project3DTo2D (H := sampleHost) sampleCamera 0 0 100 = Some p /\
    0 < Camera.pz p.
Proof.
  destruct (isInViewFrustum_projects (H := sampleHost) sampleCamera 0 0 100)
    as (_ & _ & Hp); [discriminate | vm_compute; reflexivity | exact Hp].
Defined.

(** ** Colours *)

Lemma floor_le (lo : Z) (v : Q) : inject_Z lo <= v -> inject_Z lo <= Math.floor v.
Proof.
  intros Hlo. unfold Math.floor. rewrite <- Zle_Qle.
  rewrite <- (Qfloor_Z lo). now apply Qfloor_resp_le.
Qed.

Lemma round_integer (v : Q) (k : Z) : v == inject_Z k -> Math.round v = inject_Z k.
Proof.
  intros Hv. unfold Math.round. f_equal. apply Qfloor_unique.
  - rewrite Hv. lra.
  - rewrite Hv, inject_Z_plus. change (inject_Z 1) with 1. lra.
Qed.

Lemma round_between (lo hi : Z) (v : Q) :
  inject_Z lo <= v -> v <= inject_Z hi ->
  inject_Z lo <= Math.round v /\ Math.round v <= inject_Z hi.
Proof.
  intros Hlo Hhi. unfold Math.round. split.
  - apply (floor_le lo). lra.
  - rewrite <- Zle_Qle.
    replace hi with (Qfloor (inject_Z hi + (1 # 2))).
    + apply Qfloor_resp_le. lra.
    + apply Qfloor_unique; [lra |].
      rewrite inject_Z_plus. change (inject_Z 1) with 1. lra.
Qed.

Lemma square_unit (u : Q) : 0 <= u -> u <= 1 -> 0 <= u * u /\ u * u <= u.
Proof. intros H0 H1. split; nra. Qed.

Lemma cube_unit (u : Q) : 0 <= u -> u <= 1 -> 0 <= u * u * u /\ u * u * u <= 1.
Proof.
  intros H0 H1. destruct (square_unit u H0 H1) as (A & B).
  set (w := u * u) in *. split; nra.
Qed.

Lemma cube_mono (s t : Q) : 0 <= s -> s <= t -> s * s * s <= t * t * t.
Proof.
  intros H0 Hst. assert (A : s * s <= t * t) by nra.
  assert (B : 0 <= s * s) by nra.
  set (a := s * s) in *. set (b := t * t) in *. nra.
Qed.

Lemma Qpower_3 (u : Q) : Qpower u 3 == u * u * u.
Proof. simpl. ring. Qed.

Lemma ease_first_half (t : Q) :
  t < 1 # 2 -> Renderer.easeInOutCubic t = 4 * t * t * t.
Proof.
  intros Ht. unfold Renderer.easeInOutCubic.
  apply ltb_true_iff in Ht. now rewrite Ht.
Qed.

Lemma ease_second_half (t : Q) :
  1 # 2 <= t ->
  Renderer.easeInOutCubic t
  == 1 - (2 - 2 * t) * (2 - 2 * t) * (2 - 2 * t) * (1 # 2).
Proof.
  intros Ht. unfold Renderer.easeInOutCubic.
  apply ltb_false_iff in Ht. rewrite Ht, Qpower_3. field.
Qed.

Lemma ease_range (t : Q) :
  0 <= t -> t <= 1 ->
  0 <= Renderer.easeInOutCubic t /\ Renderer.easeInOutCubic t <= 1 /\
  (t < 1 # 2 -> Renderer.easeInOutCubic t <= 1 # 2) /\
  (1 # 2 <= t -> 1 # 2 <= Renderer.easeInOutCubic t).
Proof.
  intros H0 H1. destruct (Qlt_le_dec t (1 # 2)) as [Hlt | Hge].
  - rewrite (ease_first_half t Hlt).
    pose proof (cube_mono t (1 # 2) H0 (Qlt_le_weak _ _ Hlt)) as Hc.
    pose proof (cube_mono 0 t (Qle_refl 0) H0) as Hc0.
    assert (E : (1 # 2) * (1 # 2) * (1 # 2) == 1 # 8) by reflexivity.
    assert (E0 : 0 * 0 * 0 == 0) by reflexivity.
    rewrite E in Hc. rewrite E0 in Hc0.
    repeat split; intros; lra.
  - rewrite (ease_second_half t Hge).
    destruct (cube_unit (2 - 2 * t)) as (A & B); [lra | lra |].
    set (w := (2 - 2 * t) * (2 - 2 * t) * (2 - 2 * t)) in *. clearbody w.
    repeat split; intros; lra.
Qed.

(** The easing curve.  [easeInOutCubic] is 0 at 0 and 1 at 1, does not
    decrease on [0, 1] (so it stays within [0, 1] there), and is
    symmetric about the midpoint: [ease (1 - t) = 1 - ease t]. *)
Theorem easeInOutCubic_curve (s t : Q) :
  Renderer.easeInOutCubic 0 == 0 /\
  Renderer.easeInOutCubic 1 == 1 /\
  (0 <= s -> s <= t -> t <= 1 ->
   Renderer.easeInOutCubic s <= Renderer.easeInOutCubic t) /\
  Renderer.easeInOutCubic (1 - t) == 1 - Renderer.easeInOutCubic t.
Proof.
  split; [reflexivity | split; [reflexivity | split]].
  - intros H0 Hst H1.
    destruct (Qlt_le_dec s (1 # 2)) as [Hs | Hs];
      destruct (Qlt_le_dec t (1 # 2)) as [Ht | Ht].
    + rewrite (ease_first_half s Hs), (ease_first_half t Ht).
      pose proof (cube_mono s t H0 Hst). lra.
    + destruct (ease_range s) as (_ & _ & A & _); [lra | lra |].
      destruct (ease_range t) as (_ & _ & _ & B); [lra | lra |].
      specialize (A Hs). specialize (B Ht). lra.
    + lra.
    + rewrite (ease_second_half s Hs), (ease_second_half t Ht).
      pose proof (cube_mono (2 - 2 * t) (2 - 2 * s)) as Hc.
      assert (A : 0 <= 2 - 2 * t) by lra. assert (B : 2 - 2 * t <= 2 - 2 * s) by lra.
      specialize (Hc A B). lra.
  - destruct (Qlt_le_dec t (1 # 2)) as [Ht | Ht].
    + rewrite (ease_first_half t Ht), (ease_second_half (1 - t)) by lra. field.
    + destruct (Qlt_le_dec (1 - t) (1 # 2)) as [Hu | Hu].
      * rewrite (ease_first_half (1 - t) Hu), (ease_second_half t Ht). field.
      * assert (Et : t == 1 # 2) by lra.
        rewrite (ease_second_half t Ht), (ease_second_half (1 - t) Hu).
        rewrite Et. reflexivity.
Qed.

Lemma blend_channel_start (a : Z) (c2 e : Q) :
  e == 0 -> Math.round (inject_Z a + (c2 - inject_Z a) * e) = inject_Z a.
Proof. intros He. apply round_integer. rewrite He. ring. Qed.

Lemma blend_channel_end (b : Z) (c1 e : Q) :
  e == 1 -> Math.round (c1 + (inject_Z b - c1) * e) = inject_Z b.
Proof. intros He. apply round_integer. rewrite He. ring. Qed.

Lemma blend_channel_between (a b : Z) (e : Q) :
  0 <= e -> e <= 1 ->
  Math.min (inject_Z a) (inject_Z b)
  <= Math.round (inject_Z a + (inject_Z b - inject_Z a) * e) /\
  Math.round (inject_Z a + (inject_Z b - inject_Z a) * e)
  <= Math.max (inject_Z a) (inject_Z b).
Proof.
  intros H0 H1. rewrite (min_integer a b (inject_Z b)), (max_integer a b (inject_Z b))
    by reflexivity.
  apply round_between.
  - destruct (Z.min_spec a b) as [(Hab & ->) | (Hab & ->)].
    + assert (A : inject_Z a <= inject_Z b) by (rewrite <- Zle_Qle; lia). nra.
    + assert (A : inject_Z b <= inject_Z a) by (rewrite <- Zle_Qle; lia). nra.
  - destruct (Z.max_spec a b) as [(Hab & ->) | (Hab & ->)].
    + assert (A : inject_Z a <= inject_Z b) by (rewrite <- Zle_Qle; lia). nra.
    + assert (A : inject_Z b <= inject_Z a) by (rewrite <- Zle_Qle; lia). nra.
Qed.

Lemma blendColors_start (color1 color2 : Renderer.Color) (progress0 : Q) :
  integerColor color1 -> progress0 == 0 ->
  Renderer.blendColors color1 color2 progress0 = color1.
Proof.
  intros (kr & kg & kb & ->) Hp. unfold Renderer.blendColors.
  cbn [Renderer.r Renderer.g Renderer.b].
  assert (He : Renderer.easeInOutCubic progress0 == 0).
  { rewrite ease_first_half by lra. rewrite Hp. reflexivity. }
  now rewrite !blend_channel_start.
Qed.

Lemma blendColors_end (color1 color2 : Renderer.Color) (progress0 : Q) :
  integerColor color2 -> progress0 == 1 ->
  Renderer.blendColors color1 color2 progress0 = color2.
Proof.
  intros (kr & kg & kb & ->) Hp. unfold Renderer.blendColors.
  cbn [Renderer.r Renderer.g Renderer.b].
  assert (He : Renderer.easeInOutCubic progress0 == 1).
  { rewrite ease_second_half by lra. rewrite Hp. reflexivity. }
  now rewrite !blend_channel_end.
Qed.

(** Blending stays between its two colours.  For colours with integer
    channels, [blendColors] returns the first colour at progress 0 and
    the second at progress 1, and for a progress in [0, 1] every channel
    of the blend lies between the two colours' channels: two colours
    within [lo, hi] blend to a colour within [lo, hi]. *)
Theorem blendColors_between (color1 color2 : Renderer.Color) (progress0 : Q) :
  integerColor color1 -> integerColor color2 ->
  0 <= progress0 -> progress0 <= 1 ->
  let blend := Renderer.blendColors color1 color2 progress0 in
  Renderer.blendColors color1 color2 0 = color1 /\
  Renderer.blendColors color1 color2 1 = color2 /\
  integerColor blend /\
  (Math.min (Renderer.r color1) (Renderer.r color2) <= Renderer.r blend /\
   Renderer.r blend <= Math.max (Renderer.r color1) (Renderer.r color2)) /\
  (Math.min (Renderer.g color1) (Renderer.g color2) <= Renderer.g blend /\
   Renderer.g blend <= Math.max (Renderer.g color1) (Renderer.g color2)) /\
  (Math.min (Renderer.b color1) (Renderer.b color2) <= Renderer.b blend /\
   Renderer.b blend <= Math.max (Renderer.b color1) (Renderer.b color2)).
Proof.
  intros H1 H2 Hp0 Hp1. cbv zeta.
  split; [now apply blendColors_start |].
  split; [now apply blendColors_end |].
  destruct H1 as (r1 & g1 & b1 & ->). destruct H2 as (r2 & g2 & b2 & ->).
  destruct (ease_range progress0 Hp0 Hp1) as (He0 & He1 & _).
  unfold Renderer.blendColors. cbn [Renderer.r Renderer.g Renderer.b].
  split; [| split; [| split]]; try now apply blend_channel_between.
  unfold integerColor, Math.round. eexists _, _, _. reflexivity.
Qed.

(** Halfway from white to the cool scheme's colour the blend is
    between the two. *)
Lemma blendColors_between_sample :
  Renderer.blendColors (Renderer.mkColor 255 255 255) (Renderer.mkColor 180 200 255) 0
  = Renderer.mkColor 255 255 255.
Proof.
  assert (Hw : integerColor (Renderer.mkColor 255 255 255))
    by (exists 255%Z, 255%Z, 255%Z; reflexivity).
  assert (Hc : integerColor (Renderer.mkColor 180 200 255))
    by (exists 180%Z, 200%Z, 255%Z; reflexivity).
  destruct (blendColors_between (Renderer.mkColor 255 255 255)
              (Renderer.mkColor 180 200 255) (1 # 2) Hw Hc) as (Hstart & _);
    [discriminate | discriminate | exact Hstart].
Defined.

Lemma max_30_integer (z : Z) : Math.max 30 (inject_Z z) = inject_Z (Z.max 30 z).
Proof.
  unfold Math.max. destruct (Qle_bool (inject_Z z) 30) eqn:E.
  - apply Qle_bool_iff in E. change 30 with (inject_Z 30) in E.
    rewrite <- Zle_Qle in E. now rewrite Z.max_l.
  - assert (Hlt : 30 < inject_Z z) by (apply ltb_true_iff; unfold Math.ltb; now rewrite E).
    change 30 with (inject_Z 30) in Hlt. rewrite <- Zlt_Qlt in Hlt.
    now rewrite Z.max_r by lia.
Qed.

Lemma min_255_integer (z : Z) : Math.min 255 (inject_Z z) = inject_Z (Z.min 255 z).
Proof.
  unfold Math.min. destruct (Qle_bool 255 (inject_Z z)) eqn:E.
  - apply Qle_bool_iff in E. change 255 with (inject_Z 255) in E.
    rewrite <- Zle_Qle in E. now rewrite Z.min_l.
  - assert (Hlt : inject_Z z < 255) by (apply ltb_true_iff; unfold Math.ltb; now rewrite E).
    change 255 with (inject_Z 255) in Hlt. rewrite <- Zlt_Qlt in Hlt.
    now rewrite Z.min_r by lia.
Qed.

(** One channel of [applyBrightnessAndContrast]: the floored and
    raised value, and its boosted value. *)
Lemma channel_raised (v brightness : Q) :
  exists k : Z,
    Math.max 30 (Math.floor (v * brightness)) = inject_Z k /\ (30 <= k)%Z /\
    (3 # 10 <= brightness -> brightness <= 1 -> v <= 255 -> (k <= 255)%Z).
Proof.
  unfold Math.floor. rewrite max_30_integer.
  exists (Z.max 30 (Qfloor (v * brightness))).
  split; [reflexivity | split; [lia |]].
  intros Hb0 Hb1 Hv.
  assert (Hprod : v * brightness <= 255).
  { destruct (Qlt_le_dec v 0) as [Hneg | Hpos]; nra. }
  assert (Hfloor : (Qfloor (v * brightness) <= 255)%Z).
  { rewrite <- (Qfloor_Z 255). now apply Qfloor_resp_le. }
  lia.
Qed.

Lemma channel_boosted (k : Z) :
  (30 <= k)%Z ->
  exists k' : Z,
    Math.min 255 (Math.floor (inject_Z k * (12 # 10))) = inject_Z k' /\
    (30 <= k' <= 255)%Z.
Proof.
  intros Hk. unfold Math.floor. rewrite min_255_integer.
  exists (Z.min 255 (Qfloor (inject_Z k * (12 # 10)))). split; [reflexivity |].
  assert (Hfloor : (30 <= Qfloor (inject_Z k * (12 # 10)))%Z).
  { rewrite <- (Qfloor_Z 30). apply Qfloor_resp_le.
    assert (A : inject_Z 30 <= inject_Z k) by (rewrite <- Zle_Qle; exact Hk).
    change (inject_Z 30) with 30 in *. lra. }
  lia.
Qed.

Lemma applyBrightnessAndContrast_channels (baseColor : Renderer.Color) (brightness : Q) :
  exists kr kg kb : Z,
    Renderer.applyBrightnessAndContrast baseColor brightness
    = Renderer.mkColor (inject_Z kr) (inject_Z kg) (inject_Z kb) /\
    (30 <= kr)%Z /\ (30 <= kg)%Z /\ (30 <= kb)%Z /\
    (brightness <= 1 ->
     Renderer.r baseColor <= 255 -> Renderer.g baseColor <= 255 ->
     Renderer.b baseColor <= 255 ->
     (kr <= 255)%Z /\ (kg <= 255)%Z /\ (kb <= 255)%Z).
Proof.
  unfold Renderer.applyBrightnessAndContrast. cbv zeta.
  destruct (channel_raised (Renderer.r baseColor) brightness) as (kr & Er & Hr & Ur).
  destruct (channel_raised (Renderer.g baseColor) brightness) as (kg & Eg & Hg & Ug).
  destruct (channel_raised (Renderer.b baseColor) brightness) as (kb & Eb & Hb & Ub).
  rewrite Er, Eg, Eb.
  destruct (Math.ltb brightness (3 # 10)) eqn:E.
  - destruct (channel_boosted kr Hr) as (kr' & Er' & Hr').
    destruct (channel_boosted kg Hg) as (kg' & Eg' & Hg').
    destruct (channel_boosted kb Hb) as (kb' & Eb' & Hb').
    rewrite Er', Eg', Eb'. exists kr', kg', kb'.
    split; [reflexivity |]. repeat split; intros; lia.
  - apply ltb_false_iff in E. exists kr, kg, kb.
    split; [reflexivity |]. split; [exact Hr | split; [exact Hg | split; [exact Hb |]]].
    intros Hb1 Vr Vg Vb.
    split; [now apply Ur | split; [now apply Ug | now apply Ub]].
Qed.

Lemma staticColor_integer (name : string) (c : Renderer.Color) :
  Renderer.lookup name Renderer.colorSchemes = Some (Renderer.Static c) ->
  integerColor c /\ channelsWithin 0 255 c /\
  String.eqb name "rainbow" = false /\ String.eqb name "nebula" = false /\
  Renderer.staticColor name = c.
Proof.
  intros Hlook. unfold Renderer.staticColor. rewrite Hlook.
  unfold Renderer.lookup, Renderer.colorSchemes in Hlook.
  destruct (String.eqb name "white") eqn:E1.
  { apply String.eqb_eq in E1. subst name. injection Hlook as <-.
    repeat split; try discriminate; exists 255%Z, 255%Z, 255%Z; reflexivity. }
  destruct (String.eqb name "blue-white") eqn:E2.
  { apply String.eqb_eq in E2. subst name. injection Hlook as <-.
    repeat split; try discriminate; exists 200%Z, 220%Z, 255%Z; reflexivity. }
  destruct (String.eqb name "rainbow") eqn:E3; [discriminate |].
  destruct (String.eqb name "warm") eqn:E4.
  { apply String.eqb_eq in E4. subst name. injection Hlook as <-.
    repeat split; try discriminate; exists 255%Z, 220%Z, 180%Z; reflexivity. }
  destruct (String.eqb name "cool") eqn:E5.
  { apply String.eqb_eq in E5. subst name. injection Hlook as <-.
    repeat split; try discriminate; exists 180%Z, 200%Z, 255%Z; reflexivity. }
  destruct (String.eqb name "nebula") eqn:E6; discriminate.
Qed.

Section ColourProofs.

Context `{Host}.

(** The channels of a star's colour.  [applyBrightnessAndContrast]
    returns integer channels that are at least 30, whatever the base
    colour and the brightness, and so does [getStarColor] on a renderer
    whose active scheme, and the schemes of a transition under way, are
    entries of [colorSchemes] ([knownSchemes]); for a brightness of at
    most 1 and base channels of at most 255 no channel exceeds 255. *)
Theorem star_colour_channels (baseColor : Renderer.Color) (brightness : Q) :
  let c := Renderer.applyBrightnessAndContrast baseColor brightness in
  integerColor c /\
  (30 <= Renderer.r c /\ 30 <= Renderer.g c /\ 30 <= Renderer.b c) /\
  (forall (star : Star.t) (currentTime : Q) (rd : Renderer.t),
     knownSchemes rd ->
     let c' := fst (Renderer.getStarColor star brightness currentTime rd) in
     integerColor c' /\
     30 <= Renderer.r c' /\ 30 <= Renderer.g c' /\ 30 <= Renderer.b c') /\
  (brightness <= 1 ->
   Renderer.r baseColor <= 255 -> Renderer.g baseColor <= 255 ->
   Renderer.b baseColor <= 255 ->
   channelsWithin 30 255 c).
Proof.
  assert (Hlow : forall col : Renderer.Color,
             let c := Renderer.applyBrightnessAndContrast col brightness in
             integerColor c /\
             30 <= Renderer.r c /\ 30 <= Renderer.g c /\ 30 <= Renderer.b c).
  { intros col. cbv zeta.
    destruct (applyBrightnessAndContrast_channels col brightness)
      as (kr & kg & kb & -> & Hr & Hg & Hb & _).
    split; [exists kr, kg, kb; reflexivity |].
    cbn [Renderer.r Renderer.g Renderer.b]. change 30 with (inject_Z 30).
    rewrite <- !Zle_Qle. repeat split; assumption. }
  cbv zeta. split; [apply Hlow | split; [apply Hlow | split]].
  - intros star currentTime rd _. unfold Renderer.getStarColor. cbn [fst]. apply Hlow.
  - intros Hb1 Vr Vg Vb.
    destruct (applyBrightnessAndContrast_channels baseColor brightness)
      as (kr & kg & kb & -> & Hr & Hg & Hb & Hup).
    destruct (Hup Hb1 Vr Vg Vb) as (Ur & Ug & Ub).
    unfold channelsWithin. cbn [Renderer.r Renderer.g Renderer.b].
    change 30 with (inject_Z 30). change 255 with (inject_Z 255).
    rewrite <- !Zle_Qle. repeat split; assumption.
Qed.

(** A transition starts from the old colour.  When [setColorScheme]
    starts a smooth transition away from a scheme of fixed colour, a
    star colour computed at the same instant is still the old scheme's
    colour under [applyBrightnessAndContrast]: the blend begins at its
    first colour (the duration not being 0). *)
Theorem transition_starts_from_old_colour (rd : Renderer.t) (scheme : string)
  (old : Renderer.Color) (star : Star.t) (brightness now : Q) :
  Renderer.isTransitioning (Renderer.colorTransition rd) = false ->
  Renderer.lookup (Renderer.colorScheme (Renderer.config rd)) Renderer.colorSchemes
  = Some (Renderer.Static old) ->
  Renderer.hasOwnProperty scheme = true ->
  String.eqb scheme (Renderer.colorScheme (Renderer.config rd)) = false ->
  ~ Renderer.duration (Renderer.colorTransition rd) == 0 ->
  fst (Renderer.getStarColor star brightness now
         (Renderer.setColorScheme scheme true now rd))
  = Renderer.applyBrightnessAndContrast old brightness.
Proof.
  intros Hidle Hold Hknown Hdiff Hdur.
  destruct (staticColor_integer _ _ Hold) as (Hint & _ & Hrain & Hneb & Hstatic).
  unfold Renderer.setColorScheme. rewrite Hknown, Hdiff, Hidle. cbn [negb andb].
  unfold Renderer.getStarColor. cbv zeta. cbn [fst].
  unfold Renderer.updateColorTransition.
  cbn [Renderer.colorTransition Renderer.isTransitioning Renderer.startTime
       Renderer.duration Renderer.fromScheme Renderer.toScheme Renderer.config negb].
  set (d := Renderer.duration (Renderer.colorTransition rd)) in *.
  assert (Hzero : (now - now) / d == 0) by (field; exact Hdur).
  assert (Hmin : Math.min ((now - now) / d) 1 = (now - now) / d).
  { unfold Math.min.
    destruct (Qle_bool ((now - now) / d) 1) eqn:E; [reflexivity |].
    assert (Hlt : 1 < (now - now) / d)
      by (apply ltb_true_iff; unfold Math.ltb; now rewrite E).
    lra. }
  rewrite Hmin.
  assert (Hnot : Qle_bool 1 ((now - now) / d) = false).
  { destruct (Qle_bool 1 ((now - now) / d)) eqn:E; [| reflexivity].
    apply Qle_bool_iff in E. lra. }
  rewrite Hnot.
  cbn [Renderer.colorTransition Renderer.isTransitioning Renderer.fromScheme
       Renderer.progress Renderer.config Renderer.colorScheme
       Renderer.set_colorScheme].
  unfold Renderer.getSchemeColor. rewrite Hrain, Hneb, Hstatic.
  now rewrite (blendColors_start old _ _ Hint Hzero).
Qed.

(** Only schemes of the table are ever stored.  A new renderer has
    [knownSchemes], and [setColorScheme] (whatever name it is given),
    the transition updates, [getStarColor] and the setters of trails,
    glow and base size keep it: the active scheme is always an entry of
    [colorSchemes], and so are both ends of a transition under way. *)
Theorem schemes_stay_known (rd : Renderer.t) :
  knownSchemes Renderer.new /\
  (knownSchemes rd ->
   (forall (scheme : string) (smooth : bool) (now : Q),
      knownSchemes (Renderer.setColorScheme scheme smooth now rd)) /\
   (forall currentTime : Q,
      knownSchemes (Renderer.updateColorTransition currentTime rd)) /\
   (forall (star : Star.t) (brightness currentTime : Q),
      knownSchemes (snd (Renderer.getStarColor star brightness currentTime rd))) /\
   (forall enabled : bool,
      knownSchemes (Renderer.setTrailsEnabled enabled rd) /\
      knownSchemes (Renderer.setGlowEnabled enabled rd)) /\
   (forall size : Q, knownSchemes (Renderer.setBaseStarSize size rd))).
Proof.
  assert (Hupdate : forall (r0 : Renderer.t) (time : Q),
             knownSchemes r0 -> knownSchemes (Renderer.updateColorTransition time r0)).
  { intros r0 time (Hs & Ht). unfold Renderer.updateColorTransition.
    destruct (Renderer.isTransitioning (Renderer.colorTransition r0)) eqn:E;
      cbn [negb]; [| split; [exact Hs | rewrite E; discriminate]].
    cbv zeta. destruct (Qle_bool 1 _).
    - split; [exact Hs | cbn; discriminate].
    - split; [exact Hs |]. cbn. intros _. exact (Ht eq_refl). }
  split; [split; [reflexivity | cbn; discriminate] |].
  intros Hrd. split; [| split; [| split; [| split]]].
  - intros scheme smooth now. unfold Renderer.setColorScheme.
    destruct (Renderer.hasOwnProperty scheme) eqn:Eknown; cbn [negb]; [| exact Hrd].
    destruct (String.eqb scheme _); [exact Hrd |].
    destruct Hrd as (Hs & Ht). cbv zeta.
    destruct (Renderer.isTransitioning (Renderer.colorTransition rd)) eqn:E;
      destruct smooth; cbn [andb negb]; (split; [exact Eknown |]);
      cbn [Renderer.colorTransition Renderer.isTransitioning Renderer.fromScheme
           Renderer.toScheme].
    + intros _. exact (Ht eq_refl).
    + intros _. exact (Ht eq_refl).
    + intros _. exists (Renderer.colorScheme (Renderer.config rd)), scheme.
      repeat split; assumption.
    + rewrite E. discriminate.
  - intros currentTime. now apply Hupdate.
  - intros star brightness currentTime. unfold Renderer.getStarColor. cbn [snd].
    now apply Hupdate.
  - intros enabled. split; exact Hrd.
  - intros size. exact Hrd.
Qed.

End ColourProofs.

(** The constructed renderer shows the white scheme, an entry of
    [colorSchemes]: the colour of [farStar] at full brightness has
    integer channels of at least 30. *)
Lemma star_colour_channels_sample :
  knownSchemes Renderer.new /\
  let c' := fst (Renderer.getStarColor (H := sampleHost) farStar 1 5000 Renderer.new) in
  integerColor c' /\
  30 <= Renderer.r c' /\ 30 <= Renderer.g c' /\ 30 <= Renderer.b c'.
Proof.
  assert (K : knownSchemes Renderer.new) by (split; [reflexivity | discriminate]).
  split; [exact K |].
  exact (proj1 (proj2 (proj2 (star_colour_channels (H := sampleHost)
                                (Renderer.mkColor 255 255 255) 1)))
           farStar 5000 Renderer.new K).
Defined.

(** From white to the cool scheme at time 5000: the colour of
    [farStar] at full brightness is still white. *)
Lemma transition_starts_from_old_colour_sample :
  fst (Renderer.getStarColor (H := sampleHost) farStar 1 5000
         (Renderer.setColorScheme "cool" true 5000 Renderer.new))
  = Renderer.mkColor 255 255 255.
Proof.
  rewrite (transition_starts_from_old_colour (H := sampleHost) Renderer.new "cool"
             (Renderer.mkColor 255 255 255) farStar 1 5000);
    [reflexivity | reflexivity | reflexivity | reflexivity | reflexivity | discriminate].
Defined.

(** ** Batches and drawing order *)

Lemma pushCurrentBatch_cons (bs : list Renderer.Batch) (sd : Renderer.StarData)
  (cur : list Renderer.StarData) (t : option string) :
  Renderer.pushCurrentBatch (Renderer.mkGrouping bs (sd :: cur) t)
  = bs ++ [Renderer.mkBatch t (sd :: cur)].
Proof. reflexivity. Qed.

Lemma concat_batches_app (bs : list Renderer.Batch) (batch : Renderer.Batch) :
  concat (map Renderer.stars (bs ++ [batch]))
  = concat (map Renderer.stars bs) ++ Renderer.stars batch.
Proof. rewrite map_app, concat_app. cbn. now rewrite app_nil_r. Qed.

(** The loop of [groupStarsForBatching]: the batches made so far and
    the current batch hold the stars seen so far, in order; the batches
    are uniform, and so is the current batch unless it is empty. *)
Lemma groupStar_invariant (rd : Renderer.t) (l : list Renderer.StarData) :
  forall (gs : Renderer.Grouping) (seen : list Renderer.StarData),
    concat (map Renderer.stars (Renderer.batches gs)) ++ Renderer.currentBatch gs = seen ->
    Forall (uniformBatch rd) (Renderer.batches gs) ->
    (Renderer.currentBatch gs = [] \/
     uniformBatch rd (Renderer.mkBatch (Renderer.currentBatchType gs)
                                       (Renderer.currentBatch gs))) ->
    let gs' := fold_left (Renderer.groupStar rd) l gs in
    concat (map Renderer.stars (Renderer.batches gs')) ++ Renderer.currentBatch gs'
    = seen ++ l /\
    Forall (uniformBatch rd) (Renderer.batches gs') /\
    (Renderer.currentBatch gs' = [] \/
     uniformBatch rd (Renderer.mkBatch (Renderer.currentBatchType gs')
                                       (Renderer.currentBatch gs'))).
Proof.
  induction l as [| sd l IH]; intros gs seen Hseen Hbatches Hcur; cbv zeta.
  - cbn [fold_left]. rewrite app_nil_r. split; [exact Hseen | split; assumption].
  - cbn [fold_left].
    replace (seen ++ sd :: l) with ((seen ++ [sd]) ++ l)
      by (rewrite <- app_assoc; reflexivity).
    apply IH; clear IH; unfold Renderer.groupStar; cbv zeta;
      destruct gs as [bs cur t]; cbn [Renderer.batches Renderer.currentBatch
                                       Renderer.currentBatchType] in *.
    + destruct (_ || _).
      * cbn [Renderer.batches Renderer.currentBatch].
        destruct cur as [| c cur]; [cbn; now rewrite <- Hseen, !app_nil_r |].
        rewrite pushCurrentBatch_cons, concat_batches_app. cbn [Renderer.stars].
        now rewrite <- Hseen.
      * cbn [Renderer.batches Renderer.currentBatch].
        now rewrite <- Hseen, app_assoc.
    + destruct (_ || _); cbn [Renderer.batches]; [| exact Hbatches].
      destruct cur as [| c cur]; [exact Hbatches |].
      rewrite pushCurrentBatch_cons. apply Forall_app. split; [exact Hbatches |].
      constructor; [| constructor].
      destruct Hcur as [Hnil | Hu]; [discriminate | exact Hu].
    + right.
      destruct (match t with
                | Some current => negb (current =? Renderer.getStarBatchType sd)%string
                | None => true
                end
                || Qle_bool (Renderer.batchLimit rd)
                            (inject_Z (Z.of_nat (length cur)))) eqn:Enew;
        cbn [Renderer.currentBatch Renderer.currentBatchType].
      * split; [discriminate | split; [| left; reflexivity]].
        exists (Renderer.getStarBatchType sd). split; [reflexivity |].
        constructor; [reflexivity | constructor].
      * apply orb_false_iff in Enew. destruct Enew as (Etype & Efull).
        destruct t as [current |]; [| discriminate].
        apply negb_false_iff, String.eqb_eq in Etype.
        assert (Hroom : inject_Z (Z.of_nat (length cur)) < Renderer.batchLimit rd)
          by (apply ltb_true_iff; unfold Math.ltb; now rewrite Efull).
        split; [destruct cur; discriminate | split].
        -- exists current. split; [reflexivity |]. cbn [Renderer.stars].
           apply Forall_app. split.
           ++ destruct Hcur as [-> | (_ & (t' & Ht' & Hall) & _)]; [constructor |].
              cbn [Renderer.type Renderer.stars] in *. injection Ht' as <-. exact Hall.
           ++ constructor; [now symmetry | constructor].
        -- right. cbn [Renderer.stars]. rewrite length_app. cbn [length].
           rewrite Nat2Z.inj_add, inject_Z_plus. change (inject_Z (Z.of_nat 1)) with 1.
           lra.
Qed.

(** Batching loses nothing.  The batches of [groupStarsForBatching],
    one after the other, are the stars it was given, in the same order;
    no batch is empty, the stars of a batch all have the batch's type,
    and a batch holds one star or fewer than [limit + 1] stars, [limit]
    being [maxBatchSize || 100]. *)
Theorem groupStarsForBatching_partition (stars0 : list Renderer.StarData)
  (rd : Renderer.t) :
  concat (map Renderer.stars (Renderer.groupStarsForBatching stars0 rd)) = stars0 /\
  Forall (uniformBatch rd) (Renderer.groupStarsForBatching stars0 rd).
Proof.
  unfold Renderer.groupStarsForBatching.
  destruct (groupStar_invariant rd stars0 (Renderer.mkGrouping [] [] None) [])
    as (Hseen & Hbatches & Hcur); [reflexivity | constructor | now left |].
  cbn [app] in Hseen.
  destruct (fold_left (Renderer.groupStar rd) stars0 (Renderer.mkGrouping [] [] None))
    as [bs cur t].
  cbn [Renderer.batches Renderer.currentBatch Renderer.currentBatchType] in *.
  destruct cur as [| c cur].
  - cbn. rewrite app_nil_r in Hseen. split; assumption.
  - rewrite pushCurrentBatch_cons, concat_batches_app. cbn [Renderer.stars].
    split; [exact Hseen |]. apply Forall_app. split; [exact Hbatches |].
    constructor; [| constructor].
    destruct Hcur as [Hnil | Hu]; [discriminate | exact Hu].
Qed.

Lemma insertByDepth_permutation (sd : Renderer.StarData) (l : list Renderer.StarData) :
  Permutation (sd :: l) (Renderer.insertByDepth sd l).
Proof.
  induction l as [| other rest IH]; cbn [Renderer.insertByDepth]; [reflexivity |].
  destruct (Qle_bool _ _); [reflexivity |].
  rewrite perm_swap. now apply perm_skip.
Qed.

Lemma insertByDepth_sorted (sd : Renderer.StarData) (l : list Renderer.StarData) :
  StronglySorted deeperFirst l ->
  StronglySorted deeperFirst (Renderer.insertByDepth sd l).
Proof.
  induction 1 as [| other rest Hsorted IH Hall]; cbn [Renderer.insertByDepth].
  - constructor; constructor.
  - destruct (Qle_bool _ _) eqn:E.
    + apply Qle_bool_iff in E. constructor; [now constructor |].
      constructor; [exact E |].
      eapply Forall_impl; [| exact Hall]. unfold deeperFirst. intros a Ha. lra.
    + assert (Hlt : Camera.pz (Renderer.screenPos sd)
                    < Camera.pz (Renderer.screenPos other))
        by (apply ltb_true_iff; unfold Math.ltb; now rewrite E).
      constructor; [exact IH |].
      apply (Permutation_Forall (insertByDepth_permutation sd rest)).
      constructor; [unfold deeperFirst; lra | exact Hall].
Qed.

Lemma sortStarsByDepth_permutation (l : list Renderer.StarData) :
  Permutation l (Renderer.sortStarsByDepth l).
Proof.
  unfold Renderer.sortStarsByDepth.
  induction l as [| sd l IH]; cbn [fold_right]; [constructor |].
  rewrite <- insertByDepth_permutation. now apply perm_skip.
Qed.

(** The drawing order.  [sortStarsByDepth] returns the stars it was
    given, each as often as before, ordered from far to near: every
    star is at least as deep as all the stars after it. *)
Theorem sortStarsByDepth_far_to_near (visibleStars : list Renderer.StarData) :
  Permutation visibleStars (Renderer.sortStarsByDepth visibleStars) /\
  StronglySorted deeperFirst (Renderer.sortStarsByDepth visibleStars) /\
  length (Renderer.sortStarsByDepth visibleStars) = length visibleStars.
Proof.
  split; [apply sortStarsByDepth_permutation | split].
  - unfold Renderer.sortStarsByDepth.
    induction visibleStars as [| sd l IH]; cbn [fold_right]; [constructor |].
    apply insertByDepth_sorted, IH.
  - symmetry. apply Permutation_length, sortStarsByDepth_permutation.
Qed.

(** ** The readings of the performance monitor *)

Lemma fold_add_bounds (lo hi : Z) (l : list Z) :
  Forall (fun reading => (lo <= reading <= hi)%Z) l ->
  forall acc : Z,
    (acc + lo * Z.of_nat (length l) <= fold_left Z.add l acc
     <= acc + hi * Z.of_nat (length l))%Z.
Proof.
  induction 1 as [| x l Hx Hl IH]; intros acc; cbn [fold_left length]; [lia |].
  specialize (IH (acc + x)%Z). lia.
Qed.

Lemma mean_between (lo hi sum len : Z) :
  (0 < len)%Z -> (lo * len <= sum <= hi * len)%Z ->
  inject_Z lo <= inject_Z sum / inject_Z len /\
  inject_Z sum / inject_Z len <= inject_Z hi.
Proof.
  intros Hlen (Hlo & Hhi).
  assert (Hpos : 0 < inject_Z len)
    by (change 0 with (inject_Z 0); now rewrite <- Zlt_Qlt).
  split.
  - apply Qle_shift_div_l; [exact Hpos |].
    rewrite <- inject_Z_mult, <- Zle_Qle. exact Hlo.
  - apply Qle_shift_div_r; [exact Hpos |].
    rewrite <- inject_Z_mult, <- Zle_Qle. exact Hhi.
Qed.

Lemma getAverageFPS_between (pm : PerformanceMonitor.t) (lo hi : Z) :
  PerformanceMonitor.fpsHistory pm <> [] ->
  Forall (fun reading => (lo <= reading <= hi)%Z) (PerformanceMonitor.fpsHistory pm) ->
  inject_Z lo <= PerformanceMonitor.getAverageFPS pm /\
  PerformanceMonitor.getAverageFPS pm <= inject_Z hi.
Proof.
  intros Hne Hall. unfold PerformanceMonitor.getAverageFPS.
  destruct (PerformanceMonitor.fpsHistory pm) as [| x l] eqn:E; [contradiction |].
  cbv zeta. apply round_between;
    apply (mean_between lo hi); try (cbn [length]; lia);
    pose proof (fold_add_bounds lo hi (x :: l) Hall 0); lia.
Qed.

(** Readings and thresholds.  The average of a non-empty history lies
    between its smallest and its largest reading.  So when every
    reading is below the low threshold the monitor reports low
    performance, when every reading is more than 10 above it the
    monitor reports good performance, and when all are within the band
    in between it reports nothing; what it reports carries the
    average. *)
Theorem average_and_thresholds (pm : PerformanceMonitor.t) (lo hi : Z) :
  PerformanceMonitor.fpsHistory pm <> [] ->
  Forall (fun reading => (lo <= reading <= hi)%Z) (PerformanceMonitor.fpsHistory pm) ->
  let avg := PerformanceMonitor.getAverageFPS pm in
  let threshold := PerformanceMonitor.lowFpsThreshold pm in
  let data := PerformanceMonitor.mkData avg (PerformanceMonitor.frameTime pm) in
  (inject_Z lo <= avg /\ avg <= inject_Z hi) /\
  (inject_Z hi < threshold ->
   PerformanceMonitor.checkPerformanceThresholds pm
   = Some (PerformanceMonitor.LowPerformance data)) /\
  (threshold + 10 < inject_Z lo ->
   PerformanceMonitor.checkPerformanceThresholds pm
   = Some (PerformanceMonitor.GoodPerformance data)) /\
  (threshold <= inject_Z lo -> inject_Z hi <= threshold + 10 ->
   PerformanceMonitor.checkPerformanceThresholds pm = None).
Proof.
  intros Hne Hall. cbv zeta.
  destruct (getAverageFPS_between pm lo hi Hne Hall) as (Hlo & Hhi).
  split; [split; assumption |].
  unfold PerformanceMonitor.checkPerformanceThresholds. cbv zeta.
  set (avg := PerformanceMonitor.getAverageFPS pm) in *.
  set (threshold := PerformanceMonitor.lowFpsThreshold pm).
  split; [| split].
  - intros Hlow.
    assert (E : Math.ltb avg threshold = true) by (apply ltb_true_iff; lra).
    now rewrite E.
  - intros Hgood.
    assert (E1 : Math.ltb avg threshold = false) by (apply ltb_false_iff; lra).
    assert (E2 : Math.ltb (threshold + 10) avg = true) by (apply ltb_true_iff; lra).
    now rewrite E1, E2.
  - intros Hin1 Hin2.
    assert (E1 : Math.ltb avg threshold = false) by (apply ltb_false_iff; lra).
    assert (E2 : Math.ltb (threshold + 10) avg = false) by (apply ltb_false_iff; lra).
    now rewrite E1, E2.
Qed.

(** The history of [fifteenMonitor] holds readings of 15 only: below
    its threshold of 30. *)
Lemma average_and_thresholds_sample :
  PerformanceMonitor.getAverageFPS fifteenMonitor <= 15 /\
  exists data,
    PerformanceMonitor.checkPerformanceThresholds fifteenMonitor
    = Some (PerformanceMonitor.LowPerformance data).
Proof.
  assert (Hne : PerformanceMonitor.fpsHistory fifteenMonitor <> []) by discriminate.
  assert (Hall : Forall (fun reading => (15 <= reading <= 15)%Z)
                        (PerformanceMonitor.fpsHistory fifteenMonitor)).
  { apply Forall_forall. intros x Hx. apply repeat_spec in Hx. lia. }
  destruct (average_and_thresholds fifteenMonitor 15 15 Hne Hall)
    as ((_ & Hhi) & Hlow & _).
  split; [exact Hhi | eexists; apply Hlow; reflexivity].
Defined.

Lemma update_reading (currentTime : Q) (pm : PerformanceMonitor.t) :
  1000 <= currentTime - PerformanceMonitor.lastFpsUpdate pm ->
  let pm' := fst (PerformanceMonitor.update currentTime pm) in
  PerformanceMonitor.fps pm' = (PerformanceMonitor.frameCount pm + 1)%Z /\
  PerformanceMonitor.frameCount pm' = 0%Z /\
  PerformanceMonitor.lastFpsUpdate pm' = currentTime /\
  PerformanceMonitor.fpsHistory pm'
  = PerformanceMonitor.pushFps (PerformanceMonitor.frameCount pm + 1)
      (PerformanceMonitor.maxFpsHistory pm) (PerformanceMonitor.fpsHistory pm).
Proof.
  intros Hdue. unfold PerformanceMonitor.update. cbv zeta.
  apply Qle_bool_iff in Hdue. rewrite Hdue. cbn. repeat split.
Qed.

Lemma update_counting (currentTime : Q) (pm : PerformanceMonitor.t) :
  currentTime - PerformanceMonitor.lastFpsUpdate pm < 1000 ->
  let pm' := fst (PerformanceMonitor.update currentTime pm) in
  snd (PerformanceMonitor.update currentTime pm) = None /\
  PerformanceMonitor.frameCount pm' = (PerformanceMonitor.frameCount pm + 1)%Z /\
  PerformanceMonitor.lastFpsUpdate pm' = PerformanceMonitor.lastFpsUpdate pm /\
  PerformanceMonitor.fpsHistory pm' = PerformanceMonitor.fpsHistory pm /\
  PerformanceMonitor.maxFpsHistory pm' = PerformanceMonitor.maxFpsHistory pm /\
  PerformanceMonitor.fps pm' = PerformanceMonitor.fps pm.
Proof.
  intros Hearly. unfold PerformanceMonitor.update. cbv zeta.
  assert (E : Qle_bool 1000 (currentTime - PerformanceMonitor.lastFpsUpdate pm) = false).
  { destruct (Qle_bool 1000 _) eqn:E; [| reflexivity].
    apply Qle_bool_iff in E. lra. }
  rewrite E. cbn. repeat split.
Qed.

Lemma update_due (currentTime : Q) (pm : PerformanceMonitor.t) :
  snd (PerformanceMonitor.update currentTime pm) <> None ->
  1000 <= currentTime - PerformanceMonitor.lastFpsUpdate pm.
Proof.
  intros Hsome.
  destruct (Qlt_le_dec (currentTime - PerformanceMonitor.lastFpsUpdate pm) 1000)
    as [Hearly | Hdue]; [| exact Hdue].
  destruct (update_counting currentTime pm Hearly) as (Hnone & _). contradiction.
Qed.

Lemma update_lastFpsUpdate (currentTime : Q) (pm : PerformanceMonitor.t) :
  PerformanceMonitor.lastFpsUpdate pm
  <= PerformanceMonitor.lastFpsUpdate (fst (PerformanceMonitor.update currentTime pm)).
Proof.
  destruct (Qlt_le_dec (currentTime - PerformanceMonitor.lastFpsUpdate pm) 1000)
    as [Hearly | Hdue].
  - destruct (update_counting currentTime pm Hearly) as (_ & _ & -> & _). lra.
  - destruct (update_reading currentTime pm Hdue) as (_ & _ & -> & _). lra.
Qed.

Lemma run_lastFpsUpdate (times : list Q) :
  forall pm : PerformanceMonitor.t,
    PerformanceMonitor.lastFpsUpdate pm
    <= PerformanceMonitor.lastFpsUpdate (PerformanceMonitor.run times pm).
Proof.
  unfold PerformanceMonitor.run.
  induction times as [| time times IH]; intros pm; cbn [fold_left]; [lra |].
  pose proof (update_lastFpsUpdate time pm).
  specialize (IH (fst (PerformanceMonitor.update time pm))). lra.
Qed.

(** At most one report a second.  If the monitor invokes a callback on
    the frame at time [t] and again on a later frame at time [t'],
    whatever frames came in between, then [t'] is at least 1000 ms
    after [t]. *)
Theorem reports_a_second_apart (pm : PerformanceMonitor.t) (t t' : Q)
  (times : list Q) :
  snd (PerformanceMonitor.update t pm) <> None ->
  snd (PerformanceMonitor.update t'
         (PerformanceMonitor.run times (fst (PerformanceMonitor.update t pm))))
  <> None ->
  t + 1000 <= t'.
Proof.
  intros Hfirst Hsecond.
  apply update_due in Hfirst. apply update_due in Hsecond.
  destruct (update_reading t pm Hfirst) as (_ & _ & Hlast & _).
  pose proof (run_lastFpsUpdate times (fst (PerformanceMonitor.update t pm))) as Hmono.
  rewrite Hlast in Hmono. lra.
Qed.

(** [fifteenMonitor] reports at 30 s, and after two more frames again
    at 31 s. *)
Lemma reports_a_second_apart_sample : 30000 + 1000 <= 31000.
Proof.
  apply (reports_a_second_apart fifteenMonitor 30000 31000 [30400; 30800]);
    vm_compute; discriminate.
Defined.

Lemma run_counting (times : list Q) :
  forall pm : PerformanceMonitor.t,
    Forall (fun time => time - PerformanceMonitor.lastFpsUpdate pm < 1000) times ->
    let pm' := PerformanceMonitor.run times pm in
    PerformanceMonitor.frameCount pm'
    = (PerformanceMonitor.frameCount pm + Z.of_nat (length times))%Z /\
    PerformanceMonitor.lastFpsUpdate pm' = PerformanceMonitor.lastFpsUpdate pm /\
    PerformanceMonitor.fpsHistory pm' = PerformanceMonitor.fpsHistory pm /\
    PerformanceMonitor.maxFpsHistory pm' = PerformanceMonitor.maxFpsHistory pm.
Proof.
  unfold PerformanceMonitor.run.
  induction times as [| time times IH]; intros pm Hall; cbv zeta; cbn [fold_left length].
  - repeat split. lia.
  - inversion Hall as [| t0 l0 Htime Hrest]; subst.
    destruct (update_counting time pm Htime) as (_ & Hc & Hl & Hh & Hm & _).
    destruct (IH (fst (PerformanceMonitor.update time pm))) as (IHc & IHl & IHh & IHm).
    { rewrite Hl. exact Hrest. }
    rewrite IHc, IHl, IHh, IHm, Hc, Hl, Hh, Hm. repeat split. lia.
Qed.

(** A reading is a count of frames.  Frames that come less than
    1000 ms after the last reading are only counted; the first frame
    that comes 1000 ms or more after it records as the FPS reading the
    number of frames since that reading (itself included), however long
    the interval was, appends it to the history and starts counting
    from 0 again. *)
Theorem reading_counts_frames (pm : PerformanceMonitor.t) (times : list Q) (t : Q) :
  Forall (fun time => time - PerformanceMonitor.lastFpsUpdate pm < 1000) times ->
  1000 <= t - PerformanceMonitor.lastFpsUpdate pm ->
  let counted := PerformanceMonitor.run times pm in
  let pm' := fst (PerformanceMonitor.update t counted) in
  let reading := (PerformanceMonitor.frameCount pm + Z.of_nat (length times) + 1)%Z in
  PerformanceMonitor.fpsHistory counted = PerformanceMonitor.fpsHistory pm /\
  PerformanceMonitor.fps pm' = reading /\
  PerformanceMonitor.fpsHistory pm'
  = PerformanceMonitor.pushFps reading (PerformanceMonitor.maxFpsHistory pm)
      (PerformanceMonitor.fpsHistory pm) /\
  PerformanceMonitor.frameCount pm' = 0%Z /\
  PerformanceMonitor.lastFpsUpdate pm' = t.
Proof.
  intros Hall Hdue. cbv zeta.
  destruct (run_counting times pm Hall) as (Hc & Hl & Hh & Hm).
  destruct (update_reading t (PerformanceMonitor.run times pm)) as (Rf & Rc & Rl & Rh).
  { rewrite Hl. exact Hdue. }
  rewrite Rf, Rc, Rl, Rh, Hc, Hh, Hm. repeat split.
Qed.

(** [countingMonitor] has counted 6 frames since its reading at 60 s;
    after two more frames the frame at 62.5 s records a reading of 9. *)
Lemma reading_counts_frames_sample :
  PerformanceMonitor.fps
    (fst (PerformanceMonitor.update 62500
            (PerformanceMonitor.run [60400; 60800] countingMonitor))) = 9%Z.
Proof.
  assert (Hall : Forall (fun time => time - PerformanceMonitor.lastFpsUpdate
                                              countingMonitor < 1000)
                        [60400; 60800])
    by (repeat constructor).
  destruct (reading_counts_frames countingMonitor [60400; 60800] 62500 Hall)
    as (_ & Hfps & _); [discriminate | exact Hfps].
Defined.

(** ** Adaptive quality over time *)

Section AdaptiveInvariant.

Context `{Host}.

Lemma pushRandomStar_performanceOptimizations (sf : StarField.t) :
  StarField.performanceOptimizations (StarField.pushRandomStar sf)
  = StarField.performanceOptimizations sf.
Proof.
  unfold StarField.pushRandomStar.
  destruct (StarField.createRandomStar (StarField.randomCalls sf)). reflexivity.
Qed.

Lemma setStarCount_performanceOptimizations (count : JS.number) (sf : StarField.t) :
  StarField.performanceOptimizations (StarField.setStarCount count sf)
  = StarField.performanceOptimizations sf.
Proof.
  unfold StarField.setStarCount.
  destruct (JS.strict_eq _ _); [reflexivity |].
  destruct (JS.gt _ _); [| reflexivity].
  unfold JS.for_loop.
  apply (for_lt_invariant
           (fun s => StarField.performanceOptimizations s
                     = StarField.performanceOptimizations sf));
    [| reflexivity].
  intros s Hs. now rewrite pushRandomStar_performanceOptimizations.
Qed.

(** The handlers are rate limited.  A low-performance call that was
    handled at time [now] makes every further low-performance call
    before [now + 2000] change nothing; a good-performance call handled
    at [now] does the same for the calls before [now + recoveryDelay];
    and with [autoOptimize] off no report of the monitor changes the
    field. *)
Theorem handlers_rate_limited (sf : StarField.t)
  (data data' : PerformanceMonitor.Data) (now now' : Q) :
  let po := StarField.performanceOptimizations sf in
  (2000 <= now - StarField.lastOptimization po -> now' - now < 2000 ->
   StarField.handleLowPerformance data' now' (StarField.handleLowPerformance data now sf)
   = StarField.handleLowPerformance data now sf) /\
  (StarField.recoveryDelay po <= now - StarField.lastRecovery po ->
   now' - now < StarField.recoveryDelay po ->
   StarField.handleGoodPerformance data' now' (StarField.handleGoodPerformance data now sf)
   = StarField.handleGoodPerformance data now sf) /\
  (StarField.autoOptimize po = false ->
   forall n : option PerformanceMonitor.Notification,
     StarField.performanceCallback n now sf = sf).
Proof.
  cbv zeta. split; [| split].
  - intros Hdue Hsoon.
    assert (Hlast : StarField.lastOptimization
                      (StarField.performanceOptimizations
                         (StarField.handleLowPerformance data now sf)) = now).
    { unfold StarField.handleLowPerformance.
      apply ltb_false_iff in Hdue. rewrite Hdue. reflexivity. }
    unfold StarField.handleLowPerformance at 1. rewrite Hlast.
    apply ltb_true_iff in Hsoon. now rewrite Hsoon.
  - intros Hdue Hsoon.
    assert (Hlast : StarField.lastRecovery
                      (StarField.performanceOptimizations
                         (StarField.handleGoodPerformance data now sf)) = now
                    /\ StarField.recoveryDelay
                         (StarField.performanceOptimizations
                            (StarField.handleGoodPerformance data now sf))
                       = StarField.recoveryDelay (StarField.performanceOptimizations sf)).
    { unfold StarField.handleGoodPerformance.
      apply ltb_false_iff in Hdue. rewrite Hdue. cbv zeta.
      split; [reflexivity |].
      cbn [StarField.performanceOptimizations StarField.set_lastRecovery
           StarField.set_performanceOptimizations StarField.recoveryDelay].
      destruct (JS.lt _ _ && Math.ltb _ _); [| reflexivity].
      destruct (JS.gt _ _); destruct (negb _);
        cbn [StarField.performanceOptimizations StarField.set_skipFrames
             StarField.set_renderingOptimizations StarField.setTrailsEnabled
             StarField.setGlowEnabled StarField.set_renderer];
        now rewrite ?setStarCount_performanceOptimizations. }
    destruct Hlast as (Hlast & Hdelay).
    unfold StarField.handleGoodPerformance at 1. rewrite Hlast, Hdelay.
    apply ltb_true_iff in Hsoon. now rewrite Hsoon.
  - intros Hoff n. unfold StarField.performanceCallback. rewrite Hoff.
    now destruct n as [[d | d] |].
Qed.

End AdaptiveInvariant.

(** [fullField] is throttled at 30 s: a low-performance report one
    second later changes nothing more. *)
Lemma handlers_rate_limited_sample :
  StarField.handleLowPerformance (H := sampleHost)
    (PerformanceMonitor.mkData 10 10) 31000
    (StarField.handleLowPerformance (H := sampleHost)
       (PerformanceMonitor.mkData 15 10) 30000 fullField)
  = StarField.handleLowPerformance (H := sampleHost)
      (PerformanceMonitor.mkData 15 10) 30000 fullField.
Proof.
  apply (proj1 (handlers_rate_limited (H := sampleHost) fullField
                  (PerformanceMonitor.mkData 15 10) (PerformanceMonitor.mkData 10 10)
                  30000 31000)).
  - vm_compute. discriminate.
  - vm_compute. reflexivity.
Defined.

Section AdaptiveRange.

Context `{Host}.

(** [adaptive] looks at the stars, the two counts and the two settings
    only. *)
Lemma adaptive_same (sf sf' : StarField.t) (o : Z) :
  StarField.stars sf' = StarField.stars sf ->
  StarField.starCount sf' = StarField.starCount sf ->
  StarField.originalStarCount sf' = StarField.originalStarCount sf ->
  StarField.minStarCount (StarField.performanceOptimizations sf')
  = StarField.minStarCount (StarField.performanceOptimizations sf) ->
  StarField.reductionStep (StarField.performanceOptimizations sf')
  = StarField.reductionStep (StarField.performanceOptimizations sf) ->
  adaptive sf o -> adaptive sf' o.
Proof.
  intros Hs Hc Ho Hm Hr (A1 & A2 & A3 & A4 & c & (C1 & C2 & C3) & A5).
  unfold adaptive, consistent. rewrite Hs, Hc, Ho, Hm, Hr.
  repeat split; try assumption; try lia. exists c. repeat split; try assumption; lia.
Qed.

(** [setStarCount] to an integer within the range keeps [adaptive]. *)
Lemma setStarCount_adaptive (sf : StarField.t) (o m : Z) (q : Q) :
  adaptive sf o -> q == inject_Z m ->
  (Z.max 1 (Z.min 100 o) <= m <= o)%Z ->
  adaptive (StarField.setStarCount (JS.Num q) sf) o.
Proof.
  intros (A1 & A2 & A3 & A4 & c & Hcons & A5) Hq Hm.
  pose proof (setStarCount_consistent sf c q Hcons) as Hcons'.
  destruct (setStarCount_result sf c q Hcons) as (l & rc & E & _).
  rewrite (Qfloor_integer q m Hq) in Hcons', E.
  unfold adaptive. rewrite E at 1 2 3.
  cbn [StarField.performanceOptimizations StarField.originalStarCount
       StarField.set_stars StarField.set_starCount].
  split; [exact A1 | split; [exact A2 | split; [exact A3 | split; [exact A4 |]]]].
  exists (Z.max 1 (Z.min 5000 m)). split; [exact Hcons' | lia].
Qed.

Lemma handleLowPerformance_adaptive (data : PerformanceMonitor.Data) (now : Q)
  (sf : StarField.t) (o : Z) :
  adaptive sf o -> adaptive (StarField.handleLowPerformance data now sf) o.
Proof.
  intros Hsf. unfold StarField.handleLowPerformance.
  destruct (Math.ltb _ 2000); [exact Hsf |]. cbv zeta.
  set (sf1 := if JS.gt _ _ then _ else sf).
  assert (H1 : adaptive sf1 o).
  { subst sf1. pose proof Hsf as (A1 & A2 & A3 & A4 & c & (C1 & C2 & C3) & A5).
    unfold StarField.getStarCount. rewrite C1, A1, A2.
    cbn [JS.gt JS.lt JS.mul JS.sub JS.lift2 JS.Math_floor].
    rewrite !Math_max_Num.
    destruct (Math.ltb 100 (inject_Z c)) eqn:Egt; [| exact Hsf].
    apply ltb_true_iff in Egt. change 100 with (inject_Z 100) in Egt.
    rewrite <- Zlt_Qlt in Egt.
    apply (setStarCount_adaptive sf o
             (Z.max 100 (c - Z.max (c / 4) 1))); [exact Hsf | | ].
    - change 100 with (inject_Z 100). apply max_integer.
      unfold Math.floor. rewrite Qfloor_fraction.
      rewrite (max_integer (c / 4) 1 1) by reflexivity.
      apply sub_integer.
    - assert (0 <= c / 4)%Z by (apply Z.div_pos; lia). lia. }
  clearbody sf1.
  destruct (Math.ltb _ 20);
    (eapply adaptive_same; [| | | | | exact H1]); reflexivity.
Qed.

Lemma handleGoodPerformance_adaptive (data : PerformanceMonitor.Data) (now : Q)
  (sf : StarField.t) (o : Z) :
  adaptive sf o -> adaptive (StarField.handleGoodPerformance data now sf) o.
Proof.
  intros Hsf. unfold StarField.handleGoodPerformance.
  destruct (Math.ltb _ _); [exact Hsf |]. cbv zeta.
  destruct (JS.lt _ _ && Math.ltb _ _) eqn:Econd;
    [| eapply adaptive_same; [| | | | | exact Hsf]; reflexivity].
  set (sf1 := if JS.gt _ _ then _ else sf).
  assert (H1 : adaptive sf1 o).
  { subst sf1. pose proof Hsf as (A1 & A2 & A3 & A4 & c & (C1 & C2 & C3) & A5).
    apply andb_true_iff in Econd. destruct Econd as (Elt & _). revert Elt.
    unfold StarField.getStarCount. rewrite C1, A3.
    cbn [JS.gt JS.lt JS.mul JS.sub JS.add JS.lift2 JS.Math_floor].
    rewrite !Math_min_Num. cbn [JS.lt]. intros Elt.
    apply ltb_true_iff in Elt. rewrite <- Zlt_Qlt in Elt.
    assert (Hamount : Math.min (Math.floor (inject_Z o * (1 # 10)))
                               (inject_Z o - inject_Z c)
                      == inject_Z (Z.min (o / 10) (o - c))).
    { unfold Math.floor. rewrite Qfloor_fraction.
      apply min_integer, sub_integer. }
    destruct (Math.ltb 0 _) eqn:Epos; [| exact Hsf].
    apply ltb_true_iff in Epos. rewrite Hamount in Epos.
    change 0 with (inject_Z 0) in Epos. rewrite <- Zlt_Qlt in Epos.
    apply (setStarCount_adaptive sf o (c + Z.min (o / 10) (o - c))); [exact Hsf | | lia].
    rewrite Hamount, <- inject_Z_plus. reflexivity. }
  clearbody sf1.
  destruct (negb _);
    (eapply adaptive_same; [| | | | | exact H1]); reflexivity.
Qed.

Lemma updatePerformanceMonitor_adaptive (currentTime now : Q) (sf : StarField.t)
  (o : Z) :
  adaptive sf o -> adaptive (StarField.updatePerformanceMonitor currentTime now sf) o.
Proof.
  intros Hsf. unfold StarField.updatePerformanceMonitor.
  destruct (PerformanceMonitor.update _ _) as [pm n].
  assert (H1 : adaptive (StarField.set_performanceMonitor pm sf) o)
    by (eapply adaptive_same; [| | | | | exact Hsf]; reflexivity).
  unfold StarField.performanceCallback.
  destruct n as [[data | data] |]; [| | exact H1];
    destruct (StarField.autoOptimize _); try exact H1.
  - now apply handleLowPerformance_adaptive.
  - now apply handleGoodPerformance_adaptive.
Qed.

(** The count stays in its range.  A star field constructed with a
    count [o] between 0 and 5000 is [adaptive], and every monitored
    frame, whatever the monitor reports and whenever, keeps it so: the
    stored count is always the number of stars, never above the
    original count [o] and never below [min(100, o)]. *)
Theorem count_stays_in_range (width height : Q) (o : Z) (sf : StarField.t) :
  ((0 <= o <= 5000)%Z ->
   adaptive (StarField.new width height (JS.Num (inject_Z o))) o) /\
  (adaptive sf o ->
   forall fs : list (Q * Q), adaptive (StarField.frames fs sf) o).
Proof.
  split.
  - intros Ho. unfold StarField.new.
    set (sf0 := StarField.mk _ _ _ _ _ _ _ _ _ _ _ _).
    destruct (initialize_result sf0 o eq_refl) as (l & rc & E & L).
    rewrite E. unfold adaptive.
    cbn [StarField.performanceOptimizations StarField.originalStarCount
         StarField.set_stars sf0 StarField.minStarCount StarField.reductionStep].
    repeat split; try lia.
    exists o. unfold consistent. cbn. repeat split; try assumption; lia.
  - intros Hsf fs. revert sf Hsf. unfold StarField.frames.
    induction fs as [| f fs IH]; intros sf Hsf; cbn [fold_left]; [exact Hsf |].
    apply IH, updatePerformanceMonitor_adaptive, Hsf.
Qed.

End AdaptiveRange.

(** ** The smoothed rotation *)

Lemma Qpower_succ (a : Q) (n : nat) :
  a ^ Z.of_nat (S n) == a * a ^ Z.of_nat n.
Proof.
  rewrite Nat2Z.inj_succ. unfold Z.succ.
  rewrite Qpower_plus' by lia. change (a ^ 1) with a. ring.
Qed.

Lemma update_step (h : InputHandler.t) :
  InputHandler.isUpdating h = true ->
  let h' := InputHandler.update h in
  InputHandler.targetRotationX h' = InputHandler.targetRotationX h /\
  InputHandler.targetRotationY h' = InputHandler.targetRotationY h /\
  InputHandler.smoothing h' = InputHandler.smoothing h /\
  InputHandler.isUpdating h' = true /\
  InputHandler.targetRotationX h' - InputHandler.currentRotationX h'
  == (1 - InputHandler.smoothing h)
     * (InputHandler.targetRotationX h - InputHandler.currentRotationX h) /\
  InputHandler.targetRotationY h' - InputHandler.currentRotationY h'
  == (1 - InputHandler.smoothing h)
     * (InputHandler.targetRotationY h - InputHandler.currentRotationY h).
Proof.
  intros Hup. cbv zeta. unfold InputHandler.update. rewrite Hup. cbn.
  repeat split; try exact Hup; ring.
Qed.

(** Smoothing closes the gap geometrically.  While the loop is
    updating, each [update] leaves the target as it is and multiplies
    the distance from the smoothed rotation to the target by
    [1 - smoothing], on both axes: after [n] updates the distance is
    [(1 - smoothing)^n] times what it was, and with a smoothing of 1
    the first update reaches the target.  When the loop is stopped,
    [update] changes nothing. *)
Theorem smoothing_closes_the_gap (h : InputHandler.t) (n : nat) :
  (InputHandler.isUpdating h = false -> InputHandler.update h = h) /\
  (InputHandler.isUpdating h = true ->
   let h' := Nat.iter n InputHandler.update h in
   let factor := (1 - InputHandler.smoothing h) ^ Z.of_nat n in
   InputHandler.targetRotationX h' = InputHandler.targetRotationX h /\
   InputHandler.targetRotationY h' = InputHandler.targetRotationY h /\
   InputHandler.targetRotationX h' - InputHandler.currentRotationX h'
   == factor * (InputHandler.targetRotationX h - InputHandler.currentRotationX h) /\
   InputHandler.targetRotationY h' - InputHandler.currentRotationY h'
   == factor * (InputHandler.targetRotationY h - InputHandler.currentRotationY h)).
Proof.
  split.
  - intros Hoff. unfold InputHandler.update. now rewrite Hoff.
  - intros Hup. cbv zeta.
    assert (Hiter : InputHandler.smoothing (Nat.iter n InputHandler.update h)
                    = InputHandler.smoothing h /\
                    InputHandler.isUpdating (Nat.iter n InputHandler.update h) = true /\
                    InputHandler.targetRotationX (Nat.iter n InputHandler.update h)
                    = InputHandler.targetRotationX h /\
                    InputHandler.targetRotationY (Nat.iter n InputHandler.update h)
                    = InputHandler.targetRotationY h /\
                    InputHandler.targetRotationX (Nat.iter n InputHandler.update h)
                    - InputHandler.currentRotationX (Nat.iter n InputHandler.update h)
                    == (1 - InputHandler.smoothing h) ^ Z.of_nat n
                       * (InputHandler.targetRotationX h
                          - InputHandler.currentRotationX h) /\
                    InputHandler.targetRotationY (Nat.iter n InputHandler.update h)
                    - InputHandler.currentRotationY (Nat.iter n InputHandler.update h)
                    == (1 - InputHandler.smoothing h) ^ Z.of_nat n
                       * (InputHandler.targetRotationY h
                          - InputHandler.currentRotationY h)).
    { induction n as [| n IH].
      - change (Nat.iter 0 InputHandler.update h) with h.
        change ((1 - InputHandler.smoothing h) ^ Z.of_nat 0) with 1.
        repeat split; try exact Hup; ring.
      - destruct IH as (Is & Iu & Ix & Iy & Gx & Gy).
        rewrite Nat.iter_succ.
        destruct (update_step (Nat.iter n InputHandler.update h) Iu)
          as (Tx & Ty & Ss & Su & Sx & Sy).
        split; [now rewrite Ss | split; [exact Su |]].
        split; [now rewrite Tx | split; [now rewrite Ty |]].
        split.
        + rewrite Sx, Is, Gx, Qpower_succ. ring.
        + rewrite Sy, Is, Gy, Qpower_succ. ring. }
    destruct Hiter as (_ & _ & Ix & Iy & Gx & Gy).
    repeat split; assumption.
Qed.

(** With the default smoothing of 0.1, three updates after a drag
    leave 0.729 of the distance to the target. *)
Lemma smoothing_closes_the_gap_sample :
  let h := InputHandler.run dragLeft (InputHandler.new defaultOptions) in
  let h' := Nat.iter 3 InputHandler.update h in
  InputHandler.targetRotationY h' - InputHandler.currentRotationY h'
  == (729 # 1000)
     * (InputHandler.targetRotationY h - InputHandler.currentRotationY h).
Proof.
  cbv zeta.
  destruct (proj2 (smoothing_closes_the_gap
                     (InputHandler.run dragLeft (InputHandler.new defaultOptions)) 3))
    as (_ & _ & _ & Hy); [reflexivity |].
  cbv zeta in Hy. rewrite Hy. apply Qmult_comp; [vm_compute | ]; reflexivity.
Defined.

Lemma convex_between (lo hi c t s : Q) :
  lo <= c -> c <= hi -> lo <= t -> t <= hi -> 0 <= s -> s <= 1 ->
  lo <= c + (t - c) * s /\ c + (t - c) * s <= hi.
Proof.
  intros Hc1 Hc2 Ht1 Ht2 Hs0 Hs1.
  assert (A : 0 <= (1 - s) * (c - lo)) by (apply Qmult_le_0_compat; lra).
  assert (B : 0 <= s * (t - lo)) by (apply Qmult_le_0_compat; lra).
  assert (C : 0 <= (1 - s) * (hi - c)) by (apply Qmult_le_0_compat; lra).
  assert (D : 0 <= s * (hi - t)) by (apply Qmult_le_0_compat; lra).
  split; lra.
Qed.

(** What an event leaves alone: the smoothing factor always, and the
    smoothed rotation unless the event is an animation frame. *)
Lemma handle_current (h : InputHandler.t) (e : InputHandler.Event) :
  InputHandler.smoothing (InputHandler.handle h e) = InputHandler.smoothing h /\
  (e <> InputHandler.AnimationFrame ->
   InputHandler.currentRotationX (InputHandler.handle h e)
   = InputHandler.currentRotationX h /\
   InputHandler.currentRotationY (InputHandler.handle h e)
   = InputHandler.currentRotationY h).
Proof.
  destruct e as [event rect | | | | touches rect | touches rect | touches rect | |];
    cbn [InputHandler.handle].
  - unfold InputHandler.handleMouseMove, InputHandler.applyRotationBounds.
    cbn [InputHandler.set_mouse InputHandler.isMouseDown].
    destruct (InputHandler.isMouseDown h); repeat split.
  - repeat split.
  - repeat split.
  - repeat split.
  - unfold InputHandler.handleTouchStart.
    destruct touches as [| t1 [| t2 rest]]; repeat split.
  - unfold InputHandler.handleTouchMove, InputHandler.applyRotationBounds.
    destruct touches as [| t1 [| t2 rest]]; try (repeat split; fail).
    destruct (InputHandler.isTouchActive h && negb (InputHandler.multiTouchActive h));
      repeat split.
  - unfold InputHandler.handleTouchEnd.
    destruct touches as [| t1 [| t2 rest]]; try (repeat split; fail).
    destruct (InputHandler.multiTouchActive h); repeat split.
  - repeat split.
  - unfold InputHandler.update.
    destruct (negb (InputHandler.isUpdating h)); split; try reflexivity;
      intros Hne; now contradiction Hne.
Qed.

Lemma handle_steady (h : InputHandler.t) (e : InputHandler.Event) :
  0 <= InputHandler.maxRotation h ->
  0 <= InputHandler.smoothing h -> InputHandler.smoothing h <= 1 ->
  bounded h -> steady h ->
  steady (InputHandler.handle h e).
Proof.
  intros Hm Hs0 Hs1 Hb Hst.
  destruct (handle_bounded h e Hm Hb) as (_ & Hmax).
  destruct (handle_current h e) as (_ & Hcur).
  unfold steady. rewrite Hmax.
  destruct e as [event rect | | | | touches rect | touches rect | touches rect | |];
    try (destruct Hcur as (-> & ->); [discriminate | exact Hst]).
  cbn [InputHandler.handle]. unfold InputHandler.update.
  destruct (negb (InputHandler.isUpdating h)); [exact Hst |]. cbn.
  destruct Hb as (B1 & B2 & B3 & B4). destruct Hst as (S1 & S2 & S3 & S4).
  destruct (convex_between (- InputHandler.maxRotation h) (InputHandler.maxRotation h)
              (InputHandler.currentRotationX h) (InputHandler.targetRotationX h)
              (InputHandler.smoothing h)) as (X1 & X2); try assumption.
  destruct (convex_between (- Math.PI) Math.PI
              (InputHandler.currentRotationY h) (InputHandler.targetRotationY h)
              (InputHandler.smoothing h)) as (Y1 & Y2); try assumption.
  repeat split; assumption.
Qed.

Lemma run_steady (events : list InputHandler.Event) :
  forall h : InputHandler.t,
    0 <= InputHandler.maxRotation h ->
    0 <= InputHandler.smoothing h -> InputHandler.smoothing h <= 1 ->
    bounded h -> steady h ->
    bounded (InputHandler.run events h) /\ steady (InputHandler.run events h).
Proof.
  induction events as [| e events IH]; intros h Hm Hs0 Hs1 Hb Hst.
  - split; assumption.
  - cbn [InputHandler.run fold_left].
    destruct (handle_bounded h e Hm Hb) as (Hb' & Hm').
    destruct (handle_current h e) as (Hs' & _).
    apply IH; try (rewrite ?Hm', ?Hs'; assumption).
    now apply handle_steady.
Qed.

Lemma handle_released (h : InputHandler.t) (e : InputHandler.Event) :
  startsDrag e = false -> released h ->
  released (InputHandler.handle h e) /\
  InputHandler.targetRotationX (InputHandler.handle h e)
  = InputHandler.targetRotationX h /\
  InputHandler.targetRotationY (InputHandler.handle h e)
  = InputHandler.targetRotationY h.
Proof.
  intros Hpassive (Hmouse & Htouch & Hmulti). unfold released.
  destruct e as [event rect | | | | touches rect | touches rect | touches rect | |];
    try discriminate; cbn [InputHandler.handle].
  - unfold InputHandler.handleMouseMove.
    cbn [InputHandler.set_mouse InputHandler.isMouseDown]. rewrite Hmouse.
    cbn. repeat split; assumption.
  - cbn. repeat split; assumption.
  - cbn. repeat split; assumption.
  - unfold InputHandler.handleTouchMove. rewrite Htouch. cbn [andb].
    destruct touches as [| t1 [| t2 rest]]; repeat split; assumption.
  - unfold InputHandler.handleTouchEnd. rewrite Hmulti.
    destruct touches as [| t1 [| t2 rest]]; cbn; repeat split; assumption.
  - cbn. repeat split; assumption.
  - unfold InputHandler.update.
    destruct (negb (InputHandler.isUpdating h)); cbn; repeat split; assumption.
Qed.

(** No rotation without a drag.  While no pointer is down, events
    other than a mouse-down or a touch-start (mouse moves, touch moves,
    releases, animation frames) leave the rotation target where it is,
    and leave the handler released; a new handler is released. *)
Theorem rotation_needs_a_drag (h : InputHandler.t)
  (events : list InputHandler.Event) :
  released h ->
  Forall (fun e => startsDrag e = false) events ->
  InputHandler.targetRotationX (InputHandler.run events h)
  = InputHandler.targetRotationX h /\
  InputHandler.targetRotationY (InputHandler.run events h)
  = InputHandler.targetRotationY h /\
  released (InputHandler.run events h).
Proof.
  intros Hrel Hall. revert h Hrel.
  induction Hall as [| e events He Hall IH]; intros h Hrel.
  - repeat split; try reflexivity; apply Hrel.
  - cbn [InputHandler.run fold_left].
    destruct (handle_released h e He Hrel) as (Hrel' & Hx & Hy).
    destruct (IH _ Hrel') as (IHx & IHy & IHrel).
    unfold InputHandler.run in *. rewrite IHx, IHy, Hx, Hy.
    repeat split; try reflexivity; apply IHrel.
Qed.

(** Moving the mouse and a finger over a new handler, with nothing
    pressed, leaves the target at 0. *)
Lemma rotation_needs_a_drag_sample :
  InputHandler.targetRotationY
    (InputHandler.run
       [ InputHandler.MouseMove (InputHandler.mkPointer 400 300) (InputHandler.mkRect 0 0);
         InputHandler.TouchMove [InputHandler.mkPointer 10 10] (InputHandler.mkRect 0 0);
         InputHandler.AnimationFrame ]
       (InputHandler.new defaultOptions)) = 0.
Proof.
  destruct (rotation_needs_a_drag (InputHandler.new defaultOptions)
              [ InputHandler.MouseMove (InputHandler.mkPointer 400 300)
                                       (InputHandler.mkRect 0 0);
                InputHandler.TouchMove [InputHandler.mkPointer 10 10]
                                       (InputHandler.mkRect 0 0);
                InputHandler.AnimationFrame ])
    as (_ & Hy & _).
  - repeat split.
  - repeat constructor.
  - exact Hy.
Defined.

(** The setters make the rotation safe.  [setMaxRotation] stores a
    value in [0, pi] and [setSmoothing] one in [0.01, 1], whatever
    finite number they are given; [setSensitivity] stores a value in
    [0.001, 0.01] and [setTouchSensitivity] one in [0.0005, 0.005].  On
    a handler whose bound and smoothing were set this way before any
    event, every sequence of events keeps the target and the smoothed
    rotation within their bounds. *)
Theorem setters_make_rotation_safe (options : InputHandler.Options)
  (maxRotation0 smoothing0 sensitivity0 : Q) (events : list InputHandler.Event) :
  let h := InputHandler.new options in
  let h0 := InputHandler.setSmoothing smoothing0
              (InputHandler.setMaxRotation maxRotation0 h) in
  (0 <= InputHandler.maxRotation h0 /\ InputHandler.maxRotation h0 <= Math.PI) /\
  ((1 # 100) <= InputHandler.smoothing h0 /\ InputHandler.smoothing h0 <= 1) /\
  ((1 # 1000) <= InputHandler.sensitivity (InputHandler.setSensitivity sensitivity0 h) /\
   InputHandler.sensitivity (InputHandler.setSensitivity sensitivity0 h) <= 1 # 100) /\
  ((5 # 10000)
   <= InputHandler.touchSensitivity (InputHandler.setTouchSensitivity sensitivity0 h) /\
   InputHandler.touchSensitivity (InputHandler.setTouchSensitivity sensitivity0 h)
   <= 5 # 1000) /\
  bounded (InputHandler.run events h0) /\ steady (InputHandler.run events h0).
Proof.
  cbv zeta. pose proof PI_pos as Hpi.
  destruct (clamp_range 0 Math.PI maxRotation0) as (M1 & M2 & _); [lra |].
  destruct (clamp_range (1 # 100) 1 smoothing0) as (S1 & S2 & _); [lra |].
  destruct (clamp_range (1 # 1000) (1 # 100) sensitivity0) as (A1 & A2 & _); [lra |].
  destruct (clamp_range (5 # 10000) (5 # 1000) sensitivity0) as (T1 & T2 & _); [lra |].
  split; [split; assumption |]. split; [split; assumption |].
  split; [split; assumption |]. split; [split; assumption |].
  apply run_steady.
  - exact M1.
  - change (0 <= Math.max (1 # 100) (Math.min 1 smoothing0)). lra.
  - exact S2.
  - unfold bounded.
    change (- Math.max 0 (Math.min Math.PI maxRotation0) <= 0 /\
            0 <= Math.max 0 (Math.min Math.PI maxRotation0) /\
            - Math.PI <= 0 /\ 0 <= Math.PI).
    repeat split; lra.
  - unfold steady.
    change (- Math.max 0 (Math.min Math.PI maxRotation0) <= 0 /\
            0 <= Math.max 0 (Math.min Math.PI maxRotation0) /\
            - Math.PI <= 0 /\ 0 <= Math.PI).
    repeat split; lra.
Qed.

(** ** The panel and what it controls *)

Lemma validateStarCount_Num (q : Q) (p : ConfigPanel.t) :
  ConfigPanel.validateStarCount (JS.Num q) p
  = JS.Num (inject_Z (Z.max 100 (Z.min 5000 (Qfloor q)))).
Proof.
  unfold ConfigPanel.validateStarCount.
  cbn [JS.isNaN JS.Math_floor]. unfold Math.floor.
  change (JS.Num 5000) with (JS.Num (inject_Z 5000)).
  change (JS.Num 100) with (JS.Num (inject_Z 100)).
  now rewrite Math_min_inject_Z, Math_max_inject_Z.
Qed.

Lemma validateColorScheme_known (scheme : string) :
  ConfigPanel.validateColorScheme scheme = Renderer.hasOwnProperty scheme.
Proof.
  unfold ConfigPanel.validateColorScheme, ConfigPanel.validSchemes,
    Renderer.hasOwnProperty, Renderer.colorSchemes.
  cbn [existsb Renderer.lookup].
  destruct (String.eqb scheme "white"); [reflexivity |].
  destruct (String.eqb scheme "blue-white"); [reflexivity |].
  destruct (String.eqb scheme "rainbow"); [now rewrite !orb_true_r |].
  destruct (String.eqb scheme "warm"); [reflexivity |].
  destruct (String.eqb scheme "cool"); [reflexivity |].
  destruct (String.eqb scheme "nebula"); reflexivity.
Qed.

Section PanelProofs.

Context `{Host}.

(** The panel's count reaches the field, when it is new to the panel.
    For a finite input, [handleStarCountChange] compares the validated
    count [k = clamp(floor(n), 100, 5000)] with the count the panel
    stores, not with the field's.  If they differ, the panel and the
    field both hold [k] afterwards and the field has [k] stars; if they
    are equal nothing changes, whatever the field's own count is. *)
Theorem panel_count_reaches_the_field (p : ConfigPanel.t) (c : Z) (q : Q) :
  consistent (ConfigPanel.starField p) c ->
  let k := Z.max 100 (Z.min 5000 (Qfloor q)) in
  let p' := ConfigPanel.handleStarCountChange (JS.Num q) p in
  (JS.strict_eq (JS.Num (inject_Z k)) (ConfigPanel.starCount (ConfigPanel.config p))
   = true -> p' = p) /\
  (JS.strict_eq (JS.Num (inject_Z k)) (ConfigPanel.starCount (ConfigPanel.config p))
   = false ->
   ConfigPanel.starCount (ConfigPanel.config p') = JS.Num (inject_Z k) /\
   StarField.getStarCount (ConfigPanel.starField p') = JS.Num (inject_Z k) /\
   consistent (ConfigPanel.starField p') k).
Proof.
  intros Hcons. cbv zeta. unfold ConfigPanel.handleStarCountChange.
  rewrite validateStarCount_Num.
  set (k := Z.max 100 (Z.min 5000 (Qfloor q))).
  split; intros Heq; rewrite Heq; cbn [negb]; [reflexivity |].
  cbn [ConfigPanel.config ConfigPanel.starCount ConfigPanel.starField].
  pose proof (setStarCount_consistent _ c (inject_Z k) Hcons) as Hk.
  rewrite Qfloor_Z in Hk. replace (Z.max 1 (Z.min 5000 k)) with k in Hk by lia.
  split; [reflexivity | split; [| exact Hk]].
  unfold StarField.getStarCount. apply Hk.
Qed.

(** A scheme chosen in the panel reaches the renderer.  The panel's
    list of valid schemes names exactly the entries of the renderer's
    table.  After [handleColorSchemeChange] with a valid scheme the
    panel and the renderer both have that scheme as the active one;
    with any other name nothing changes. *)
Theorem panel_scheme_reaches_the_renderer (p : ConfigPanel.t) (scheme : string)
  (now : Q) :
  let p' := ConfigPanel.handleColorSchemeChange scheme now p in
  ConfigPanel.validateColorScheme scheme = Renderer.hasOwnProperty scheme /\
  (ConfigPanel.validateColorScheme scheme = true ->
   ConfigPanel.colorScheme (ConfigPanel.config p') = scheme /\
   Renderer.colorScheme
     (Renderer.config (StarField.renderer (ConfigPanel.starField p'))) = scheme) /\
  (ConfigPanel.validateColorScheme scheme = false -> p' = p).
Proof.
  cbv zeta. split; [apply validateColorScheme_known | split].
  - intros Hvalid. unfold ConfigPanel.handleColorSchemeChange. rewrite Hvalid.
    cbn [ConfigPanel.config ConfigPanel.colorScheme ConfigPanel.starField].
    split; [reflexivity |].
    unfold StarField.setColorScheme. cbn [StarField.renderer StarField.set_renderer].
    unfold Renderer.setColorScheme.
    rewrite <- validateColorScheme_known, Hvalid. cbn [negb].
    destruct (String.eqb scheme _) eqn:E; [| reflexivity].
    apply String.eqb_eq in E. now symmetry.
  - intros Hinvalid. unfold ConfigPanel.handleColorSchemeChange. now rewrite Hinvalid.
Qed.

End PanelProofs.

(** [stalePanel] stores 1000 while its field holds 750 stars: entering
    1000 again changes nothing, and the field keeps its 750 stars. *)
Lemma panel_count_reaches_the_field_sample :
  ConfigPanel.handleStarCountChange (H := sampleHost) (JS.Num 1000) stalePanel
  = stalePanel /\
  StarField.getStarCount (ConfigPanel.starField stalePanel) = JS.Num 750.
Proof.
  assert (Hcons : consistent (ConfigPanel.starField stalePanel) 750)
    by (repeat split; vm_compute; reflexivity || discriminate).
  destruct (panel_count_reaches_the_field (H := sampleHost) stalePanel 750 1000 Hcons)
    as (Hsame & _).
  split; [apply Hsame | vm_compute]; reflexivity.
Defined.

(** ** The application *)

Lemma Qfloor_three_quarters (c : Z) : Qfloor (inject_Z c * (3 # 4)) = (c * 3 / 4)%Z.
Proof. unfold Qfloor, inject_Z, Qmult; cbn. reflexivity. Qed.

Section ApplicationProofs.

Context `{Host}.

Lemma pushRandomStar_camera (sf : StarField.t) :
  StarField.camera (StarField.pushRandomStar sf) = StarField.camera sf.
Proof.
  unfold StarField.pushRandomStar.
  destruct (StarField.createRandomStar (StarField.randomCalls sf)). reflexivity.
Qed.

Lemma new_camera_rotation (width height : Q) (n : JS.number) :
  Camera.rotationX (StarField.camera (StarField.new width height n)) = 0 /\
  Camera.rotationY (StarField.camera (StarField.new width height n)) = 0.
Proof.
  unfold StarField.new, StarField.initialize, JS.for_loop.
  apply (for_lt_invariant
           (fun s => Camera.rotationX (StarField.camera s) = 0 /\
                     Camera.rotationY (StarField.camera s) = 0));
    [| split; reflexivity].
  intros s Hs. now rewrite pushRandomStar_camera.
Qed.

(** What the application's handler does to a consistent field. *)
Lemma app_handleLowPerformance_count (data : PerformanceMonitor.Data)
  (app : StarFieldApp.t) (c : Z) :
  consistent (StarFieldApp.starField app) c -> (c <= 5000)%Z ->
  let sf' := StarFieldApp.starField (StarFieldApp.handleLowPerformance data app) in
  consistent sf' (if (100 <? c)%Z then Z.max 100 (c * 3 / 4) else c) /\
  ((c <= 100)%Z ->
   StarField.stars sf' = StarField.stars (StarFieldApp.starField app)) /\
  StarField.performanceOptimizations sf'
  = StarField.performanceOptimizations (StarFieldApp.starField app).
Proof.
  intros Hcons Hc. cbv zeta. unfold StarFieldApp.handleLowPerformance. cbv zeta.
  set (sf := StarFieldApp.starField app) in *.
  pose proof Hcons as (C1 & C2 & C3).
  unfold StarField.getStarCount. rewrite C1.
  cbn [JS.mul JS.lift2 JS.Math_floor]. rewrite Math_max_Num. cbn [JS.lt].
  unfold Math.floor. rewrite Qfloor_three_quarters.
  assert (Hnew : Math.max 100 (inject_Z (c * 3 / 4)) == inject_Z (Z.max 100 (c * 3 / 4)))
    by (change 100 with (inject_Z 100); now apply max_integer).
  set (sf1 := if Math.ltb _ _ then _ else sf).
  assert (H1 : consistent sf1 (if (100 <? c)%Z then Z.max 100 (c * 3 / 4) else c) /\
               ((c <= 100)%Z -> StarField.stars sf1 = StarField.stars sf) /\
               StarField.performanceOptimizations sf1
               = StarField.performanceOptimizations sf).
  { subst sf1. destruct (Z.ltb_spec 100 c) as [Hbig | Hsmall].
    - assert (Hq : (c * 3 / 4 < c)%Z) by (apply Z.div_lt_upper_bound; lia).
      assert (E : Math.ltb (Math.max 100 (inject_Z (c * 3 / 4))) (inject_Z c) = true).
      { apply ltb_true_iff. rewrite Hnew, <- Zlt_Qlt. lia. }
      rewrite E.
      pose proof (setStarCount_consistent sf c
                    (Math.max 100 (inject_Z (c * 3 / 4))) Hcons) as Hk.
      rewrite (Qfloor_integer _ _ Hnew) in Hk.
      replace (Z.max 1 (Z.min 5000 (Z.max 100 (c * 3 / 4))))
        with (Z.max 100 (c * 3 / 4)) in Hk by lia.
      split; [exact Hk | split; [lia |]].
      destruct (setStarCount_result sf c (Math.max 100 (inject_Z (c * 3 / 4))) Hcons)
        as (l & rc & Eset & _).
      now rewrite Eset.
    - assert (E : Math.ltb (Math.max 100 (inject_Z (c * 3 / 4))) (inject_Z c) = false).
      { apply ltb_false_iff. rewrite Hnew, <- Zle_Qle. lia. }
      rewrite E. split; [exact Hcons | split; reflexivity]. }
  clearbody sf1. destruct H1 as (A1 & A2 & A3).
  destruct (StarFieldApp.isMobile app);
    cbn [StarFieldApp.starField]; (split; [exact A1 | split; [exact A2 | exact A3]]).
Qed.

Lemma app_handleLowPerformance_iter (data : PerformanceMonitor.Data) (n : nat) :
  forall (app : StarFieldApp.t) (c : Z),
    consistent (StarFieldApp.starField app) c ->
    (100 <= c <= 5000)%Z -> (c - 100 <= Z.of_nat n)%Z ->
    consistent
      (StarFieldApp.starField
         (Nat.iter n (StarFieldApp.handleLowPerformance data) app)) 100.
Proof.
  induction n as [| n IH]; intros app c Hcons Hc Hn.
  - replace c with 100%Z in Hcons by lia. exact Hcons.
  - rewrite Nat.iter_succ_r.
    destruct (app_handleLowPerformance_count data app c Hcons) as (Hnext & _); [lia |].
    cbv zeta in Hnext.
    assert (Hq : (0 <= c * 3 / 4 < c)%Z)
      by (split; [apply Z.div_pos | apply Z.div_lt_upper_bound]; lia).
    destruct (Z.ltb_spec 100 c) as [Hbig | Hsmall];
      (eapply IH; [exact Hnext | lia | lia]).
Qed.

(** The application's response to low performance.  With a consistent
    count [c] of at most 5000, [handleLowPerformance] of the
    application brings a count above 100 down to
    [max(100, floor(c * 0.75))], which is smaller, and leaves a count of
    at most 100 and its stars as they are.  It records no time and
    changes no optimization setting, so nothing limits its rate: once
    [c - 100] reports (or more) have come, a count that was at least 100
    is exactly 100.  On a device that is not mobile the renderer is left
    as it is; on a mobile one glow is off and batches hold 25 stars. *)
Theorem app_low_performance_shrinks (data : PerformanceMonitor.Data)
  (app : StarFieldApp.t) (c : Z) :
  consistent (StarFieldApp.starField app) c -> (c <= 5000)%Z ->
  let app' := StarFieldApp.handleLowPerformance data app in
  let sf := StarFieldApp.starField app in
  let sf' := StarFieldApp.starField app' in
  ((100 < c)%Z ->
   consistent sf' (Z.max 100 (c * 3 / 4)) /\ (Z.max 100 (c * 3 / 4) < c)%Z) /\
  ((c <= 100)%Z -> consistent sf' c /\ StarField.stars sf' = StarField.stars sf) /\
  StarField.performanceOptimizations sf' = StarField.performanceOptimizations sf /\
  (forall n : nat,
     (100 <= c)%Z -> (c - 100 <= Z.of_nat n)%Z ->
     consistent
       (StarFieldApp.starField
          (Nat.iter n (StarFieldApp.handleLowPerformance data) app)) 100) /\
  (StarFieldApp.isMobile app = false -> StarField.renderer sf' = StarField.renderer sf) /\
  (StarFieldApp.isMobile app = true ->
   Renderer.enableGlow (Renderer.config (StarField.renderer sf')) = false /\
   Renderer.maxBatchSize (Renderer.config (StarField.renderer sf')) = 25).
Proof.
  intros Hcons Hc. cbv zeta.
  destruct (app_handleLowPerformance_count data app c Hcons Hc) as (Hcount & Hstars & Hpo).
  cbv zeta in Hcount, Hstars, Hpo.
  split; [| split; [| split; [exact Hpo | split; [| split]]]].
  - intros Hbig. apply Z.ltb_lt in Hbig as Et. rewrite Et in Hcount.
    assert (Hq : (c * 3 / 4 < c)%Z) by (apply Z.div_lt_upper_bound; lia).
    split; [exact Hcount | lia].
  - intros Hsmall. assert (Et : (100 <? c)%Z = false) by (apply Z.ltb_ge; lia).
    rewrite Et in Hcount. split; [exact Hcount | now apply Hstars].
  - intros n Hlow Hn. apply (app_handleLowPerformance_iter data n app c Hcons); lia.
  - intros Hdesk. unfold StarFieldApp.handleLowPerformance. cbv zeta. rewrite Hdesk.
    cbn [StarFieldApp.starField].
    destruct (JS.lt _ _); [| reflexivity].
    pose proof Hcons as (C1 & _). unfold StarField.getStarCount. rewrite C1.
    cbn [JS.mul JS.lift2 JS.Math_floor]. rewrite Math_max_Num.
    destruct (setStarCount_result (StarFieldApp.starField app) c
                (Math.max 100 (Math.floor (inject_Z c * (3 # 4)))) Hcons)
      as (l & rc & Eset & _).
    now rewrite Eset.
  - intros Hmob. unfold StarFieldApp.handleLowPerformance. cbv zeta. rewrite Hmob.
    split; reflexivity.
Qed.

(** The camera follows the handler within its bounds.  In the
    application the input handler's [update] gives the smoothed
    rotation to the star field's camera.  For a handler constructed
    with a non-negative [maxRotation] and a smoothing factor in [0, 1]
    (the defaults are pi/2 and 0.1), on a new star field, after every
    sequence of pointer events and animation frames the smoothed
    rotation and the camera's rotation are within the bounds of the
    target: the vertical ones in [-maxRotation, maxRotation], the
    horizontal ones in [-pi, pi]. *)
Theorem camera_rotation_bounded (width height : Q) (n : JS.number)
  (options : InputHandler.Options) (mobile : bool)
  (events : list InputHandler.Event) :
  0 <= InputHandler.maxRotation (InputHandler.new options) ->
  0 <= InputHandler.smoothing (InputHandler.new options) ->
  InputHandler.smoothing (InputHandler.new options) <= 1 ->
  let app := StarFieldApp.run events
               (StarFieldApp.mk (StarField.new width height n)
                                (InputHandler.new options) mobile) in
  let c := StarField.camera (StarFieldApp.starField app) in
  let h := StarFieldApp.inputHandler app in
  let m := InputHandler.maxRotation (InputHandler.new options) in
  h = InputHandler.run events (InputHandler.new options) /\
  ((- m <= InputHandler.currentRotationX h /\ InputHandler.currentRotationX h <= m) /\
   (- Math.PI <= InputHandler.currentRotationY h /\
    InputHandler.currentRotationY h <= Math.PI)) /\
  ((- m <= Camera.rotationX c /\ Camera.rotationX c <= m) /\
   (- Math.PI <= Camera.rotationY c /\ Camera.rotationY c <= Math.PI)).
Proof.
  intros Hm Hs0 Hs1. cbv zeta.
  set (m := InputHandler.maxRotation (InputHandler.new options)) in *.
  assert (Hinv : forall (evs : list InputHandler.Event) (app : StarFieldApp.t),
             let h := StarFieldApp.inputHandler app in
             InputHandler.maxRotation h = m ->
             0 <= InputHandler.smoothing h -> InputHandler.smoothing h <= 1 ->
             bounded h -> steady h -> aimed app ->
             aimed (StarFieldApp.run evs app) /\
             StarFieldApp.inputHandler (StarFieldApp.run evs app)
             = InputHandler.run evs h).
  { induction evs as [| e evs IH]; intros app h Hmax H0 H1 Hb Hst Ha.
    - split; [exact Ha | reflexivity].
    - cbn [StarFieldApp.run InputHandler.run fold_left].
      assert (Hm' : 0 <= InputHandler.maxRotation h) by (rewrite Hmax; exact Hm).
      destruct (handle_bounded h e Hm' Hb) as (Hb' & Hmax').
      destruct (handle_current h e) as (Hs' & _).
      pose proof (handle_steady h e Hm' H0 H1 Hb Hst) as Hst'.
      assert (Hh : StarFieldApp.inputHandler (StarFieldApp.handle app e)
                   = InputHandler.handle h e).
      { unfold StarFieldApp.handle. cbv zeta. fold h.
        destruct e; try reflexivity.
        destruct (InputHandler.isUpdating h); reflexivity. }
      rewrite <- Hh.
      apply IH; rewrite ?Hh, ?Hmax', ?Hs'; try assumption.
      unfold aimed. cbv zeta. rewrite Hh, Hmax'.
      unfold aimed in Ha. cbv zeta in Ha. fold h in Ha.
      unfold StarFieldApp.handle. cbv zeta. fold h.
      destruct e; try exact Ha.
      destruct (InputHandler.isUpdating h); [| exact Ha].
      cbn [StarFieldApp.rotationCallback StarFieldApp.starField StarField.setRotation
           StarField.set_camera StarField.camera Camera.setRotation
           Camera.rotationX Camera.rotationY].
      unfold steady in Hst'. rewrite Hmax' in Hst'.
      destruct Hst' as (S1 & S2 & S3 & S4). repeat split; assumption. }
  assert (Hb0 : bounded (InputHandler.new options)).
  { pose proof PI_pos. unfold bounded. fold m. cbn in *. repeat split; lra. }
  assert (Hst0 : steady (InputHandler.new options)).
  { pose proof PI_pos. unfold steady. fold m. cbn in *. repeat split; lra. }
  destruct (Hinv events
              (StarFieldApp.mk (StarField.new width height n)
                               (InputHandler.new options) mobile))
    as (Ha & Hh); try assumption; try reflexivity.
  { unfold aimed. cbv zeta. cbn [StarFieldApp.starField StarFieldApp.inputHandler].
    destruct (new_camera_rotation width height n) as (-> & ->).
    pose proof PI_pos. fold m. repeat split; lra. }
  cbn [StarFieldApp.inputHandler] in Hh.
  destruct (run_steady events _ Hm Hs0 Hs1 Hb0 Hst0) as (_ & S1 & S2 & S3 & S4).
  destruct (run_bounded events _ Hm Hb0) as (_ & Hmax). fold m in Hmax.
  rewrite Hmax in S1, S2.
  split; [exact Hh | split].
  - rewrite Hh. repeat split; assumption.
  - unfold aimed in Ha. cbv zeta in Ha. rewrite Hh, Hmax in Ha. exact Ha.
Qed.

Lemma handle_isUpdating (h : InputHandler.t) (e : InputHandler.Event) :
  InputHandler.isUpdating (InputHandler.handle h e) = InputHandler.isUpdating h.
Proof.
  destruct e as [event rect | | | | touches rect | touches rect | touches rect | |];
    cbn [InputHandler.handle]; try reflexivity.
  - unfold InputHandler.handleMouseMove, InputHandler.applyRotationBounds.
    cbn [InputHandler.set_mouse InputHandler.isMouseDown].
    destruct (InputHandler.isMouseDown h); reflexivity.
  - unfold InputHandler.handleTouchStart.
    destruct touches as [| t1 [| t2 rest]]; reflexivity.
  - unfold InputHandler.handleTouchMove, InputHandler.applyRotationBounds.
    destruct touches as [| t1 [| t2 rest]]; try reflexivity.
    destruct (InputHandler.isTouchActive h && negb (InputHandler.multiTouchActive h));
      reflexivity.
  - unfold InputHandler.handleTouchEnd.
    destruct touches as [| t1 [| t2 rest]]; try reflexivity.
    destruct (InputHandler.multiTouchActive h); reflexivity.
  - unfold InputHandler.update.
    destruct (InputHandler.isUpdating h) eqn:E; cbn [negb]; [| exact E].
    cbn [InputHandler.isUpdating InputHandler.set_current]. exact E.
Qed.

(** While the handler's loop is stopped, no event reaches the star
    field or moves the smoothed rotation. *)
Lemma stopped_run (events : list InputHandler.Event) :
  forall app : StarFieldApp.t,
    InputHandler.isUpdating (StarFieldApp.inputHandler app) = false ->
    let app' := StarFieldApp.run events app in
    StarFieldApp.starField app' = StarFieldApp.starField app /\
    InputHandler.isUpdating (StarFieldApp.inputHandler app') = false /\
    InputHandler.smoothing (StarFieldApp.inputHandler app')
    = InputHandler.smoothing (StarFieldApp.inputHandler app) /\
    InputHandler.currentRotationX (StarFieldApp.inputHandler app')
    = InputHandler.currentRotationX (StarFieldApp.inputHandler app) /\
    InputHandler.currentRotationY (StarFieldApp.inputHandler app')
    = InputHandler.currentRotationY (StarFieldApp.inputHandler app).
Proof.
  induction events as [| e events IH]; intros app Hoff; cbv zeta.
  - repeat split. exact Hoff.
  - cbn [StarFieldApp.run fold_left].
    set (h := StarFieldApp.inputHandler app) in *.
    assert (Hstep : StarFieldApp.handle app e
                    = StarFieldApp.mk (StarFieldApp.starField app)
                                      (InputHandler.handle h e)
                                      (StarFieldApp.isMobile app)).
    { unfold StarFieldApp.handle. cbv zeta. fold h. rewrite Hoff.
      destruct e; reflexivity. }
    destruct (IH (StarFieldApp.handle app e)) as (I1 & I2 & I3 & I4 & I5).
    { rewrite Hstep. cbn [StarFieldApp.inputHandler].
      now rewrite handle_isUpdating. }
    unfold StarFieldApp.run in *.
    set (app' := fold_left StarFieldApp.handle events (StarFieldApp.handle app e)) in *.
    rewrite Hstep in I1, I3, I4, I5.
    cbn [StarFieldApp.starField StarFieldApp.inputHandler] in I1, I3, I4, I5.
    destruct (handle_current h e) as (Hs & Hcur).
    assert (Hkeep : InputHandler.currentRotationX (InputHandler.handle h e)
                    = InputHandler.currentRotationX h /\
                    InputHandler.currentRotationY (InputHandler.handle h e)
                    = InputHandler.currentRotationY h).
    { destruct e; try (apply Hcur; discriminate).
      cbn [InputHandler.handle]. unfold InputHandler.update. rewrite Hoff.
      split; reflexivity. }
    destruct Hkeep as (Kx & Ky).
    split; [exact I1 | split; [exact I2 | split; [| split]]].
    + now rewrite I3.
    + now rewrite I4.
    + now rewrite I5.
Qed.

(** Switching mouse rotation off and on.  Switching it off (the
    panel's [handleMouseRotationChange(false)]) puts the handler's
    rotations at 0 and stops its loop, but the camera is not told: it
    keeps the rotation it had.  While it is off no event reaches the
    camera or the smoothed rotation; drags still move the target.
    Switching it on again runs one [update], which turns the camera to
    [smoothing] times the target the drags have left. *)
Theorem mouse_rotation_off_and_on (panel : ConfigPanel.Config) (app : StarFieldApp.t)
  (events : list InputHandler.Event) :
  let off := snd (StarFieldApp.handleMouseRotationChange false panel app) in
  let later := StarFieldApp.run events off in
  let on := snd (StarFieldApp.handleMouseRotationChange true panel later) in
  let h := StarFieldApp.inputHandler later in
  (InputHandler.currentRotationX (StarFieldApp.inputHandler off) = 0 /\
   InputHandler.currentRotationY (StarFieldApp.inputHandler off) = 0 /\
   InputHandler.targetRotationX (StarFieldApp.inputHandler off) = 0 /\
   InputHandler.targetRotationY (StarFieldApp.inputHandler off) = 0 /\
   InputHandler.isUpdating (StarFieldApp.inputHandler off) = false) /\
  StarFieldApp.starField off = StarFieldApp.starField app /\
  (StarFieldApp.starField later = StarFieldApp.starField app /\
   InputHandler.currentRotationX h = 0 /\ InputHandler.currentRotationY h = 0) /\
  (Camera.rotationX (StarField.camera (StarFieldApp.starField on))
   == InputHandler.smoothing (StarFieldApp.inputHandler app)
      * InputHandler.targetRotationX h /\
   Camera.rotationY (StarField.camera (StarFieldApp.starField on))
   == InputHandler.smoothing (StarFieldApp.inputHandler app)
      * InputHandler.targetRotationY h /\
   InputHandler.isUpdating (StarFieldApp.inputHandler on) = true).
Proof.
  cbv zeta.
  set (off := snd (StarFieldApp.handleMouseRotationChange false panel app)).
  assert (Hoff : InputHandler.isUpdating (StarFieldApp.inputHandler off) = false)
    by reflexivity.
  destruct (stopped_run events off Hoff) as (L1 & L2 & L3 & L4 & L5).
  cbv zeta in L1, L2, L3, L4, L5.
  set (later := StarFieldApp.run events off) in *.
  split; [repeat split |]. split; [reflexivity |].
  split; [split; [exact L1 | split; [exact L4 | exact L5]] |].
  unfold StarFieldApp.handleMouseRotationChange. cbn [snd].
  unfold StarFieldApp.startUpdateLoop. rewrite L2. cbn [negb].
  unfold StarFieldApp.handle. cbv zeta.
  cbn [StarFieldApp.inputHandler StarFieldApp.starField StarFieldApp.isMobile
       InputHandler.isUpdating InputHandler.set_isUpdating InputHandler.handle].
  unfold InputHandler.update.
  cbn [InputHandler.isUpdating InputHandler.set_isUpdating negb
       InputHandler.targetRotationX InputHandler.targetRotationY
       InputHandler.currentRotationX InputHandler.currentRotationY
       InputHandler.smoothing InputHandler.set_current
       StarFieldApp.rotationCallback StarFieldApp.starField StarFieldApp.inputHandler
       StarField.setRotation StarField.set_camera StarField.camera
       Camera.setRotation Camera.rotationX Camera.rotationY].
  rewrite L3, L4, L5.
  change (InputHandler.smoothing (StarFieldApp.inputHandler off))
    with (InputHandler.smoothing (StarFieldApp.inputHandler app)).
  change (InputHandler.currentRotationX (StarFieldApp.inputHandler off)) with 0.
  change (InputHandler.currentRotationY (StarFieldApp.inputHandler off)) with 0.
  split; [ring | split; [ring | reflexivity]].
Qed.

End ApplicationProofs.

(** 1000 stars become 750 at the first report, and 100 after 900. *)
Lemma app_low_performance_shrinks_sample :
  consistent
    (StarFieldApp.starField
       (StarFieldApp.handleLowPerformance (H := sampleHost)
          (PerformanceMonitor.mkData 15 10)
          (StarFieldApp.mk fullField (InputHandler.new defaultOptions) false)))
    750.
Proof.
  assert (Hcons : consistent fullField 1000)
    by (repeat split; vm_compute; reflexivity || discriminate).
  destruct (app_low_performance_shrinks (H := sampleHost)
              (PerformanceMonitor.mkData 15 10)
              (StarFieldApp.mk fullField (InputHandler.new defaultOptions) false)
              1000 Hcons) as (Hbig & _); [lia |].
  exact (proj1 (Hbig eq_refl)).
Defined.

(** The camera of [smallField]'s application after [dragLeft] and two
    animation frames. *)
Lemma camera_rotation_bounded_sample :
  let app := StarFieldApp.run
               (dragLeft ++ [InputHandler.AnimationFrame; InputHandler.AnimationFrame])
               (StarFieldApp.mk smallField (InputHandler.new defaultOptions) false) in
  - Math.PI <= Camera.rotationY (StarField.camera (StarFieldApp.starField app)) /\
  Camera.rotationY (StarField.camera (StarFieldApp.starField app)) <= Math.PI.
Proof.
  destruct (camera_rotation_bounded (H := sampleHost) 800 600 (JS.Num 3)
              defaultOptions false
              (dragLeft ++ [InputHandler.AnimationFrame; InputHandler.AnimationFrame]))
    as (_ & _ & _ & Hy); [vm_compute; discriminate .. | exact Hy].
Defined.
